(** * telemetry_scan.py: device protocol layer of the COSMOS telemetry scan

    A shallow embedding of the parts of [telemetry_scan.py] that encode and
    decode the three device protocols (ITLA laser over serial, Lumentum ROADM
    over NETCONF, Calient switch over telnet), of the power-prediction formula
    and of the retry loops of the scan script, followed by the properties
    proved about them.

    Conventions of the embedding:
    - a Python exception is a value [PyExn cls] carrying its class name;
    - a call that can raise returns a [result];
    - a call that talks to a device returns an [io]: the events it produced,
      in order, and its result;
    - what a device answers is an argument of the function that asks;
    - a [while] loop that waits for the hardware runs on fuel and returns
      [None] when the fuel is used up;
    - a Python [float] is an IEEE 754 binary64 value, modelled by
      [spec_float] at precision 53 with the operations of [SpecFloat], in
      the laser driver and in the voltages of a capture, where the program
      truncates and compares floats;
    - the power-prediction formula, which goes through [math.log10] and
      [**], is over the real numbers;
    - the grid generator is written once over an interface of arithmetic
      and instantiated with binary64, as the program runs it, and with
      exact rationals, the grid it approximates. *)

From Stdlib Require Import ZArith List String Ascii Bool Lia Btauto.
From Stdlib Require Import Floats.SpecFloat.
From Stdlib Require Import QArith Qcanon DecimalString.
From Stdlib Require Import Reals Lra.
Import ListNotations.

Local Open Scope string_scope.
Local Open Scope list_scope.
Local Open Scope Z_scope.

(* ================================================================= *)
(** ** Python values that raise: exceptions, results and traces *)

Inductive pyexn : Type := PyExn (cls : string).

Definition PowerLimitError : pyexn := PyExn "PowerLimitError".
Definition StructError : pyexn := PyExn "struct.error".
Definition ValueError : pyexn := PyExn "ValueError".
Definition OverflowError : pyexn := PyExn "OverflowError".
Definition ZeroDivisionError : pyexn := PyExn "ZeroDivisionError".
Definition IndexError : pyexn := PyExn "IndexError".
Definition KeyError : pyexn := PyExn "KeyError".
Definition TypeError : pyexn := PyExn "TypeError".
Definition AttributeError : pyexn := PyExn "AttributeError".
Definition UnboundLocalError : pyexn := PyExn "UnboundLocalError".

Inductive result (A : Type) : Type :=
| Ok (a : A)
| Raise (e : pyexn).
Arguments Ok {A} a.
Arguments Raise {A} e.

Definition rbind {A B} (r : result A) (f : A -> result B) : result B :=
  match r with
  | Ok a => f a
  | Raise e => Raise e
  end.

(* ================================================================= *)
(** ** Python objects read from a parsed document *)

(** What [xmltodict.parse] returns: nested dictionaries (in document
    order), lists for repeated elements, strings for text and [None] for
    an empty element. *)
#[warnings="-register-all"]
Inductive pyval : Type :=
| PNone
| PStr (s : string)
| PList (l : list pyval)
| PDict (d : list (string * pyval)).

Fixpoint assoc (k : string) (d : list (string * pyval)) : option pyval :=
  match d with
  | [] => None
  | (k', v) :: d' => if String.eqb k k' then Some v else assoc k d'
  end.

(** [v[k]] for a string key. *)
Definition getitem (v : pyval) (k : string) : result pyval :=
  match v with
  | PDict d => match assoc k d with
               | Some x => Ok x
               | None => Raise KeyError
               end
  | _ => Raise TypeError
  end.

(** [if v:] *)
Definition truthy (v : pyval) : bool :=
  match v with
  | PNone => false
  | PStr s => negb (String.eqb s "")
  | PList l => negb (Nat.eqb (List.length l) 0)
  | PDict d => negb (Nat.eqb (List.length d) 0)
  end.

(** [for x in v]: a list yields its items, a dictionary its keys, a
    string its characters. *)
Definition py_iter (v : pyval) : result (list pyval) :=
  match v with
  | PList l => Ok l
  | PDict d => Ok (map (fun kv => PStr (fst kv)) d)
  | PStr s => Ok (map (fun c => PStr (String c "")) (list_ascii_of_string s))
  | PNone => Raise TypeError
  end.

(** [s.split(sep)] for a non-empty separator: [skip] counts the
    characters of a separator just found that are still to be passed
    over, [cur] is the piece being read. *)
Fixpoint split_from (sep s : string) (skip : nat) (cur : string) : list string :=
  match s with
  | EmptyString => [cur]
  | String c s' =>
      match skip with
      | S k => split_from sep s' k cur
      | O => if String.prefix sep s
             then cur :: split_from sep s' (String.length sep - 1) ""
             else split_from sep s' 0 (String.append cur (String c ""))
      end
  end.

Definition py_split (sep s : string) : list string := split_from sep s 0 "".

(** [v.split(sep)[i]]: only strings have [split]. *)
Definition split_index (v : pyval) (sep : string) (i : nat) : result string :=
  match v with
  | PStr s => match nth_error (py_split sep s) i with
              | Some piece => Ok piece
              | None => Raise IndexError
              end
  | _ => Raise AttributeError
  end.

Fixpoint map_result {A B} (f : A -> result B) (l : list A) : result (list B) :=
  match l with
  | [] => Ok []
  | a :: l' => rbind (f a) (fun b => rbind (map_result f l') (fun bs => Ok (b :: bs)))
  end.

(** [needle in haystack] for strings. *)
Fixpoint contains (needle haystack : string) : bool :=
  String.prefix needle haystack ||
  match haystack with
  | EmptyString => false
  | String _ h' => contains needle h'
  end.

(** [s[:n]] and [s[n:]]. *)
Fixpoint take (n : nat) (s : string) : string :=
  match n, s with
  | S n', String c s' => String c (take n' s')
  | _, _ => EmptyString
  end.

Fixpoint drop (n : nat) (s : string) : string :=
  match n, s with
  | S n', String _ s' => drop n' s'
  | _, _ => s
  end.

(** [str(i)] for an int. *)
Definition str_int (i : Z) : string := NilZero.string_of_int (Z.to_int i).

(* ================================================================= *)
(** ** The connection classes of Lumentum *)

(** [Lumentum.WSSConnection]: ten attributes, whatever objects the caller
    passes. *)
Record WSSConnection : Type := {
  module : pyval;
  connection_id : pyval;
  operation : pyval;
  blocked : pyval;
  input_port : pyval;
  output_port : pyval;
  start_freq : pyval;
  end_freq : pyval;
  attenuation : pyval;
  name : pyval
}.

(** [Lumentum.WSSConnectionStatus], the subclass: a connection and what
    the device reports on it. *)
Record WSSConnectionStatus : Type := {
  connection : WSSConnection;
  input_power : pyval;
  output_power : pyval;
  ne : pyval;
  chassis : pyval;
  card : pyval
}.

(** The NETCONF requests of the client, by kind and parameters; their XML
    text is fixed by these. *)
Inductive rpc_request : Type :=
| Remove_all_connections (module_id : string)
| Delete_connection (module_id connection_id : string)
| Edit_config (connections : list WSSConnection)
| Get_connections.

(* ================================================================= *)
(** ** Effects *)

(** What the program does to the outside world.  Durations are in
    milliseconds ([time.sleep(0.01)] is [Sleep 10]).  Of the calls of
    [print], those that report a caught exception or a success are kept;
    progress messages are left out. *)
Inductive event : Type :=
| SerialWrite (frame : list Z)
| Sleep (ms : Z)
| TelnetOpen
| TelnetWrite (line : string)
| TelnetRead
| TelnetShutdown
| TelnetReadAll
| TelnetClose
| Rpc (request : rpc_request)
| Scope (call : string)
| Print (text : string)
| PrintExn (e : pyexn)
| RawInput (prompt : string).

Definition io (A : Type) : Type := (list event * result A)%type.

Definition ret {A} (a : A) : io A := ([], Ok a).
Definition emit (e : event) : io unit := ([e], Ok tt).
Definition raise {A} (e : pyexn) : io A := ([], Raise e).
Definition lift {A} (r : result A) : io A := ([], r).

Definition bind {A B} (m : io A) (f : A -> io B) : io B :=
  match m with
  | (t, Ok a) => let (t', r) := f a in (t ++ t', r)
  | (t, Raise e) => (t, Raise e)
  end.

Declare Scope io_scope.
Delimit Scope io_scope with io.
Notation "x <- m ;; k" := (bind m (fun x => k))
  (at level 61, m at next level, right associativity) : io_scope.
Notation "m ;; k" := (bind m (fun _ => k))
  (at level 61, right associativity) : io_scope.

Definition trace {A} (m : io A) : list event := fst m.
Definition outcome {A} (m : io A) : result A := snd m.

(** The frames a trace sends to the serial port, in order. *)
Fixpoint serial_writes (t : list event) : list (list Z) :=
  match t with
  | [] => []
  | SerialWrite f :: t' => f :: serial_writes t'
  | _ :: t' => serial_writes t'
  end.

(* ================================================================= *)
(** ** Python floats: IEEE 754 binary64 *)

Definition prec : Z := 53.
Definition emax : Z := 1024.

Definition float64 : Type := spec_float.

Definition fadd : float64 -> float64 -> float64 := SFadd prec emax.
Definition fsub : float64 -> float64 -> float64 := SFsub prec emax.
Definition fmul : float64 -> float64 -> float64 := SFmul prec emax.
Definition fdiv : float64 -> float64 -> float64 := SFdiv prec emax.
(** [flt x y] is Python's [x < y]; a comparison with a NaN is [False]. *)
Definition flt : float64 -> float64 -> bool := SFltb.
Definition fle : float64 -> float64 -> bool := SFleb.

(** [float(z)] for a Python int. *)
Definition float_of_Z (z : Z) : float64 := binary_normalize prec emax z 0 false.

(** The binary64 value nearest to the fraction [±a/b]: the division of
    [SpecFloat], which rounds the exact quotient of the two integers. *)
Definition nearest_ratio (s : bool) (a b : positive) : float64 :=
  fdiv (S754_finite s a 0) (S754_finite false b 0).

(** A decimal literal [n / 10^k] of the source text, such as [13.5]. *)
Definition float_literal (n : Z) (k : nat) : float64 :=
  match n with
  | Z0 => S754_zero false
  | Zpos a => nearest_ratio false a (Z.to_pos (10 ^ Z.of_nat k))
  | Zneg a => nearest_ratio true a (Z.to_pos (10 ^ Z.of_nat k))
  end.

(** [int(x)] for a float: truncation towards zero. *)
Definition py_int (x : float64) : result Z :=
  match x with
  | S754_zero _ => Ok 0
  | S754_finite s m e =>
      let mag := match e with
                 | Zneg p => Z.pos m / 2 ^ Z.pos p
                 | _ => Z.pos m * 2 ^ e
                 end in
      Ok (if s then - mag else mag)
  | S754_infinity _ => Raise OverflowError
  | S754_nan => Raise ValueError
  end.

(** [int(math.floor(x))]. *)
Definition py_floor (x : float64) : result Z :=
  match x with
  | S754_zero _ => Ok 0
  | S754_finite s m e =>
      let sm := if s then Z.neg m else Z.pos m in
      Ok (match e with
          | Zneg p => sm / 2 ^ Z.pos p
          | _ => sm * 2 ^ e
          end)
  | S754_infinity _ => Raise OverflowError
  | S754_nan => Raise ValueError
  end.

(** [round(x, nd)] of Python 2.7 for [nd > 0]: the decimal with [nd] places
    nearest to the exact value of [x], halves away from zero, converted
    back to the nearest binary64.  NaNs, infinities, zeros and floats that
    are integers round to themselves. *)
Definition py_round (x : float64) (nd : positive) : float64 :=
  match x with
  | S754_finite s m (Zneg p) =>
      let num := 2 * (Z.pos m * 10 ^ Z.pos nd) + 2 ^ Z.pos p in
      match num / 2 ^ (Z.pos p + 1) with
      | Zpos n => nearest_ratio s n (Pos.pow 10 nd)
      | _ => S754_zero s
      end
  | _ => x
  end.

(** [str(x)] of Python 2.7 for a float: twelve significant digits,
    correctly rounded (halves to even), trailing zeros dropped; exponent
    notation when the decimal point falls more than four places left of the
    digits or more than eleven places right of their start (one place fewer
    than the twelve of [%.12g], since [str] asks for the [.0]), and [.0]
    after a whole number otherwise. *)
Definition div_half_even (a b : Z) : Z :=
  let q := a / b in
  let r := a mod b in
  match 2 * r ?= b with
  | Lt => q
  | Gt => q + 1
  | Eq => if Z.even q then q else q + 1
  end.

(** For [0 < num / den < 1], the zeros between the decimal point and the
    first digit that is not zero. *)
Fixpoint leading_zeros (fuel : nat) (num den : Z) : Z :=
  match fuel with
  | O => 0
  | S fuel' =>
      if den <=? 10 * num then 0
      else 1 + leading_zeros fuel' (10 * num) den
  end.

(** The position [decpt] of the decimal point:
    [10 ^ (decpt - 1) <= num / den < 10 ^ decpt]. *)
Definition decimal_point (num den : Z) : Z :=
  if den <=? num then Z.of_nat (String.length (str_int (num / den)))
  else - leading_zeros 400 num den.

Definition significant_12 (num den : Z) : Z * Z :=
  let decpt := decimal_point num den in
  let shift := 12 - decpt in
  let d := if 0 <=? shift then div_half_even (num * 10 ^ shift) den
           else div_half_even num (den * 10 ^ (- shift)) in
  if d =? 10 ^ 12 then (10 ^ 11, decpt + 1) else (d, decpt).

Fixpoint strip_zeros (rev_digits : list ascii) : list ascii :=
  match rev_digits with
  | "0"%char :: rest => strip_zeros rest
  | _ => rev_digits
  end.

Definition strip_trailing_zeros (digits : string) : string :=
  string_of_list_ascii (rev (strip_zeros (rev (list_ascii_of_string digits)))).

Fixpoint zeros (n : nat) : string :=
  match n with
  | O => ""
  | S n' => String "0" (zeros n')
  end.

Definition format_g (digits : string) (decpt : Z) : string :=
  let n := Z.of_nat (String.length digits) in
  if (decpt <=? -4) || (11 <? decpt) then
    let e := decpt - 1 in
    let mantissa := match digits with
                    | String c (String c' rest) => String c (String "." (String c' rest))
                    | _ => digits
                    end in
    String.append mantissa
      (String.append (if e <? 0 then "e-" else "e+")
         (String.append (if Z.abs e <? 10 then "0" else "") (str_int (Z.abs e))))
  else if decpt <=? 0 then
    String.append "0." (String.append (zeros (Z.to_nat (- decpt))) digits)
  else if n <=? decpt then
    String.append digits (String.append (zeros (Z.to_nat (decpt - n))) ".0")
  else
    String.append (take (Z.to_nat decpt) digits)
      (String.append "." (drop (Z.to_nat decpt) digits)).

Definition py_str_float (x : float64) : string :=
  match x with
  | S754_nan => "nan"
  | S754_infinity s => if s then "-inf" else "inf"
  | S754_zero s => if s then "-0.0" else "0.0"
  | S754_finite s m e =>
      let '(num, den) := match e with
                         | Zneg p => (Z.pos m, 2 ^ Z.pos p)
                         | _ => (Z.pos m * 2 ^ e, 1)
                         end in
      let '(d, decpt) := significant_12 num den in
      String.append (if s then "-" else "")
        (format_g (strip_trailing_zeros (str_int d)) decpt)
  end.

(** Whether two floats are the same value, bit for bit. *)
Definition float_same (x y : float64) : bool :=
  match x, y with
  | S754_zero a, S754_zero b => Bool.eqb a b
  | S754_infinity a, S754_infinity b => Bool.eqb a b
  | S754_nan, S754_nan => true
  | S754_finite a m e, S754_finite b m' e' =>
      Bool.eqb a b && Pos.eqb m m' && Z.eqb e e'
  | _, _ => false
  end.

(* ================================================================= *)
(** ** struct and bytearray *)

(** [struct.pack(">h", v)] followed by [ord] of each of the two
    characters: the big-endian two's complement bytes of a signed 16-bit
    integer, or [struct.error] outside its range. *)
Definition data_hi (v : Z) : Z := Z.land (Z.shiftr v 8) 255.
Definition data_lo (v : Z) : Z := Z.land v 255.

Definition pack_h (v : Z) : result (Z * Z) :=
  if (v <? -32768) || (32767 <? v) then Raise StructError
  else Ok (data_hi v, data_lo v).

(** [bytearray([..])] and item assignment accept only 0..255. *)
Definition bytearray (l : list Z) : result (list Z) :=
  if forallb (fun b => (0 <=? b) && (b <? 256)) l then Ok l
  else Raise ValueError.

(** The signed 16-bit integer two bytes stand for, most significant byte
    first: what [struct.unpack(">h", ..)] makes of them. *)
Definition unpack_h (hi lo : Z) : Z :=
  let u := hi * 256 + lo in
  if u <? 32768 then u else u - 65536.

(* ================================================================= *)
(** ** class ITLA *)

Module ITLA.

Definition cal_checksum (data0 data1 data2 data3 : Z) : Z :=
  let bip8 := Z.lxor (Z.lxor (Z.lxor (Z.land data0 15) data1) data2) data3 in
  let bip4 := Z.lxor (Z.shiftr (Z.land bip8 240) 4) (Z.land bip8 15) in
  bip4.

Definition laser_off : io unit :=
  (cmd <- lift (bytearray [1; 50; 0; 0]) ;;
   emit (SerialWrite cmd))%io.

Definition laser_on : io unit :=
  (cmd <- lift (bytearray [129; 50; 0; 8]) ;;
   emit (SerialWrite cmd))%io.

(** The part the three setters share, written out in each of them in the
    source: the checksum is computed with the write bit in [data0] and
    folded into its high nibble. *)
Definition build_cmd (register : Z) (B : Z * Z) : result (list Z) :=
  let '(data0, data1, data2, data3) := (1, register, fst B, snd B) in
  let bip4 := cal_checksum data0 data1 data2 data3 in
  let data0 := Z.lxor data0 (Z.shiftl bip4 4) in
  bytearray [data0; data1; data2; data3].

Definition set_first_channel_frequency (freq : float64) : io unit :=
  (FCF1 <- lift (py_floor freq) ;;
   B <- lift (pack_h FCF1) ;;
   cmd1 <- lift (build_cmd 53 B) ;;
   FCF2 <- lift (py_int (fmul (py_round (fsub freq (float_of_Z FCF1)) 3)
                              (float_of_Z 10000))) ;;
   B <- lift (pack_h FCF2) ;;
   cmd2 <- lift (build_cmd 54 B) ;;
   emit (SerialWrite cmd1) ;;
   emit (Sleep 10) ;;
   emit (SerialWrite cmd2))%io.

Definition set_power (value : float64) : io unit :=
  if flt value (float_of_Z 6) || flt (float_literal 135 1) value then
    raise PowerLimitError
  else
    (set_value <- lift (py_int (fmul (py_round value 2) (float_of_Z 100))) ;;
     B <- lift (pack_h set_value) ;;
     cmd <- lift (build_cmd 49 B) ;;
     emit (SerialWrite cmd))%io.

Definition set_channel (num : Z) : io unit :=
  (B <- lift (pack_h num) ;;
   cmd <- lift (build_cmd 48 B) ;;
   emit (SerialWrite cmd))%io.

End ITLA.

(** [channel_freq(ch)] of the script: [191.30 + ch * 0.05]. *)
Definition channel_freq (ch : Z) : float64 :=
  fadd (float_literal 19130 2) (fmul (float_of_Z ch) (float_literal 5 2)).

(** The checksum rule of the frame format (docstring of [ITLA]: byte 1 is
    the 4-bit checksum, three zero bits and the read/write bit): the high
    nibble of the first byte is the BIP-4 of the low nibble of that byte
    and the three bytes that follow. *)
Definition high_nibble (b : Z) : Z := Z.shiftr (Z.land b 240) 4.

Definition checksum_conformant (frame : list Z) : bool :=
  match frame with
  | [b0; b1; b2; b3] =>
      let bip8 := Z.lxor (Z.lxor (Z.lxor (Z.land b0 15) b1) b2) b3 in
      let bip4 := Z.lxor (Z.shiftr (Z.land bip8 240) 4) (Z.land bip8 15) in
      high_nibble b0 =? bip4
  | _ => false
  end.

(** The calls of the driver that write to the serial session. *)
Inductive itla_call : Type :=
| Laser_off
| Laser_on
| Set_first_channel_frequency (freq : float64)
| Set_power (value : float64)
| Set_channel (num : Z).

Definition itla_run (c : itla_call) : io unit :=
  match c with
  | Laser_off => ITLA.laser_off
  | Laser_on => ITLA.laser_on
  | Set_first_channel_frequency freq => ITLA.set_first_channel_frequency freq
  | Set_power value => ITLA.set_power value
  | Set_channel num => ITLA.set_channel num
  end.

(** The binary64 values from 6.0 to 13.5, by their mantissa and exponent:
    those of [6, 8) have exponent -50, those of [8, 13.5] exponent -49. *)
Definition between_6_and_13_5 (v : float64) : Prop :=
  exists m : positive,
    (v = S754_finite false m (-50) /\ 6755399441055744 <= Z.pos m < 2 ^ 53) \/
    (v = S754_finite false m (-49) /\ 2 ^ 52 <= Z.pos m <= 7599824371187712).

(** The exact value of a finite float, as a rational. *)
Definition exact_Q (x : float64) : Q :=
  match x with
  | S754_finite s m e =>
      (inject_Z (if s then Z.neg m else Z.pos m) * Qpower (2 # 1) e)%Q
  | _ => 0%Q
  end.

(** The frame a setter writes for [register] and the 16-bit integer [v]. *)
Definition write_frame (register v : Z) : list Z :=
  [1 + 16 * ITLA.cal_checksum 1 register (data_hi v) (data_lo v);
   register; data_hi v; data_lo v].

(** [-32768 <= v <= 32767], the range of [struct.pack(">h", v)]. *)
Definition fits_int16 (v : Z) : Prop := -32768 <= v <= 32767.

(** What a line fault does to a frame: bit [k] of byte [j] is inverted. *)
Fixpoint flip_bit (frame : list Z) (j : nat) (k : Z) : list Z :=
  match frame, j with
  | [], _ => []
  | b :: rest, O => Z.lxor b (2 ^ k) :: rest
  | b :: rest, S j' => b :: flip_bit rest j' k
  end.

(** The difference between the checksum nibble a frame carries and the
    one computed over it: zero for a conformant frame. *)
Definition syndrome (b0 b1 b2 b3 : Z) : Z :=
  Z.lxor (high_nibble b0) (ITLA.cal_checksum b0 b1 b2 b3).

(* ================================================================= *)
(** ** calculate_predicted_channel_power_from_peak_voltage *)

(** [math.log10] and [**] are not fixed bit for bit by IEEE 754 or by
    Python, so the prediction formula is embedded over the real numbers:
    the arguments are reals, [existing_channel_num] a count.  What the
    embedding keeps of Python is where the function raises: the guard of
    [linear_to_db] and the division by zero. *)
Module Prediction.

Local Open Scope R_scope.

Definition log10 (x : R) : R := ln x / ln 10.

(** [a / b] on floats raises when [b] is zero. *)
Definition py_div (a b : R) : result R :=
  if Req_EM_T b 0 then Raise ZeroDivisionError else Ok (a / b).

Definition linear_to_db (linear_power_value : R) : result R :=
  if Rle_dec linear_power_value 0 then Raise ValueError
  else Ok (10 * log10 linear_power_value).

Definition db_to_linear (dbm_power_value : R) : R :=
  Rpower 10 (dbm_power_value / 10).

Definition calculate_predicted_channel_power_from_peak_voltage
    (peak_voltage single_channel_probed_power target_gain pd_response : R)
    (existing_channel_num : nat) : result R :=
  rbind (py_div peak_voltage pd_response) (fun ratio =>
  rbind (linear_to_db ratio) (fun peak_power_dbm =>
  let single_channel_peak_power_dbm := single_channel_probed_power in
  let ripple := peak_power_dbm - single_channel_peak_power_dbm in
  let edfa_gain_linear := db_to_linear (target_gain + ripple) in
  let target_gain_linear := db_to_linear target_gain in
  rbind (py_div (edfa_gain_linear + target_gain_linear * INR existing_channel_num)
                (INR existing_channel_num + 1)) (fun mean_gain_linear =>
  rbind (linear_to_db mean_gain_linear) (fun mean_gain_db =>
  let excursion := target_gain - mean_gain_db in
  let predicted_channel_power := excursion + peak_power_dbm in
  Ok predicted_channel_power)))).

End Prediction.

(* ================================================================= *)
(** ** class Lumentum *)

(** [gen_dwdm_connections] is written once over the arithmetic it uses and
    the [str] of its numbers.  The program runs it on binary64 with
    [py_str_float]; the rationals give the grid it approximates. *)
Class PyNumber (T : Type) : Type := {
  num_add : T -> T -> T;
  num_sub : T -> T -> T;
  num_mul : T -> T -> T;
  num_div : T -> T -> T;
  num_of_Z : Z -> T
}.

#[export] Instance PyNumber_float64 : PyNumber float64 := {
  num_add := fadd;
  num_sub := fsub;
  num_mul := fmul;
  num_div := fdiv;
  num_of_Z := float_of_Z
}.

(** Exact arithmetic: the rationals in lowest terms. *)
#[export] Instance PyNumber_Qc : PyNumber Qc := {
  num_add := Qcplus;
  num_sub := Qcminus;
  num_mul := Qcmult;
  num_div := Qcdiv;
  num_of_Z := fun z => Q2Qc (inject_Z z)
}.

Module Lumentum.

Definition LUMENTUM_PORT : string := "830".
Definition MUX : string := "1".
Definition DEMUX : string := "2".
Definition INSERVICE : string := "in-service".
Definition DEFAULT_WSS_LOSS : string := "4.0".
Definition ZERO_WSS_LOSS : string := "0.0".

(** One item of the comprehension of [from_connection_details]; the
    fifteen arguments are evaluated from left to right. *)
Definition status_of_detail (connection_detail : pyval) : result WSSConnectionStatus :=
  let dn_part (i : nat) : result pyval :=
    rbind (getitem connection_detail "dn") (fun dn =>
    rbind (split_index dn ";" i) (fun part =>
    rbind (split_index (PStr part) "=" 1) (fun v => Ok (PStr v)))) in
  let config (k : string) : result pyval :=
    rbind (getitem connection_detail "config") (fun c => getitem c k) in
  let port_ref (k : string) : result pyval :=
    rbind (config k) (fun r =>
    rbind (split_index r "port=" 1) (fun v => Ok (PStr v))) in
  let power (k : string) : result pyval :=
    rbind (getitem connection_detail "state") (fun st =>
    rbind (getitem st k) (fun a => getitem a "power")) in
  rbind (dn_part 3%nat) (fun a_module =>
  rbind (dn_part 4%nat) (fun a_connection_id =>
  rbind (config "maintenance-state") (fun a_operation =>
  rbind (config "blocked") (fun a_blocked =>
  rbind (port_ref "input-port-reference") (fun a_input_port =>
  rbind (port_ref "output-port-reference") (fun a_output_port =>
  rbind (config "start-freq") (fun a_start_freq =>
  rbind (config "end-freq") (fun a_end_freq =>
  rbind (config "attenuation") (fun a_attenuation =>
  rbind (config "custom-name") (fun a_name =>
  rbind (power "input-channel-attributes") (fun a_input_power =>
  rbind (power "output-channel-attributes") (fun a_output_power =>
  rbind (dn_part 0%nat) (fun a_ne =>
  rbind (dn_part 1%nat) (fun a_chassis =>
  rbind (dn_part 2%nat) (fun a_card =>
  Ok {| connection := {| module := a_module;
                         connection_id := a_connection_id;
                         operation := a_operation;
                         blocked := a_blocked;
                         input_port := a_input_port;
                         output_port := a_output_port;
                         start_freq := a_start_freq;
                         end_freq := a_end_freq;
                         attenuation := a_attenuation;
                         name := a_name |};
        input_power := a_input_power;
        output_power := a_output_power;
        ne := a_ne;
        chassis := a_chassis;
        card := a_card |}))))))))))))))).

Definition from_connection_details (connection_details : pyval)
  : result (list WSSConnectionStatus) :=
  rbind (getitem connection_details "data") (fun data =>
  rbind (getitem data "connections") (fun connections =>
  rbind (getitem connections "connection") (fun details =>
  rbind (py_iter details) (fun items =>
  map_result status_of_detail (filter truthy items))))).

(** The three methods below take the outcome of their [try] block as an
    argument: what the RPC returned (for [get], parsed by [xmltodict]), or
    the [Exception] it raised. *)

Definition wss_delete_connection (module_id connection_id : string)
    (reply : result string) : io unit :=
  (emit (Rpc (if String.eqb connection_id "all"
              then Remove_all_connections module_id
              else Delete_connection module_id connection_id)) ;;
   match reply with
   | Ok reply =>
       if contains "<ok/>" reply
       then emit (Print "Successfully Deleted Connection")
       else ret tt
   | Raise e =>
       emit (Print "Encountered the following RPC error!") ;;
       emit (PrintExn e)
   end)%io.

Definition wss_add_connections (connections : list WSSConnection)
    (reply : result string) : io unit :=
  (emit (Rpc (Edit_config connections)) ;;
   match reply with
   | Ok reply =>
       if contains "<ok/>" reply
       then emit (Print "Successfully Added Connections")
       else ret tt
   | Raise e =>
       emit (Print "Encountered the following RPC error!") ;;
       emit (PrintExn e)
   end)%io.

(** After a caught exception [connection_details] was never assigned, and
    the call that follows the [try] statement reads it. *)
Definition wss_get_connections (reply : result pyval)
  : io (list WSSConnectionStatus) :=
  (emit (Rpc Get_connections) ;;
   connection_details <-
     match reply with
     | Ok connection_details => ret (Some connection_details)
     | Raise e =>
         emit (Print "Encountered the following RPC error!") ;;
         emit (PrintExn e) ;;
         ret None
     end ;;
   match connection_details with
   | Some connection_details => lift (from_connection_details connection_details)
   | None => raise UnboundLocalError
   end)%io.

Section Grid.

Context {T : Type} `{PyNumber T}.

(** [str(x)] for a frequency. *)
Variable str_num : T -> string.

Definition gen_dwdm_connections (module input_port output_port : pyval)
    (channel_spacing channel_width : T) (loss : pyval) : list WSSConnection :=
  let half_channel_width := num_div channel_width (num_of_Z 2) in
  let start_center_frequency := num_of_Z 191350 in
  map (fun i : nat =>
         let center_frequency :=
           num_add start_center_frequency
                   (num_mul (num_of_Z (Z.of_nat i)) channel_spacing) in
         {| module := module;
            connection_id := PStr (str_int (Z.of_nat i + 1));
            operation := PStr INSERVICE;
            blocked := PStr "false";
            input_port := input_port;
            output_port := output_port;
            start_freq := PStr (str_num (num_sub center_frequency half_channel_width));
            end_freq := PStr (str_num (num_add center_frequency half_channel_width));
            attenuation := loss;
            name := PStr (String.append "CH" (str_int (Z.of_nat i + 1))) |})
      (seq 0 96).

End Grid.

End Lumentum.

(** The passband of channel [i], for the statements on the grid: the
    centre frequency [191350 + i * spacing] and the two edges, half a
    width below and above it. *)
Section Passband.

Context {T : Type} `{PyNumber T}.
Variables channel_spacing channel_width : T.

Definition center_frequency (i : nat) : T :=
  num_add (num_of_Z 191350) (num_mul (num_of_Z (Z.of_nat i)) channel_spacing).
Definition passband_start (i : nat) : T :=
  num_sub (center_frequency i) (num_div channel_width (num_of_Z 2)).
Definition passband_end (i : nat) : T :=
  num_add (center_frequency i) (num_div channel_width (num_of_Z 2)).

End Passband.

(** A spacing of [k] quarters of a GHz, as a float. *)
Definition quarter_GHz (k : Z) : float64 := fdiv (float_of_Z k) (float_of_Z 4).

(** A spacing of [k] tenths of a GHz, as the literal [k / 10] of a source
    text gives it. *)
Definition tenth_GHz (k : Z) : float64 := float_literal k 1.

(** [div_half_even a (2 ^ p)], with a shift and a mask for the division. *)
Definition div_half_even_pow2 (a : Z) (p : positive) : Z :=
  let q := Z.shiftr a (Z.pos p) in
  let r := Z.land a (Z.ones (Z.pos p)) in
  match 2 * r ?= 2 ^ Z.pos p with
  | Lt => q
  | Gt => q + 1
  | Eq => if Z.even q then q else q + 1
  end.

(** The sign, the twelve digits and the position of the decimal point that
    [py_str_float] prints of a float [m / 2 ^ p] that is at least one and
    below [10 ^ 12]: what [significant_12] gives, with shifts for its
    divisions by the power of two. *)
Definition printed_digits (x : float64) : option (bool * Z * Z) :=
  match x with
  | S754_finite s m (Zneg p) =>
      let q := Z.shiftr (Z.pos m) (Z.pos p) in
      let decpt := Z.of_nat (String.length (str_int q)) in
      if (0 <? q) && (decpt <=? 12) then
        let d := div_half_even_pow2 (Z.pos m * 10 ^ (12 - decpt)) p in
        if d =? 10 ^ 12 then None else Some (s, d, decpt)
      else None
  | _ => None
  end.

Definition same_digits (a b : bool * Z * Z) : bool :=
  let '(s, d, decpt) := a in
  let '(s', d', decpt') := b in
  Bool.eqb s s' && (d =? d') && (decpt =? decpt').

(** Whether, along a list of centre frequencies, the upper edge of every
    passband is printed as the lower edge of the next one. *)
Fixpoint edges_meet (half : float64) (centers : list float64) : bool :=
  match centers with
  | c :: (c' :: _) as rest =>
      match printed_digits (fadd c half), printed_digits (fsub c' half) with
      | Some a, Some b => same_digits a b && edges_meet half rest
      | _, _ => false
      end
  | _ => true
  end.

Definition grid_meets (spacing : float64) : bool :=
  edges_meet (fdiv spacing (float_of_Z 2))
             (map (fun i : nat => center_frequency spacing i) (seq 0 96)).

(** [CHANNEL_HALF_WIDTH], in GHz. *)
Definition CHANNEL_HALF_WIDTH : Z := 25.

(** The connection the script builds for one channel:
    [Lumentum.WSSConnection(module, str(channel), INSERVICE, 'false',
    input_port, output_port,
    str(channel_freq(channel) * 1000 - CHANNEL_HALF_WIDTH),
    str(channel_freq(channel) * 1000 + CHANNEL_HALF_WIDTH),
    loss, 'CH' + str(channel))]. *)
Definition channel_connection (module_id : string) (channel : Z)
    (in_port out_port loss : string) : WSSConnection :=
  {| module := PStr module_id;
     connection_id := PStr (str_int channel);
     operation := PStr Lumentum.INSERVICE;
     blocked := PStr "false";
     input_port := PStr in_port;
     output_port := PStr out_port;
     start_freq :=
       PStr (py_str_float (fsub (fmul (channel_freq channel) (float_of_Z 1000))
                                (float_of_Z CHANNEL_HALF_WIDTH)));
     end_freq :=
       PStr (py_str_float (fadd (fmul (channel_freq channel) (float_of_Z 1000))
                                (float_of_Z CHANNEL_HALF_WIDTH)));
     attenuation := PStr loss;
     name := PStr (String.append "CH" (str_int channel)) |}.

(** The fields [from_connection_details] reads from a connection
    record, as paths of keys. *)
Definition required_fields : list (list string) :=
  [ ["dn"];
    ["config"; "maintenance-state"];
    ["config"; "blocked"];
    ["config"; "input-port-reference"];
    ["config"; "output-port-reference"];
    ["config"; "start-freq"];
    ["config"; "end-freq"];
    ["config"; "attenuation"];
    ["config"; "custom-name"];
    ["state"; "input-channel-attributes"; "power"];
    ["state"; "output-channel-attributes"; "power"] ].

(** The value a record holds at a path of keys, if it has one. *)
Fixpoint lookup_path (v : pyval) (path : list string) : option pyval :=
  match path with
  | [] => Some v
  | k :: path' =>
      match v with
      | PDict d => match assoc k d with
                   | Some x => lookup_path x path'
                   | None => None
                   end
      | _ => None
      end
  end.

(** The records of a parsed reply: the items of
    [doc['data']['connections']['connection']] that are not empty. *)
Definition reply_records (doc : pyval) : result (list pyval) :=
  rbind (getitem doc "data") (fun data =>
  rbind (getitem data "connections") (fun connections =>
  rbind (getitem connections "connection") (fun details =>
  rbind (py_iter details) (fun items => Ok (filter truthy items))))).

(** The texts [gen_connection_xml] writes into [<dn>] and into the two
    port references of a connection. *)
Definition connection_dn (module_id connection_id : string) : string :=
  String.append "ne=1;chassis=1;card=1;module="
    (String.append module_id (String.append ";connection=" connection_id)).

Definition port_reference (port : string) : string :=
  String.append "ne=1;chassis=1;card=1;port=" port.

(** A connection element as [xmltodict] hands it over when the device
    returns the configuration [gen_connection_xml] wrote, with the state
    it reports: the elements of the template, in its order, and the two
    powers [from_connection_details] reads. *)
Definition connection_record
    (module_id connection_id operation blocked start_freq end_freq attenuation
     input_port output_port name input_power output_power : string) : pyval :=
  PDict [("dn", PStr (connection_dn module_id connection_id));
         ("config",
          PDict [("maintenance-state", PStr operation);
                 ("blocked", PStr blocked);
                 ("start-freq", PStr start_freq);
                 ("end-freq", PStr end_freq);
                 ("attenuation", PStr attenuation);
                 ("input-port-reference", PStr (port_reference input_port));
                 ("output-port-reference", PStr (port_reference output_port));
                 ("custom-name", PStr name)]);
         ("state",
          PDict [("input-channel-attributes", PDict [("power", PStr input_power)]);
                 ("output-channel-attributes", PDict [("power", PStr output_power)])])].

(** A parsed reply around what it holds under [connection]. *)
Definition reply_document (entry : pyval) : pyval :=
  PDict [("data", PDict [("connections", PDict [("connection", entry)])])].

(* ================================================================= *)
(** ** Regular expressions *)

(** The fragment of Python's [re] the three patterns of [get_crs_power]
    are written in: a character class, concatenation, a greedy [?] and a
    greedy [+] on a class. *)
Inductive regex : Type :=
| Class (p : ascii -> bool)
| Seq (r1 r2 : regex)
| Maybe (r : regex)
| Many1 (p : ascii -> bool).

(** The suffixes left after taking one or more characters of class [p]
    off the front of [s], longest match first. *)
Fixpoint many1_ends (p : ascii -> bool) (s : string) : list string :=
  match s with
  | EmptyString => []
  | String c s' => if p c then many1_ends p s' ++ [s'] else []
  end.

(** The suffixes [r] can leave when matched at the front of [s], in the
    order in which a backtracking matcher tries them. *)
Fixpoint ends (r : regex) (s : string) : list string :=
  match r with
  | Class p =>
      match s with
      | String c s' => if p c then [s'] else []
      | EmptyString => []
      end
  | Seq r1 r2 => flat_map (ends r2) (ends r1 s)
  | Maybe r1 => ends r1 s ++ [s]
  | Many1 p => many1_ends p s
  end.

(** [re.search(r, s)], then [.group(0)]: the first match at the leftmost
    position that has one. *)
Fixpoint search (r : regex) (s : string) : option string :=
  match ends r s with
  | rest :: _ => Some (take (String.length s - String.length rest) s)
  | [] =>
      match s with
      | EmptyString => None
      | String _ s' => search r s'
      end
  end.

Definition in_range (lo hi : ascii) (c : ascii) : bool :=
  (nat_of_ascii lo <=? nat_of_ascii c)%nat && (nat_of_ascii c <=? nat_of_ascii hi)%nat.
Definition just (a : ascii) (c : ascii) : bool := Ascii.eqb a c.
Definition either (a b : ascii) (c : ascii) : bool := Ascii.eqb a c || Ascii.eqb b c.
(** [.] matches any character but a newline. *)
Definition dot (c : ascii) : bool := negb (Ascii.eqb c (ascii_of_nat 10)).
(** [\d] *)
Definition digit : ascii -> bool := in_range "0" "9".

(** The pattern that matches exactly the string [s]. *)
Fixpoint literal (c : ascii) (s : string) : regex :=
  match s with
  | EmptyString => Class (just c)
  | String c' s' => Seq (Class (just c)) (literal c' s')
  end.

(** The strings a pattern matches in full. *)
Inductive matches : regex -> string -> Prop :=
| matches_class (p : ascii -> bool) (c : ascii) :
    p c = true -> matches (Class p) (String c "")
| matches_seq (r1 r2 : regex) (s1 s2 : string) :
    matches r1 s1 -> matches r2 s2 -> matches (Seq r1 r2) (String.append s1 s2)
| matches_maybe (r : regex) (s : string) :
    matches r s -> matches (Maybe r) s
| matches_maybe_not (r : regex) : matches (Maybe r) ""
| matches_many1_last (p : ascii -> bool) (c : ascii) :
    p c = true -> matches (Many1 p) (String c "")
| matches_many1_more (p : ascii -> bool) (c : ascii) (s : string) :
    p c = true -> matches (Many1 p) s -> matches (Many1 p) (String c s).

(** [tok] occurs in [text]. *)
Definition occurs (tok text : string) : Prop :=
  exists before after : string,
    text = String.append before (String.append tok after).

(** What a field of the result is to the text: a piece of it that matches
    the pattern, or nothing when no piece does. *)
Definition field_of (r : regex) (text : string) (field : option string) : Prop :=
  match field with
  | Some tok => matches r tok /\ occurs tok text
  | None => forall tok, occurs tok text -> ~ matches r tok
  end.

(** A field that is present is [tag] followed by a signed decimal. *)
Definition tagged_field (tag : string) (signed_float : regex)
    (field : option string) : Prop :=
  forall tok, field = Some tok ->
    exists number,
      tok = String.append tag number /\ matches signed_float number.

Definition optional {A} (o : option A) : list A :=
  match o with
  | Some a => [a]
  | None => []
  end.

(** Whether the first character of a text is of a class. *)
Definition starts_with (p : ascii -> bool) (s : string) : bool :=
  match s with
  | String c _ => p c
  | EmptyString => false
  end.

(* ================================================================= *)
(** ** Calient over telnet *)

Module Calient.

Definition AUTH : string := String.append "***;" (String (ascii_of_nat 10) "").

(** ['[1-9].[1-9].[1-9][>-][1-9].[1-9].[1-9]'] *)
Definition pattern1 : regex :=
  let d := Class (in_range "1" "9") in
  let port := Seq d (Seq (Class dot) (Seq d (Seq (Class dot) d))) in
  Seq port (Seq (Class (either ">" "-")) port).

(** ['[+-]?\d+(?:\.\d+)?'], the tail of [pattern2] and [pattern3]. *)
Definition signed_float : regex :=
  Seq (Maybe (Class (either "+" "-")))
      (Seq (Many1 digit)
           (Maybe (Seq (Class (just ".")) (Many1 digit)))).

(** ['INPWR=[+-]?\d+(?:\.\d+)?'] *)
Definition pattern2 : regex := Seq (literal "I" "NPWR=") signed_float.

(** ['OUTPWR=[+-]?\d+(?:\.\d+)?'] *)
Definition pattern3 : regex := Seq (literal "O" "UTPWR=") signed_float.

(** What [get_crs_power] makes of the text read from the switch. *)
Definition crs_power_fields (port_data : string) : list string :=
  let port := [] in
  let crs := search pattern1 port_data in
  let input_power := search pattern2 port_data in
  let output_power := search pattern3 port_data in
  let port := match crs with Some g => port ++ [g] | None => port end in
  let port := match input_power with Some g => port ++ [g] | None => port end in
  let port := match output_power with Some g => port ++ [g] | None => port end in
  port.

Definition line (command argument : string) : string :=
  String.append command
    (String.append argument (String.append ";" (String (ascii_of_nat 10) ""))).

(** [port_data] is what [read_very_eager] returns. *)
Definition get_crs_power (_port port_data : string) : io (list string) :=
  (emit (TelnetWrite (line "RTRV-PORT-SUM::" _port)) ;;
   emit (Sleep 500) ;;
   emit TelnetRead ;;
   ret (crs_power_fields port_data))%io.

Definition open_connection : io unit :=
  (emit TelnetOpen ;; emit (TelnetWrite AUTH))%io.

Definition close_connect : io unit :=
  (emit TelnetShutdown ;; emit TelnetReadAll ;; emit TelnetClose)%io.

Definition calient_get_power (port port_data : string) : io (list string) :=
  (open_connection ;;
   crs_power <- get_crs_power port port_data ;;
   close_connect ;;
   ret crs_power)%io.

Definition Add_CRS_Calient (crs : string) : io unit :=
  (emit TelnetOpen ;;
   emit (TelnetWrite AUTH) ;;
   emit (Sleep 200) ;;
   emit (TelnetWrite (line "ent-crs-bulk::" crs)) ;;
   emit (Sleep 200) ;;
   emit TelnetClose)%io.

Definition Del_CRS_Calient (crs : string) : io unit :=
  (emit TelnetOpen ;;
   emit (TelnetWrite AUTH) ;;
   emit (Sleep 200) ;;
   emit (TelnetWrite (line "dlt-crs-bulk::" crs)) ;;
   emit (Sleep 200) ;;
   emit TelnetClose)%io.

End Calient.

(** The two parts of [signed_float] after the sign: digits, and a point
    with digits. *)
Definition fraction : regex := Seq (Class (just ".")) (Many1 digit).

Definition unsigned : regex := Seq (Many1 digit) (Maybe fraction).

(* ================================================================= *)
(** ** The power checks of step 1 of the script *)

Definition TELEMETRY_TX_CONNECTION : string := "5.8.6>1.4.4".
Definition POWER_CHECK_PORT : string := "1.2.4".
Definition POWER_CHECK_PORT_TELEMETRY_TX : string := "5.8.6".

Definition LASER_PROMPT : string :=
  "Laser is not turned on properly. Please turn it on.Press ENTER to continue.".

(** [len(l)] *)
Definition len {A} (l : list A) : Z := Z.of_nat (List.length l).

(** [l[i]] *)
Definition index {A} (l : list A) (i : nat) : result A :=
  match nth_error l i with
  | Some x => Ok x
  | None => Raise IndexError
  end.

Section PowerChecks.

(** [responses k] is the text the switch returns to the [k]-th
    [RTRV-PORT-SUM] of a check, counted from 0. *)
Variable responses : nat -> string.

Definition poll (port : string) (k : nat) : io (list string) :=
  Calient.calient_get_power port (responses k).

(** The [while] loop of step 1.4, entered with the first reading and
    [power_reading_count = 1]; [k] counts the polls made so far.  A loop
    runs on fuel and returns [None] when it is used up; otherwise the
    polls made and the reading it leaves in [power_reading]. *)
Fixpoint tx_power_loop (fuel k : nat) (power_reading : list string)
    (power_reading_count : Z) : io (option (nat * list string)) :=
  if len power_reading <=? 1 then
    match fuel with
    | O => ret None
    | S fuel' =>
        (Calient.Del_CRS_Calient TELEMETRY_TX_CONNECTION ;;
         Calient.Add_CRS_Calient TELEMETRY_TX_CONNECTION ;;
         emit (Sleep 5000) ;;
         power_reading <- poll POWER_CHECK_PORT_TELEMETRY_TX k ;;
         let power_reading_count := power_reading_count + 1 in
         if power_reading_count =? 5 then
           emit (RawInput LASER_PROMPT) ;;
           power_reading <- poll POWER_CHECK_PORT_TELEMETRY_TX (S k) ;;
           ret (Some (S (S k), power_reading))
         else
           tx_power_loop fuel' (S k) power_reading power_reading_count)%io
    end
  else ret (Some (k, power_reading)).

(** Step 1.4 from the first poll to [power_reading[1]], the token that
    is then stripped of its prefix and converted by [float]. *)
Definition tx_power_check (fuel : nat) : io (option string) :=
  (power_reading <- poll POWER_CHECK_PORT_TELEMETRY_TX 0 ;;
   after <- tx_power_loop fuel 1 power_reading 1 ;;
   match after with
   | None => ret None
   | Some (_, power_reading) =>
       token <- lift (index power_reading 1) ;;
       ret (Some token)
   end)%io.

(** The [while] loop of step 1.5. *)
Fixpoint drop_power_loop (fuel k : nat) (power_reading : list string)
    (power_reading_count : Z) : io (option (nat * list string)) :=
  if len power_reading =? 1 then
    match fuel with
    | O => ret None
    | S fuel' =>
        (emit (Sleep 5000) ;;
         power_reading <- poll POWER_CHECK_PORT k ;;
         let power_reading_count := power_reading_count + 1 in
         if power_reading_count =? 10 then
           emit (RawInput LASER_PROMPT) ;;
           power_reading <- poll POWER_CHECK_PORT (S k) ;;
           ret (Some (S (S k), power_reading))
         else
           drop_power_loop fuel' (S k) power_reading power_reading_count)%io
    end
  else ret (Some (k, power_reading)).

(** Step 1.5 from its [time.sleep(5)] to [calient_get_power(..)[1]]: the
    reading the loop leaves is not used, the port is polled once more. *)
Definition drop_power_check (fuel : nat) : io (option string) :=
  (emit (Sleep 5000) ;;
   power_reading <- poll POWER_CHECK_PORT 0 ;;
   after <- drop_power_loop fuel 1 power_reading 1 ;;
   match after with
   | None => ret None
   | Some (k, _) =>
       again <- poll POWER_CHECK_PORT k ;;
       token <- lift (index again 1) ;;
       ret (Some token)
   end)%io.

End PowerChecks.

(** The events of one poll of a port, and of one turn of each loop. *)
Definition poll_events (port : string) : list event :=
  trace (Calient.calient_get_power port "").

Definition tx_cycle : list event :=
  trace (Calient.Del_CRS_Calient TELEMETRY_TX_CONNECTION) ++
  trace (Calient.Add_CRS_Calient TELEMETRY_TX_CONNECTION) ++
  [Sleep 5000] ++ poll_events POWER_CHECK_PORT_TELEMETRY_TX.

Definition drop_cycle : list event :=
  [Sleep 5000] ++ poll_events POWER_CHECK_PORT.

(** What a loop does when its attempt count reaches the cap: it asks the
    operator, polls once more and leaves. *)
Definition operator_exit (port : string) : list event :=
  RawInput LASER_PROMPT :: poll_events port.

(* ================================================================= *)
(** ** The power read from a reading, steps 1.4 and 1.5 *)

(** [c in chars] *)
Definition char_in (c : ascii) (chars : string) : bool :=
  existsb (Ascii.eqb c) (list_ascii_of_string chars).

(** [s.lstrip(chars)]: the leading characters that occur in [chars] are
    dropped. *)
Fixpoint py_lstrip (chars s : string) : string :=
  match s with
  | String c s' => if char_in c chars then py_lstrip chars s' else s
  | EmptyString => EmptyString
  end.

(** [float(s)] of Python 2.7 for a [str].  Blanks around the number are
    skipped; the number is a sign, digits with at most one point among
    them and at least one digit, and an exponent that counts only when it
    has a digit; or a sign and [inf], [infinity] or [nan] in any case.  The
    value is the binary64 nearest to the decimal, an infinity when it is
    too large; what does not read to its end as a number raises
    [ValueError].  (The C code caps an exponent of ten digits or more,
    which changes nothing for a text of fewer than a billion
    characters.) *)
Definition is_space (c : ascii) : bool :=
  let n := nat_of_ascii c in
  (n =? 32)%nat || ((9 <=? n)%nat && (n <=? 13)%nat).

Fixpoint skip_spaces (s : string) : string :=
  match s with
  | String c s' => if is_space c then skip_spaces s' else s
  | EmptyString => EmptyString
  end.

Definition digit_value (c : ascii) : Z := Z.of_nat (nat_of_ascii c) - 48.

(** The digits at the front of [s], read after [acc]: the number read,
    how many digits were added, and what follows them. *)
Fixpoint read_digits (s : string) (acc count : Z) : Z * Z * string :=
  match s with
  | String c s' =>
      if digit c then read_digits s' (10 * acc + digit_value c) (count + 1)
      else (acc, count, s)
  | EmptyString => (acc, count, s)
  end.

Definition read_sign (s : string) : bool * string :=
  match s with
  | String c s' =>
      if Ascii.eqb c "-" then (true, s')
      else if Ascii.eqb c "+" then (false, s')
      else (false, s)
  | EmptyString => (false, s)
  end.

Definition read_exponent (s : string) : Z * string :=
  match s with
  | String c s' =>
      if either "e" "E" c then
        let '(negative, s'') := read_sign s' in
        let '(e, count, rest) := read_digits s'' 0 0 in
        if count =? 0 then (0, s)
        else (if negative then - e else e, rest)
      else (0, s)
  | EmptyString => (0, s)
  end.

(** The binary64 nearest to [± m * 10 ^ e]. *)
Definition decimal_value (negative : bool) (m e : Z) : float64 :=
  match m with
  | Zpos a =>
      if 0 <=? e then nearest_ratio negative (a * Z.to_pos (10 ^ e)) 1
      else nearest_ratio negative a (Z.to_pos (10 ^ (- e)))
  | _ => S754_zero negative
  end.

(** Digits with at most one point among them, and an exponent. *)
Definition read_unsigned (negative : bool) (s1 : string) : option (float64 * string) :=
  let '(m1, n1, s2) := read_digits s1 0 0 in
  let '(m, n2, s3) :=
    match s2 with
    | String c s2' => if Ascii.eqb c "." then read_digits s2' m1 0 else (m1, 0, s2)
    | EmptyString => (m1, 0, s2)
    end in
  if n1 + n2 =? 0 then None
  else
    let '(e, rest) := read_exponent s3 in
    Some (decimal_value negative m (e - n2), rest).

Definition read_decimal (s : string) : option (float64 * string) :=
  let '(negative, s1) := read_sign s in
  read_unsigned negative s1.

Definition lower (c : ascii) : ascii :=
  if in_range "A" "Z" c then ascii_of_nat (nat_of_ascii c + 32) else c.

(** What follows [word] at the front of [s], letters compared without
    case. *)
Fixpoint after_word (word s : string) : option string :=
  match word with
  | EmptyString => Some s
  | String w word' =>
      match s with
      | String c s' => if Ascii.eqb (lower c) w then after_word word' s' else None
      | EmptyString => None
      end
  end.

Definition read_inf_nan (s : string) : option (float64 * string) :=
  let '(negative, s1) := read_sign s in
  match after_word "inf" s1 with
  | Some rest =>
      Some (S754_infinity negative,
            match after_word "inity" rest with
            | Some rest' => rest'
            | None => rest
            end)
  | None =>
      match after_word "nan" s1 with
      | Some rest => Some (S754_nan, rest)
      | None => None
      end
  end.

Definition py_float (s : string) : result float64 :=
  let s := skip_spaces s in
  let number := match read_decimal s with
                | Some r => Some r
                | None => read_inf_nan s
                end in
  match number with
  | Some (x, rest) =>
      match skip_spaces rest with
      | EmptyString => Ok x
      | _ => Raise ValueError
      end
  | None => Raise ValueError
  end.

(** [float(power_reading[1].lstrip('INPWR='))] *)
Definition reading_power (power_reading : list string) : result float64 :=
  rbind (index power_reading 1) (fun token =>
  py_float (py_lstrip "INPWR=" token)).

(* ================================================================= *)
(** ** Peak and idle voltage of a capture, step 2.4 *)

(** [sum(data)]: the sum starts from the int [0]. *)
Definition py_sum (data : list float64) : float64 :=
  fold_left fadd data (S754_zero false).

(** [sum(data) / len(data)]: an empty list makes it [0 / 0] on ints. *)
Definition mean (data : list float64) : result float64 :=
  if len data =? 0 then Raise ZeroDivisionError
  else Ok (fdiv (py_sum data) (float_of_Z (len data))).

Definition calculate_idle_voltage (data : list float64) (trigger_level : float64)
  : result float64 :=
  let data := filter (fun x => flt x trigger_level) data in
  mean data.

Definition calculate_peak_voltage (data : list float64) (trigger_level : float64)
  : result float64 :=
  let data := filter (fun x => flt trigger_level x) data in
  mean data.

(** [max(data)] and [min(data)]: the first item, replaced by each later
    item that compares greater (smaller). *)
Definition py_max (data : list float64) : result float64 :=
  match data with
  | [] => Raise ValueError
  | x :: rest => Ok (fold_left (fun m y => if flt m y then y else m) rest x)
  end.

Definition py_min (data : list float64) : result float64 :=
  match data with
  | [] => Raise ValueError
  | x :: rest => Ok (fold_left (fun m y => if flt y m then y else m) rest x)
  end.

(** The condition of the [while] loop that guards the capture. *)
Definition capture_rejected (peak_voltage idle_voltage trigger_level : float64) : bool :=
  flt peak_voltage trigger_level || flt trigger_level idle_voltage.

Section Capture.

(** [captures k] is the [k]-th capture the scope hands over, counted
    from the one taken in step 2.4.5. *)
Variable captures : nat -> list float64.
Variable trigger_level : float64.

Fixpoint capture_loop (fuel k : nat) (data : list float64)
    (idle_voltage peak_voltage : float64) : io (option (list float64)) :=
  if capture_rejected peak_voltage idle_voltage trigger_level then
    match fuel with
    | O => ret None
    | S fuel' =>
        (Calient.Del_CRS_Calient TELEMETRY_TX_CONNECTION ;;
         emit (Sleep 5000) ;;
         Calient.Add_CRS_Calient TELEMETRY_TX_CONNECTION ;;
         emit (Sleep 5000) ;;
         emit (Scope "setCH1VoltsPerDiv(1)") ;;
         emit (Scope "setTimePerDiv(10000)") ;;
         emit (Scope "triggerOnCH1()") ;;
         emit (Scope "autoTrigger()") ;;
         emit (Scope "setNumberOfDataToBeAveraged(100)") ;;
         emit (Scope "getCH1NewData()") ;;
         let data := captures k in
         idle_voltage <- lift (py_min data) ;;
         peak_voltage <- lift (py_max data) ;;
         capture_loop fuel' (S k) data idle_voltage peak_voltage)%io
    end
  else ret (Some data).

(** Steps 2.4.5 and 2.4.6 from the capture that is kept to the two
    voltages stored in [scan_data]. *)
Definition take_sample (fuel : nat) : io (option (float64 * float64)) :=
  (emit (Scope "getCH1NewData()") ;;
   let data := captures 0 in
   idle_voltage <- lift (py_min data) ;;
   peak_voltage <- lift (py_max data) ;;
   kept <- capture_loop fuel 1 data idle_voltage peak_voltage ;;
   match kept with
   | None => ret None
   | Some data =>
       idle_voltage <- lift (calculate_idle_voltage data trigger_level) ;;
       peak_voltage <- lift (calculate_peak_voltage data trigger_level) ;;
       ret (Some (peak_voltage, idle_voltage))
   end)%io.

End Capture.


(* ================================================================= *)
(** ** Sessions and turns of the loops *)

(** Whether the telnet calls of a trace come in sessions: nothing is
    written or read outside a session, no session is opened inside
    another, and every session is closed.  [open] tells whether a session
    is open where the trace starts. *)
Fixpoint telnet_sessions (open : bool) (t : list event) : bool :=
  match t with
  | [] => negb open
  | TelnetOpen :: t' => negb open && telnet_sessions true t'
  | TelnetClose :: t' => open && telnet_sessions false t'
  | TelnetWrite _ :: t' => open && telnet_sessions open t'
  | TelnetRead :: t' => open && telnet_sessions open t'
  | TelnetShutdown :: t' => open && telnet_sessions open t'
  | TelnetReadAll :: t' => open && telnet_sessions open t'
  | _ :: t' => telnet_sessions open t'
  end.

(** The events of one turn of the loop that guards the capture. *)
Definition capture_cycle : list event :=
  trace (Calient.Del_CRS_Calient TELEMETRY_TX_CONNECTION) ++
  [Sleep 5000] ++
  trace (Calient.Add_CRS_Calient TELEMETRY_TX_CONNECTION) ++
  [Sleep 5000;
   Scope "setCH1VoltsPerDiv(1)"; Scope "setTimePerDiv(10000)";
   Scope "triggerOnCH1()"; Scope "autoTrigger()";
   Scope "setNumberOfDataToBeAveraged(100)"; Scope "getCH1NewData()"].

(** Whether the guard sends a capture back: its highest sample is below
    the trigger level or its lowest above it. *)
Definition capture_retried (trigger_level : float64) (data : list float64) : bool :=
  match py_min data, py_max data with
  | Ok idle_voltage, Ok peak_voltage =>
      capture_rejected peak_voltage idle_voltage trigger_level
  | _, _ => false
  end.

(* ================================================================= *)
(** ** ALS *)

(** What [ALS] does to a ROADM: it connects, dispatches a [disable-als]
    request for one of the two EDFAs, prints a caught exception and closes
    the session. *)
Inductive als_event : Type :=
| Connect (IP : string)
| Dispatch_disable_als (edfa : Z)
| Print_error (e : pyexn)
| Close_session.

(** [ALS(IP, module)].  The outcomes of [manager.connect], of
    [m.dispatch] and of [m.close_session] are arguments.  The call of
    [dispatch] stands in the [else] branch of [if module == 1]; the
    [finally] clause reads [m], which is not bound when [connect] raised,
    and which is true, as any session object is, when it did not. *)
Definition ALS (IP : string) (module : Z) (connected dispatched closed : result unit)
  : list als_event * result unit :=
  let '(tried, m) :=
    match connected with
    | Ok m =>
        if module =? 1 then ([Connect IP], Some m)
        else
          match dispatched with
          | Ok _ => ([Connect IP; Dispatch_disable_als 2], Some m)
          | Raise e => ([Connect IP; Dispatch_disable_als 2; Print_error e], Some m)
          end
    | Raise e => ([Connect IP; Print_error e], None)
    end in
  match m with
  | Some _ => (tried ++ [Close_session], closed)
  | None => (tried, Raise UnboundLocalError)
  end.

(* ================================================================= *)
(** * Properties *)

(** ** Bytes and nibbles *)

Lemma lxor_below (n a b : Z) :
  0 < n -> 0 <= a < 2 ^ n -> 0 <= b < 2 ^ n -> 0 <= Z.lxor a b < 2 ^ n.
Proof.
  intros Hn Ha Hb.
  assert (Hnn : 0 <= Z.lxor a b) by (apply Z.lxor_nonneg; lia).
  split; [exact Hnn|].
  destruct (Z.eq_dec (Z.lxor a b) 0) as [E|E].
  - rewrite E. apply Z.pow_pos_nonneg; lia.
  - apply Z.log2_lt_pow2; [lia|].
    pose proof (Z.log2_lxor a b (proj1 Ha) (proj1 Hb)) as Hl.
    assert (Z.log2 a < n).
    { destruct (Z.eq_dec a 0) as [->|]; [simpl; lia|].
      apply Z.log2_lt_pow2; lia. }
    assert (Z.log2 b < n).
    { destruct (Z.eq_dec b 0) as [->|]; [simpl; lia|].
      apply Z.log2_lt_pow2; lia. }
    lia.
Qed.

Lemma land_15_range (x : Z) : 0 <= Z.land x 15 < 16.
Proof.
  change 15 with (Z.ones 4). rewrite Z.land_ones by lia.
  apply Z.mod_pos_bound. reflexivity.
Qed.

Lemma land_255_range (x : Z) : 0 <= Z.land x 255 < 256.
Proof.
  change 255 with (Z.ones 8). rewrite Z.land_ones by lia.
  apply Z.mod_pos_bound. reflexivity.
Qed.

Lemma high_bits_range (x : Z) : 0 <= Z.shiftr (Z.land x 240) 4 < 16.
Proof.
  assert (E : Z.shiftr (Z.land x 240) 4 = Z.land (Z.shiftr x 4) 15).
  { rewrite Z.shiftr_land. reflexivity. }
  rewrite E. apply land_15_range.
Qed.

Lemma cal_checksum_range (d0 d1 d2 d3 : Z) :
  0 <= ITLA.cal_checksum d0 d1 d2 d3 < 16.
Proof.
  unfold ITLA.cal_checksum.
  apply (lxor_below 4); [lia| apply high_bits_range | apply land_15_range].
Qed.

(** Folding a nibble into the write byte [01]: the low nibble keeps the
    write bit, the high nibble is the checksum. *)
Lemma fold_nibble (b : Z) :
  0 <= b < 16 ->
  Z.lxor 1 (Z.shiftl b 4) = 1 + 16 * b.
Proof.
  intros Hb.
  assert (H : b = 0 \/ b = 1 \/ b = 2 \/ b = 3 \/ b = 4 \/ b = 5 \/ b = 6 \/
              b = 7 \/ b = 8 \/ b = 9 \/ b = 10 \/ b = 11 \/ b = 12 \/
              b = 13 \/ b = 14 \/ b = 15) by lia.
  repeat (destruct H as [H|H]; [subst b; reflexivity|]).
  subst b; reflexivity.
Qed.

Lemma folded_low (b : Z) : 0 <= b < 16 -> Z.land (1 + 16 * b) 15 = 1.
Proof.
  intros Hb. change 15 with (Z.ones 4). rewrite Z.land_ones by lia.
  change (2 ^ 4) with 16.
  replace (1 + 16 * b) with (1 + b * 16) by lia.
  rewrite Z_mod_plus_full. reflexivity.
Qed.

Lemma folded_high (b : Z) :
  0 <= b < 16 -> Z.shiftr (Z.land (1 + 16 * b) 240) 4 = b.
Proof.
  intros Hb.
  assert (H : b = 0 \/ b = 1 \/ b = 2 \/ b = 3 \/ b = 4 \/ b = 5 \/ b = 6 \/
              b = 7 \/ b = 8 \/ b = 9 \/ b = 10 \/ b = 11 \/ b = 12 \/
              b = 13 \/ b = 14 \/ b = 15) by lia.
  repeat (destruct H as [H|H]; [subst b; reflexivity|]).
  subst b; reflexivity.
Qed.

(** ** The io monad *)

Lemma bind_lift_ok {A B} (a : A) (k : A -> io B) : bind (lift (Ok a)) k = k a.
Proof. unfold bind, lift. destruct (k a). reflexivity. Qed.

Lemma bind_lift_raise {A B} (e : pyexn) (k : A -> io B) :
  bind (lift (Raise e)) k = ([], Raise e).
Proof. reflexivity. Qed.

Lemma bind_emit {B} (ev : event) (k : unit -> io B) :
  bind (emit ev) k = (ev :: fst (k tt), snd (k tt)).
Proof. unfold bind, emit. destruct (k tt). reflexivity. Qed.

(** ** Frames *)

Lemma pack_h_spec (v : Z) (B : Z * Z) :
  pack_h v = Ok B -> -32768 <= v <= 32767 /\ B = (data_hi v, data_lo v).
Proof.
  unfold pack_h.
  destruct (Z.ltb_spec v (-32768)); [discriminate|].
  destruct (Z.ltb_spec 32767 v); [discriminate|].
  simpl. intros [= <-]. split; [lia | reflexivity].
Qed.

Lemma pack_h_fits (v : Z) :
  -32768 <= v <= 32767 -> pack_h v = Ok (data_hi v, data_lo v).
Proof.
  intros Hv. unfold pack_h.
  destruct (Z.ltb_spec v (-32768)); [lia|].
  destruct (Z.ltb_spec 32767 v); [lia|]. reflexivity.
Qed.

Lemma build_cmd_frame (register : Z) (B : Z * Z) (cmd : list Z) :
  ITLA.build_cmd register B = Ok cmd ->
  cmd = [1 + 16 * ITLA.cal_checksum 1 register (fst B) (snd B);
         register; fst B; snd B].
Proof.
  unfold ITLA.build_cmd, bytearray.
  rewrite fold_nibble by apply cal_checksum_range.
  match goal with |- context [forallb ?f ?l] => destruct (forallb f l) end;
    [intros [= <-]; reflexivity | discriminate].
Qed.

Lemma build_cmd_bytes (register d2 d3 : Z) :
  0 <= register < 256 -> 0 <= d2 < 256 -> 0 <= d3 < 256 ->
  ITLA.build_cmd register (d2, d3) =
  Ok [1 + 16 * ITLA.cal_checksum 1 register d2 d3; register; d2; d3].
Proof.
  intros Hr H2 H3. unfold ITLA.build_cmd, bytearray.
  rewrite fold_nibble by apply cal_checksum_range.
  pose proof (cal_checksum_range 1 register d2 d3) as Hc.
  cbn [fst snd forallb].
  repeat match goal with
  | |- context [?a <=? ?b] => destruct (Z.leb_spec a b); [|lia]
  | |- context [?a <? ?b] => destruct (Z.ltb_spec a b); [|lia]
  end.
  reflexivity.
Qed.

Lemma build_cmd_packed (register v : Z) :
  0 <= register < 256 ->
  ITLA.build_cmd register (data_hi v, data_lo v) =
  Ok [1 + 16 * ITLA.cal_checksum 1 register (data_hi v) (data_lo v);
      register; data_hi v; data_lo v].
Proof.
  intros Hr. apply build_cmd_bytes; [exact Hr | apply land_255_range ..].
Qed.

Lemma built_frame_conformant (register d2 d3 : Z) :
  checksum_conformant
    [1 + 16 * ITLA.cal_checksum 1 register d2 d3; register; d2; d3] = true.
Proof.
  pose proof (cal_checksum_range 1 register d2 d3) as Hc.
  unfold checksum_conformant, high_nibble.
  rewrite folded_high, folded_low by exact Hc.
  apply Z.eqb_eq. reflexivity.
Qed.

Lemma build_cmd_conformant (register : Z) (B : Z * Z) (cmd : list Z) :
  ITLA.build_cmd register B = Ok cmd -> checksum_conformant cmd = true.
Proof.
  intros H. apply build_cmd_frame in H. subst cmd.
  apply built_frame_conformant.
Qed.

(** Each setter unfolds to a chain of [lift]ed steps; [run_lifted] walks
    through it, splitting on the result of each step. *)
Ltac run_lifted :=
  repeat match goal with
  | |- context [bind (lift ?r) _] =>
      let E := fresh "E" in
      destruct r eqn:E; [rewrite bind_lift_ok | rewrite bind_lift_raise]
  | |- context [bind (emit _) _] => rewrite bind_emit
  end.

(** C1: every frame written to the serial session, by the three setters
    on any argument and by [laser_on] and [laser_off], carries in the
    high nibble of its first byte the BIP-4 of the low nibble of that byte
    and of the three bytes that follow. *)
Theorem itla_frames_checksum_conformant (c : itla_call) (frame : list Z) :
  In frame (serial_writes (trace (itla_run c))) ->
  checksum_conformant frame = true.
Proof.
  destruct c as [| |freq|value|num]; unfold itla_run, trace.
  - cbn. intros [<-|[]]. reflexivity.
  - cbn. intros [<-|[]]. reflexivity.
  - unfold ITLA.set_first_channel_frequency. run_lifted; cbn; try tauto.
    intros [<-|[<-|[]]]; eapply build_cmd_conformant; eassumption.
  - unfold ITLA.set_power.
    destruct (_ || _); [cbn; tauto|].
    run_lifted; cbn; try tauto.
    intros [<-|[]]; eapply build_cmd_conformant; eassumption.
  - unfold ITLA.set_channel. run_lifted; cbn; try tauto.
    intros [<-|[]]; eapply build_cmd_conformant; eassumption.
Qed.

Lemma itla_frames_checksum_conformant_witness :
  In [129; 49; 3; 59]
     (serial_writes (trace (itla_run (Set_power (float_literal 828 2))))) /\
  checksum_conformant [129; 49; 3; 59] = true.
Proof.
  assert (H : In [129; 49; 3; 59]
                 (serial_writes
                    (trace (itla_run (Set_power (float_literal 828 2))))))
    by (vm_compute; left; reflexivity).
  split; [exact H|].
  exact (itla_frames_checksum_conformant _ _ H).
Defined.

(** ** binary64 values between 6.0 and 13.5 *)

Lemma digits2_pos_bounds (m : positive) :
  2 ^ (Z.pos (digits2_pos m) - 1) <= Z.pos m < 2 ^ Z.pos (digits2_pos m).
Proof.
  induction m as [m IH|m IH|]; cbn [digits2_pos].
  - rewrite Pos2Z.inj_succ.
    replace (Z.succ (Z.pos (digits2_pos m)) - 1)
      with (Z.succ (Z.pos (digits2_pos m) - 1)) by lia.
    rewrite !Z.pow_succ_r by lia. lia.
  - rewrite Pos2Z.inj_succ.
    replace (Z.succ (Z.pos (digits2_pos m)) - 1)
      with (Z.succ (Z.pos (digits2_pos m) - 1)) by lia.
    rewrite !Z.pow_succ_r by lia. lia.
  - cbn. lia.
Qed.

Lemma six_repr : float_of_Z 6 = S754_finite false 6755399441055744 (-50).
Proof. vm_compute. reflexivity. Qed.

Lemma thirteen_half_repr :
  float_literal 135 1 = S754_finite false 7599824371187712 (-49).
Proof. vm_compute. reflexivity. Qed.

(** A valid binary64 with exponent [e] far above the subnormal range has a
    53-bit mantissa. *)
Lemma valid_mantissa (s : bool) (m : positive) (e : Z) :
  valid_binary prec emax (S754_finite s m e) = true ->
  -1074 < e ->
  2 ^ 52 <= Z.pos m < 2 ^ 53.
Proof.
  cbn [valid_binary]. unfold bounded, canonical_mantissa, fexp, emin, prec, emax.
  intros H He. apply andb_prop in H. destruct H as [H _].
  apply Z.eqb_eq in H. unfold SpecFloat.fexp, SpecFloat.emin in H.
  assert (Hd : Z.pos (digits2_pos m) = 53) by lia.
  pose proof (digits2_pos_bounds m) as Hb. rewrite Hd in Hb. exact Hb.
Qed.


Lemma compare_cont_Eq (a b : positive) : Pos.compare_cont Eq a b = Pos.compare a b.
Proof. reflexivity. Qed.

Lemma accepted_shape (v : float64) :
  valid_binary prec emax v = true ->
  fle (float_of_Z 6) v = true ->
  fle v (float_literal 135 1) = true ->
  between_6_and_13_5 v.
Proof.
  set (six := float_of_Z 6). set (th := float_literal 135 1).
  replace six with (S754_finite false 6755399441055744 (-50))
    by (symmetry; apply six_repr).
  replace th with (S754_finite false 7599824371187712 (-49))
    by (symmetry; apply thirteen_half_repr).
  clear six th. unfold fle, SFleb.
  destruct v as [s|s| |s m e]; cbn [SFcompare]; intros Hv H6 H13.
  - discriminate H6.
  - destruct s; [discriminate H6 | discriminate H13].
  - discriminate H6.
  - destruct s; [discriminate H6|].
    rewrite compare_cont_Eq in H6, H13.
    destruct (Z.compare_spec (-50) e) as [He|He|He]; [| |discriminate H6].
    + subst e. exists m. left. split; [reflexivity|].
      pose proof (valid_mantissa _ _ _ Hv ltac:(lia)) as Hm.
      destruct (Pos.compare_spec 6755399441055744 m);
        [lia | lia | discriminate H6].
    + destruct (Z.compare_spec e (-49)) as [He'|He'|He'];
        [| lia | discriminate H13].
      subst e. exists m. right. split; [reflexivity|].
      pose proof (valid_mantissa _ _ _ Hv ltac:(lia)) as Hm.
      clear H6 Hv.
      destruct (Pos.compare_spec m 7599824371187712) as [Hc|Hc|Hc].
      * subst m. split; [apply Hm | apply Z.le_refl].
      * split; [apply Hm | apply Z.lt_le_incl, Hc].
      * discriminate H13.
Qed.


Lemma flt_same_exponent (m1 m2 : positive) (e : Z) :
  flt (S754_finite false m1 e) (S754_finite false m2 e) = (Z.pos m1 <? Z.pos m2).
Proof.
  unfold flt, SFltb. cbn [SFcompare]. rewrite Z.compare_refl.
  unfold Z.ltb. cbn [Z.compare]. reflexivity.
Qed.

Lemma flt_higher_exponent (m1 m2 : positive) (e1 e2 : Z) :
  e2 < e1 -> flt (S754_finite false m1 e1) (S754_finite false m2 e2) = false.
Proof.
  intros He. unfold flt, SFltb. cbn [SFcompare].
  apply Z.lt_gt in He. unfold Z.gt in He. rewrite He. reflexivity.
Qed.

Lemma shape_passes_check (v : float64) :
  between_6_and_13_5 v ->
  flt v (float_of_Z 6) || flt (float_literal 135 1) v = false.
Proof.
  set (six := float_of_Z 6). set (th := float_literal 135 1).
  replace six with (S754_finite false 6755399441055744 (-50))
    by (symmetry; apply six_repr).
  replace th with (S754_finite false 7599824371187712 (-49))
    by (symmetry; apply thirteen_half_repr).
  clear six th.
  intros [m [[-> Hm]|[-> Hm]]].
  - rewrite flt_same_exponent, flt_higher_exponent by reflexivity.
    rewrite orb_false_r. apply Z.ltb_ge, Hm.
  - rewrite flt_same_exponent, flt_higher_exponent by reflexivity.
    apply Z.ltb_ge, Hm.
Qed.

(** Rounding a float of [6, 13.5] to two decimals gives a whole number of
    hundredths between 600 and 1350. *)
Lemma centi_bound_low (m P : Z) :
  0 < P -> 24 * P <= m < 32 * P ->
  600 <= (2 * (m * 100) + 4 * P) / (8 * P) <= 800.
Proof.
  intros HP Hm. split.
  - apply Z.div_le_lower_bound; lia.
  - apply Z.lt_succ_r. apply Z.div_lt_upper_bound; lia.
Qed.

Lemma centi_bound_high (m P : Z) :
  0 < P -> 16 * P <= m <= 27 * P ->
  800 <= (2 * (m * 100) + 2 * P) / (4 * P) <= 1350.
Proof.
  intros HP Hm. split.
  - apply Z.div_le_lower_bound; lia.
  - apply Z.lt_succ_r. apply Z.div_lt_upper_bound; lia.
Qed.

Lemma round2_of_accepted (v : float64) :
  between_6_and_13_5 v ->
  exists n : positive,
    600 <= Z.pos n <= 1350 /\ py_round v 2 = nearest_ratio false n 100.
Proof.
  intros [m [[-> Hm]|[-> Hm]]]; unfold py_round.
  - pose proof (centi_bound_low (Z.pos m) (2 ^ 48) eq_refl Hm) as Hq.
    change (2 * (Z.pos m * 100) + 4 * 2 ^ 48)
      with (2 * (Z.pos m * 10 ^ Z.pos 2) + 2 ^ Z.pos 50) in Hq.
    change (8 * 2 ^ 48) with (2 ^ (Z.pos 50 + 1)) in Hq.
    destruct (_ / _) as [|n|n]; [lia | | lia].
    exists n. split; [lia | reflexivity].
  - pose proof (centi_bound_high (Z.pos m) (2 ^ 48) eq_refl Hm) as Hq.
    change (2 * (Z.pos m * 100) + 2 * 2 ^ 48)
      with (2 * (Z.pos m * 10 ^ Z.pos 2) + 2 ^ Z.pos 49) in Hq.
    change (4 * 2 ^ 48) with (2 ^ (Z.pos 49 + 1)) in Hq.
    destruct (_ / _) as [|n|n]; [lia | | lia].
    exists n. split; [lia | reflexivity].
Qed.

(** For each of those 751 values the product with 100.0, truncated, is
    that number of hundredths or one less. *)
Lemma centi_table :
  forallb (fun i =>
             let n := Pos.of_nat i in
             match py_int (fmul (nearest_ratio false n 100) (float_of_Z 100)) with
             | Ok k => (k =? Z.pos n) || (k =? Z.pos n - 1)
             | Raise _ => false
             end) (seq 600 751) = true.
Proof. vm_compute. reflexivity. Qed.

Lemma set_value_of_centi (n : positive) :
  600 <= Z.pos n <= 1350 ->
  exists k : Z,
    py_int (fmul (nearest_ratio false n 100) (float_of_Z 100)) = Ok k /\
    (k = Z.pos n \/ k = Z.pos n - 1).
Proof.
  intros Hn. pose proof centi_table as T.
  rewrite forallb_forall in T. specialize (T (Pos.to_nat n)).
  cbv zeta in T. rewrite Pos2Nat.id in T.
  assert (Hin : In (Pos.to_nat n) (seq 600 751)) by (apply in_seq; lia).
  specialize (T Hin).
  destruct (py_int _) as [k|]; [|discriminate T].
  exists k. split; [reflexivity|].
  apply orb_prop in T. destruct T as [T|T]; apply Z.eqb_eq in T; lia.
Qed.

(** ** set_power *)

Lemma set_power_rejects (value : float64) :
  flt value (float_of_Z 6) = true \/ flt (float_literal 135 1) value = true ->
  ITLA.set_power value = ([], Raise PowerLimitError).
Proof.
  intros H. unfold ITLA.set_power.
  destruct H as [H|H]; rewrite H; [|rewrite orb_true_r]; reflexivity.
Qed.

(** What [set_power] writes for a value the range check lets through: one
    frame for register 0x31 that carries [int(round(value, 2) * 100)]. *)
Lemma set_power_accepts (value : float64) :
  valid_binary prec emax value = true ->
  fle (float_of_Z 6) value = true ->
  fle value (float_literal 135 1) = true ->
  exists set_value : Z,
    py_int (fmul (py_round value 2) (float_of_Z 100)) = Ok set_value /\
    599 <= set_value <= 1350 /\
    ITLA.set_power value =
    ([SerialWrite [1 + 16 * ITLA.cal_checksum 1 49 (data_hi set_value)
                                                    (data_lo set_value);
                   49; data_hi set_value; data_lo set_value]], Ok tt).
Proof.
  intros Hv H6 H13.
  pose proof (accepted_shape value Hv H6 H13) as Hs.
  destruct (round2_of_accepted value Hs) as [n [Hn Hr]].
  destruct (set_value_of_centi n Hn) as [k [Hk Hkn]].
  exists k. rewrite Hr. split; [exact Hk|]. split; [lia|].
  unfold ITLA.set_power.
  rewrite (shape_passes_check value Hs), Hr, Hk, bind_lift_ok.
  rewrite pack_h_fits by lia. rewrite bind_lift_ok.
  rewrite build_cmd_packed by lia. rewrite bind_lift_ok.
  reflexivity.
Qed.

(** C4: [set_power] raises [PowerLimitError] without writing anything
    when the value is below 6.0 or above 13.5, and for every float of the
    closed interval from 6.0 to 13.5 it returns normally after writing
    exactly one frame; 5.9 and 13.6 are rejected, 6.0 and 13.5 accepted. *)
Theorem set_power_range_check (value : float64) :
  valid_binary prec emax value = true ->
  (flt value (float_of_Z 6) = true \/ flt (float_literal 135 1) value = true ->
   ITLA.set_power value = ([], Raise PowerLimitError)) /\
  (fle (float_of_Z 6) value = true -> fle value (float_literal 135 1) = true ->
   exists frame, ITLA.set_power value = ([SerialWrite frame], Ok tt)) /\
  ITLA.set_power (float_literal 59 1) = ([], Raise PowerLimitError) /\
  ITLA.set_power (float_literal 136 1) = ([], Raise PowerLimitError) /\
  (exists frame,
      ITLA.set_power (float_literal 60 1) = ([SerialWrite frame], Ok tt)) /\
  (exists frame,
      ITLA.set_power (float_literal 135 1) = ([SerialWrite frame], Ok tt)).
Proof.
  intros Hv. split; [apply set_power_rejects|]. split.
  - intros H6 H13.
    destruct (set_power_accepts value Hv H6 H13) as [k [_ [_ E]]].
    eexists. exact E.
  - split; [vm_compute; reflexivity|].
    split; [vm_compute; reflexivity|].
    split; eexists; vm_compute; reflexivity.
Qed.

Lemma set_power_range_check_witness :
  valid_binary prec emax (float_of_Z 7) = true /\
  exists frame, ITLA.set_power (float_of_Z 7) = ([SerialWrite frame], Ok tt).
Proof.
  split; [vm_compute; reflexivity|].
  apply (set_power_range_check (float_of_Z 7)); vm_compute; reflexivity.
Defined.

(** C9, at the value 8.28 the claim names: [round(8.28, 2) * 100] is
    827.9999999999999 in binary64 and [int] truncates it, so the frame
    carries 827 (bytes 3 and 59) and not 828 (bytes 3 and 60). *)
Theorem set_power_8_28_writes_827 :
  py_int (fmul (py_round (float_literal 828 2) 2) (float_of_Z 100)) = Ok 827 /\
  ITLA.set_power (float_literal 828 2) =
  ([SerialWrite [129; 49; data_hi 827; data_lo 827]], Ok tt) /\
  (data_hi 827, data_lo 827) <> (data_hi 828, data_lo 828).
Proof.
  split; [vm_compute; reflexivity|]. split; [vm_compute; reflexivity|].
  vm_compute. discriminate.
Qed.

(** ** set_first_channel_frequency *)

Lemma build_cmd_write_frame (register v : Z) :
  0 <= register < 256 ->
  ITLA.build_cmd register (data_hi v, data_lo v) = Ok (write_frame register v).
Proof. apply build_cmd_packed. Qed.



(** ** The power prediction *)

Section PredictionFacts.

Import Prediction.
Local Open Scope R_scope.

Lemma db_to_linear_pos (x : R) : 0 < db_to_linear x.
Proof. unfold db_to_linear, Rpower. apply exp_pos. Qed.

Lemma channels_plus_one_pos (n : nat) : 0 < INR n + 1.
Proof. pose proof (pos_INR n). lra. Qed.

Lemma mean_gain_linear_pos (a b : R) (n : nat) :
  0 < (db_to_linear a + db_to_linear b * INR n) / (INR n + 1).
Proof.
  apply Rdiv_lt_0_compat; [|apply channels_plus_one_pos].
  pose proof (db_to_linear_pos a). pose proof (db_to_linear_pos b).
  pose proof (pos_INR n).
  assert (0 <= db_to_linear b * INR n) by (apply Rmult_le_pos; lra).
  lra.
Qed.

Lemma py_div_nonzero (a b : R) : b <> 0 -> py_div a b = Ok (a / b).
Proof. intros Hb. unfold py_div. destruct (Req_EM_T b 0); [contradiction | reflexivity]. Qed.

Lemma linear_to_db_pos (x : R) : 0 < x -> linear_to_db x = Ok (10 * log10 x).
Proof. intros Hx. unfold linear_to_db. destruct (Rle_dec x 0); [lra | reflexivity]. Qed.

Lemma linear_to_db_nonpos (x : R) : x <= 0 -> linear_to_db x = Raise ValueError.
Proof. intros Hx. unfold linear_to_db. destruct (Rle_dec x 0); [reflexivity | lra]. Qed.

(** The value returned when the first [linear_to_db] does not raise. *)
Lemma predicted_power_value (peak_voltage probed target_gain pd_response : R)
    (existing_channel_num : nat) :
  pd_response <> 0 -> 0 < peak_voltage / pd_response ->
  calculate_predicted_channel_power_from_peak_voltage
    peak_voltage probed target_gain pd_response existing_channel_num =
  Ok (let peak_power_dBm := 10 * log10 (peak_voltage / pd_response) in
      let ripple := peak_power_dBm - probed in
      let mean_gain_dB :=
        10 * log10 ((Rpower 10 ((target_gain + ripple) / 10) +
                     INR existing_channel_num * Rpower 10 (target_gain / 10)) /
                    (INR existing_channel_num + 1)) in
      (target_gain - mean_gain_dB) + peak_power_dBm).
Proof.
  intros Hpd Hratio.
  unfold calculate_predicted_channel_power_from_peak_voltage.
  rewrite py_div_nonzero by exact Hpd. cbn [rbind].
  rewrite linear_to_db_pos by exact Hratio. cbn [rbind].
  rewrite py_div_nonzero
    by (pose proof (channels_plus_one_pos existing_channel_num); lra).
  cbn [rbind].
  rewrite linear_to_db_pos by apply mean_gain_linear_pos. cbn [rbind].
  cbv zeta. unfold db_to_linear.
  rewrite (Rmult_comm (Rpower 10 (target_gain / 10)) (INR existing_channel_num)).
  reflexivity.
Qed.


End PredictionFacts.


(** ** The DWDM grid *)

Lemma nth_error_seq_lt (a n i : nat) :
  (i < n)%nat -> nth_error (seq a n) i = Some (a + i)%nat.
Proof.
  revert a i. induction n as [|n IH]; intros a i Hi; [lia|].
  destruct i as [|i]; cbn [seq nth_error].
  - f_equal. lia.
  - rewrite IH by lia. f_equal. lia.
Qed.

Lemma nth_error_seq_ge (a n i : nat) :
  (n <= i)%nat -> nth_error (seq a n) i = None.
Proof. intros Hi. apply nth_error_None. rewrite length_seq. exact Hi. Qed.

Section GridFacts.

Context {T : Type} `{PyNumber T}.
Variable str_num : T -> string.
Variables module_id in_port out_port loss : pyval.
Variables channel_spacing channel_width : T.

Lemma gen_dwdm_connections_length :
  List.length (Lumentum.gen_dwdm_connections str_num module_id in_port out_port
                 channel_spacing channel_width loss) = 96%nat.
Proof. unfold Lumentum.gen_dwdm_connections. rewrite length_map. apply length_seq. Qed.

Lemma gen_dwdm_connections_nth (i : nat) (c : WSSConnection) :
  nth_error (Lumentum.gen_dwdm_connections str_num module_id in_port out_port
               channel_spacing channel_width loss) i = Some c ->
  (i < 96)%nat /\
  c = {| module := module_id;
         connection_id := PStr (str_int (Z.of_nat i + 1));
         operation := PStr Lumentum.INSERVICE;
         blocked := PStr "false";
         input_port := in_port;
         output_port := out_port;
         start_freq := PStr (str_num (passband_start channel_spacing channel_width i));
         end_freq := PStr (str_num (passband_end channel_spacing channel_width i));
         attenuation := loss;
         name := PStr (String.append "CH" (str_int (Z.of_nat i + 1))) |}.
Proof.
  unfold Lumentum.gen_dwdm_connections. rewrite nth_error_map.
  destruct (Nat.lt_ge_cases i 96) as [Hi|Hi].
  - rewrite nth_error_seq_lt by exact Hi. cbn [option_map plus].
    intros [= <-]. split; [exact Hi | reflexivity].
  - rewrite nth_error_seq_ge by exact Hi. discriminate.
Qed.

End GridFacts.

Lemma Qc_of_Z_succ (i : Z) :
  Q2Qc (inject_Z (i + 1)) = (Q2Qc (inject_Z i) + 1)%Qc.
Proof.
  unfold Qcplus. apply Q2Qc_eq_iff. cbn [this Q2Qc].
  rewrite inject_Z_plus, !Qred_correct. reflexivity.
Qed.

(** In exact arithmetic the upper edge of a passband is the lower edge of
    the next one when the spacing is the width. *)
Lemma passband_gapless_exact (channel_spacing : Qc) (i : nat) :
  passband_end channel_spacing channel_spacing i =
  passband_start channel_spacing channel_spacing (S i).
Proof.
  unfold passband_end, passband_start, center_frequency.
  cbn [num_add num_sub num_mul num_div num_of_Z PyNumber_Qc].
  rewrite Nat2Z.inj_succ. unfold Z.succ. rewrite Qc_of_Z_succ.
  assert (H2 : Q2Qc (inject_Z 2) = (1 + 1)%Qc) by (apply Qc_is_canon; reflexivity).
  rewrite H2. field. discriminate.
Qed.

Lemma float_same_eq (x y : float64) : float_same x y = true -> x = y.
Proof.
  destruct x as [a|a| |a m e], y as [b|b| |b m' e']; cbn [float_same];
    try discriminate; try reflexivity.
  - intros H. apply Bool.eqb_prop in H. subst. reflexivity.
  - intros H. apply Bool.eqb_prop in H. subst. reflexivity.
  - intros H. apply andb_prop in H. destruct H as [H He].
    apply andb_prop in H. destruct H as [Hs Hm].
    apply Bool.eqb_prop in Hs. apply Pos.eqb_eq in Hm. apply Z.eqb_eq in He.
    subst. reflexivity.
Qed.

(** In binary64 the two edges are the same float for every spacing that
    is a whole number of quarters of a GHz up to 100 GHz: nothing is
    rounded.  Checked on the 400 spacings and the 95 pairs of each. *)
Lemma quarter_GHz_table :
  forallb (fun k : nat =>
             let s := quarter_GHz (Z.of_nat k) in
             forallb (fun i => float_same (passband_end s s i)
                                          (passband_start s s (S i)))
                     (seq 0 95))
          (seq 1 400) = true.
Proof. vm_compute. reflexivity. Qed.

Lemma passband_gapless_binary64 (k : Z) (i : nat) :
  1 <= k <= 400 -> (i < 95)%nat ->
  passband_end (quarter_GHz k) (quarter_GHz k) i =
  passband_start (quarter_GHz k) (quarter_GHz k) (S i).
Proof.
  intros Hk Hi. pose proof quarter_GHz_table as T.
  rewrite forallb_forall in T.
  specialize (T (Z.to_nat k) ltac:(apply in_seq; lia)).
  cbv zeta in T. rewrite Z2Nat.id in T by lia.
  rewrite forallb_forall in T.
  apply float_same_eq. apply T. apply in_seq. lia.
Qed.

Lemma div_half_even_pow2_eq (a : Z) (p : positive) :
  div_half_even a (2 ^ Z.pos p) = div_half_even_pow2 a p.
Proof.
  unfold div_half_even, div_half_even_pow2.
  rewrite Z.shiftr_div_pow2 by lia. rewrite Z.land_ones by lia. reflexivity.
Qed.

Lemma printed_digits_str (x : float64) (s : bool) (d decpt : Z) :
  printed_digits x = Some (s, d, decpt) ->
  py_str_float x =
  String.append (if s then "-" else "")
                (format_g (strip_trailing_zeros (str_int d)) decpt).
Proof.
  destruct x as [| | |s0 m [|e|p]]; try discriminate.
  unfold printed_digits.
  set (q := Z.shiftr (Z.pos m) (Z.pos p)).
  set (c := Z.of_nat (String.length (str_int q))).
  destruct ((0 <? q) && (c <=? 12)) eqn:Hq; [|discriminate].
  apply andb_prop in Hq. destruct Hq as [Hq Hc].
  apply Z.ltb_lt in Hq. apply Z.leb_le in Hc.
  set (d0 := div_half_even_pow2 (Z.pos m * 10 ^ (12 - c)) p).
  destruct (d0 =? 10 ^ 12) eqn:Hd; [discriminate|].
  intros [= <- <- <-].
  assert (Eq : Z.pos m / 2 ^ Z.pos p = q)
    by (unfold q; rewrite Z.shiftr_div_pow2 by lia; reflexivity).
  assert (Hden : (2 ^ Z.pos p <=? Z.pos m) = true).
  { apply Z.leb_le. destruct (Z.lt_ge_cases (Z.pos m) (2 ^ Z.pos p)) as [Hlt|Hge];
      [|exact Hge].
    rewrite Z.div_small in Eq by lia. lia. }
  unfold py_str_float, significant_12, decimal_point.
  rewrite Hden, Eq. fold c.
  assert (Hs : (0 <=? 12 - c) = true) by (apply Z.leb_le; lia).
  rewrite Hs. rewrite div_half_even_pow2_eq. fold d0. rewrite Hd. reflexivity.
Qed.

Lemma same_digits_eq (a b : bool * Z * Z) : same_digits a b = true -> a = b.
Proof.
  destruct a as [[s d] c], b as [[s' d'] c']. unfold same_digits.
  intros H. apply andb_prop in H. destruct H as [H Hc].
  apply andb_prop in H. destruct H as [Hs Hd].
  apply Bool.eqb_prop in Hs. apply Z.eqb_eq in Hd. apply Z.eqb_eq in Hc.
  subst. reflexivity.
Qed.

Lemma edges_meet_nth (half : float64) (centers : list float64) :
  edges_meet half centers = true ->
  forall (i : nat) (c c' : float64),
    nth_error centers i = Some c -> nth_error centers (S i) = Some c' ->
    py_str_float (fadd c half) = py_str_float (fsub c' half).
Proof.
  induction centers as [|c0 rest IH]; intros Hm i c c' Hc Hc'.
  - destruct i; discriminate Hc.
  - destruct rest as [|c1 rest']; [destruct i; discriminate Hc'|].
    cbn [edges_meet] in Hm.
    destruct (printed_digits (fadd c0 half)) as [a|] eqn:Ha; [|discriminate].
    destruct (printed_digits (fsub c1 half)) as [b|] eqn:Hb; [|discriminate].
    apply andb_prop in Hm. destruct Hm as [Hab Hrest].
    destruct i as [|i].
    + cbn [nth_error] in Hc, Hc'. injection Hc as <-. injection Hc' as <-.
      apply same_digits_eq in Hab. subst b. destruct a as [[s d] decpt].
      rewrite (printed_digits_str _ _ _ _ Ha), (printed_digits_str _ _ _ _ Hb).
      reflexivity.
    + apply (IH Hrest i); assumption.
Qed.

Lemma grid_meets_edges (spacing : float64) (i : nat) :
  grid_meets spacing = true -> (i < 95)%nat ->
  py_str_float (passband_end spacing spacing i) =
  py_str_float (passband_start spacing spacing (S i)).
Proof.
  intros Hm Hi. unfold grid_meets in Hm.
  apply (edges_meet_nth _ _ Hm i).
  - rewrite nth_error_map, nth_error_seq_lt by lia. reflexivity.
  - rewrite nth_error_map, nth_error_seq_lt by lia. reflexivity.
Qed.

(** The two edges are printed alike for every spacing that is a whole
    number of tenths of a GHz up to 100 GHz, though most of these are not
    binary fractions and the two floats differ.  Checked on the 1000
    spacings and the 95 pairs of each. *)
Lemma tenth_GHz_table :
  forallb (fun k : nat => grid_meets (tenth_GHz (Z.of_nat k))) (seq 1 1000) = true.
Proof. vm_cast_no_check (eq_refl true). Qed.

Lemma passband_gapless_tenths (k : Z) (i : nat) :
  1 <= k <= 1000 -> (i < 95)%nat ->
  py_str_float (passband_end (tenth_GHz k) (tenth_GHz k) i) =
  py_str_float (passband_start (tenth_GHz k) (tenth_GHz k) (S i)).
Proof.
  intros Hk Hi. pose proof tenth_GHz_table as T.
  rewrite forallb_forall in T.
  specialize (T (Z.to_nat k) ltac:(apply in_seq; lia)).
  cbv beta in T. rewrite Z2Nat.id in T by lia.
  apply grid_meets_edges; assumption.
Qed.




(** The edges of the default grid are the rational ones. *)
Lemma default_grid_binary64_exact :
  map (fun i => Qred (exact_Q (passband_start (float_of_Z 50) (float_of_Z 50) i)))
      (seq 0 96) =
  map (fun i => this (passband_start (Q2Qc 50) (Q2Qc 50) i)) (seq 0 96) /\
  map (fun i => Qred (exact_Q (passband_end (float_of_Z 50) (float_of_Z 50) i)))
      (seq 0 96) =
  map (fun i => this (passband_end (Q2Qc 50) (Q2Qc 50) i)) (seq 0 96).
Proof. split; vm_compute; reflexivity. Qed.

(** ** The Lumentum client and errors *)

Lemma getitem_ok (v : pyval) (k : string) (x : pyval) :
  getitem v k = Ok x -> exists d, v = PDict d /\ assoc k d = Some x.
Proof.
  destruct v as [|s|l|d]; cbn [getitem]; try discriminate.
  destruct (assoc k d) as [y|] eqn:E; [|discriminate].
  intros [= <-]. exists d. split; [reflexivity | exact E].
Qed.

Lemma map_result_ok {A B} (f : A -> result B) (l : list A) (ys : list B) :
  map_result f l = Ok ys -> forall a, In a l -> exists b, f a = Ok b.
Proof.
  revert ys. induction l as [|x l IH]; intros ys Hok a Ha; [destruct Ha|].
  cbn [map_result] in Hok.
  destruct (f x) as [b|e] eqn:Ex; [|discriminate Hok].
  cbn [rbind] in Hok.
  destruct (map_result f l) as [bs|e] eqn:El; [|discriminate Hok].
  destruct Ha as [<-|Ha]; [exists b; exact Ex|].
  eapply IH; [reflexivity | exact Ha].
Qed.

(** A record that is converted has every field that is read from it. *)
Lemma status_of_detail_fields (record : pyval) (st : WSSConnectionStatus) :
  Lumentum.status_of_detail record = Ok st ->
  forall path, In path required_fields -> lookup_path record path <> None.
Proof.
  unfold Lumentum.status_of_detail. intros H.
  cbv zeta beta in H.
  destruct (getitem record "dn") as [dn|] eqn:Edn; [|discriminate H].
  cbn [rbind] in H.
  destruct (split_index dn ";" 3) as [p3|]; [|discriminate H]. cbn [rbind] in H.
  destruct (split_index (PStr p3) "=" 1) as [v3|]; [|discriminate H]. cbn [rbind] in H.
  destruct (split_index dn ";" 4) as [p4|]; [|discriminate H]. cbn [rbind] in H.
  destruct (split_index (PStr p4) "=" 1) as [v4|]; [|discriminate H]. cbn [rbind] in H.
  destruct (getitem record "config") as [config|] eqn:Ecfg; [|discriminate H].
  cbn [rbind] in H.
  destruct (getitem config "maintenance-state") as [f1|] eqn:E1; [|discriminate H].
  cbn [rbind] in H.
  destruct (getitem config "blocked") as [f2|] eqn:E2; [|discriminate H].
  cbn [rbind] in H.
  destruct (getitem config "input-port-reference") as [f3|] eqn:E3; [|discriminate H].
  cbn [rbind] in H.
  destruct (split_index f3 "port=" 1) as [q3|]; [|discriminate H]. cbn [rbind] in H.
  destruct (getitem config "output-port-reference") as [f4|] eqn:E4; [|discriminate H].
  cbn [rbind] in H.
  destruct (split_index f4 "port=" 1) as [q4|]; [|discriminate H]. cbn [rbind] in H.
  destruct (getitem config "start-freq") as [f5|] eqn:E5; [|discriminate H].
  cbn [rbind] in H.
  destruct (getitem config "end-freq") as [f6|] eqn:E6; [|discriminate H].
  cbn [rbind] in H.
  destruct (getitem config "attenuation") as [f7|] eqn:E7; [|discriminate H].
  cbn [rbind] in H.
  destruct (getitem config "custom-name") as [f8|] eqn:E8; [|discriminate H].
  cbn [rbind] in H.
  destruct (getitem record "state") as [state|] eqn:Est; [|discriminate H].
  cbn [rbind] in H.
  destruct (getitem state "input-channel-attributes") as [ia|] eqn:Eia; [|discriminate H].
  cbn [rbind] in H.
  destruct (getitem ia "power") as [ip|] eqn:Eip; [|discriminate H].
  cbn [rbind] in H.
  destruct (getitem state "output-channel-attributes") as [oa|] eqn:Eoa; [|discriminate H].
  cbn [rbind] in H.
  destruct (getitem oa "power") as [op|] eqn:Eop; [|discriminate H].
  clear H.
  apply getitem_ok in Edn, Ecfg, Est.
  destruct Edn as [d [-> Hdn]], Ecfg as [d' [[= <-] Hcfg]], Est as [d' [[= <-] Hst]].
  apply getitem_ok in E1, E2, E3, E4, E5, E6, E7, E8, Eia, Eoa.
  destruct E1 as [c [-> H1]], E2 as [c' [[= <-] H2]], E3 as [c' [[= <-] H3]],
    E4 as [c' [[= <-] H4]], E5 as [c' [[= <-] H5]], E6 as [c' [[= <-] H6]],
    E7 as [c' [[= <-] H7]], E8 as [c' [[= <-] H8]].
  destruct Eia as [s [-> Hia]], Eoa as [s' [[= <-] Hoa]].
  apply getitem_ok in Eip, Eop.
  destruct Eip as [a [-> Hip]], Eop as [b [-> Hop]].
  intros path Hin. cbn [required_fields In] in Hin.
  repeat (destruct Hin as [<-|Hin];
          [cbn [lookup_path];
           repeat match goal with
           | E : assoc ?k ?d = Some _ |- context [assoc ?k ?d] => rewrite E
           end; cbn [lookup_path]; discriminate |]).
  destruct Hin.
Qed.

Lemma from_connection_details_records (doc : pyval) :
  Lumentum.from_connection_details doc =
  rbind (reply_records doc) (map_result Lumentum.status_of_detail).
Proof.
  unfold Lumentum.from_connection_details, reply_records.
  destruct (getitem doc "data") as [data|]; [cbn [rbind] | reflexivity].
  destruct (getitem data "connections") as [cs|]; [cbn [rbind] | reflexivity].
  destruct (getitem cs "connection") as [ds|]; [cbn [rbind] | reflexivity].
  destruct (py_iter ds) as [items|]; reflexivity.
Qed.

Lemma wss_get_connections_ok (doc : pyval) :
  Lumentum.wss_get_connections (Ok doc) =
  ([Rpc Get_connections], Lumentum.from_connection_details doc).
Proof.
  unfold Lumentum.wss_get_connections, ret, lift, emit, bind.
  destruct (Lumentum.from_connection_details doc); reflexivity.
Qed.




Example wss_get_connections_missing_blocked :
  let record :=
    PDict [("dn", PStr "ne=1;chassis=1;card=1;module=2;connection=48");
           ("config", PDict [("maintenance-state", PStr "in-service")])] in
  let doc :=
    PDict [("data", PDict [("connections",
                            PDict [("connection", PList [record])])])] in
  outcome (Lumentum.wss_get_connections (Ok doc)) = Raise KeyError.
Proof. reflexivity. Qed.

(** ** Searching a text for a pattern *)

Lemma append_nil_r (s : string) : String.append s "" = s.
Proof. induction s as [|c s IH]; cbn; [reflexivity | rewrite IH; reflexivity]. Qed.

Lemma append_assoc (a b c : string) :
  String.append (String.append a b) c = String.append a (String.append b c).
Proof. induction a as [|x a IH]; cbn; [reflexivity | rewrite IH; reflexivity]. Qed.

Lemma length_append (a b : string) :
  String.length (String.append a b) = (String.length a + String.length b)%nat.
Proof. induction a as [|x a IH]; cbn; [reflexivity | rewrite IH; reflexivity]. Qed.

Lemma take_append (tok rest : string) :
  take (String.length (String.append tok rest) - String.length rest)
       (String.append tok rest) = tok.
Proof.
  rewrite length_append.
  replace (String.length tok + String.length rest - String.length rest)%nat
    with (String.length tok) by lia.
  induction tok as [|c tok IH]; cbn.
  - destruct rest; reflexivity.
  - rewrite IH. reflexivity.
Qed.

Lemma many1_ends_iff (p : ascii -> bool) (s rest : string) :
  In rest (many1_ends p s) <->
  exists tok, s = String.append tok rest /\ matches (Many1 p) tok.
Proof.
  revert rest. induction s as [|c s IH]; intros rest; cbn [many1_ends].
  - split; [intros []|].
    intros [tok [E M]]. inversion M; subst; discriminate E.
  - destruct (p c) eqn:Hc.
    + rewrite in_app_iff, IH. split.
      * intros [[tok [-> M]]|[<-|[]]].
        -- exists (String c tok). split; [reflexivity|].
           apply matches_many1_more; assumption.
        -- exists (String c ""). split; [reflexivity|].
           apply matches_many1_last; assumption.
      * intros [tok [E M]]. inversion M; subst; cbn in E; injection E as <- ->.
        -- right. left. reflexivity.
        -- left. eexists. split; [reflexivity | assumption].
    + split; [intros []|].
      intros [tok [E M]]. inversion M; subst; cbn in E; injection E as <- _;
        congruence.
Qed.

(** [ends] lists exactly the ways to match at the front of the text. *)
Lemma ends_iff (r : regex) (s rest : string) :
  In rest (ends r s) <->
  exists tok, s = String.append tok rest /\ matches r tok.
Proof.
  revert s rest. induction r as [p|r1 IH1 r2 IH2|r IH|p]; intros s rest; cbn [ends].
  - destruct s as [|c s].
    + split; [intros []|]. intros [tok [E M]]. inversion M; subst; discriminate E.
    + destruct (p c) eqn:Hc.
      * split.
        -- intros [<-|[]]. exists (String c ""). split; [reflexivity|].
           apply matches_class; assumption.
        -- intros [tok [E M]]. inversion M; subst. cbn in E.
           injection E as <- ->. left. reflexivity.
      * split; [intros []|]. intros [tok [E M]]. inversion M; subst. cbn in E.
        injection E as <- _. congruence.
  - rewrite in_flat_map. split.
    + intros [mid [H1 H2]]. apply IH1 in H1. apply IH2 in H2.
      destruct H1 as [t1 [-> M1]], H2 as [t2 [-> M2]].
      exists (String.append t1 t2). split; [symmetry; apply append_assoc|].
      apply matches_seq; assumption.
    + intros [tok [E M]]. inversion M as [|? ? t1 t2 M1 M2| | | |]; subst.
      exists (String.append t2 rest). split.
      * apply IH1. exists t1. split; [apply append_assoc | assumption].
      * apply IH2. exists t2. split; [reflexivity | assumption].
  - rewrite in_app_iff, IH. split.
    + intros [[tok [-> M]]|[<-|[]]].
      * exists tok. split; [reflexivity | apply matches_maybe; assumption].
      * exists "". split; [reflexivity | apply matches_maybe_not].
    + intros [tok [E M]]. inversion M; subst.
      * left. exists tok. split; [reflexivity | assumption].
      * right. left. reflexivity.
  - apply many1_ends_iff.
Qed.

Lemma search_head (r : regex) (s rest : string) (l : list string) :
  ends r s = rest :: l ->
  matches r (take (String.length s - String.length rest) s) /\
  occurs (take (String.length s - String.length rest) s) s.
Proof.
  intros E.
  assert (Hin : In rest (ends r s)) by (rewrite E; left; reflexivity).
  apply ends_iff in Hin. destruct Hin as [t [-> M]].
  rewrite take_append. split; [exact M|]. exists "", rest. reflexivity.
Qed.

Lemma search_some (r : regex) (s tok : string) :
  search r s = Some tok -> matches r tok /\ occurs tok s.
Proof.
  induction s as [|c s IH]; cbn [search].
  - destruct (ends r "") as [|rest l] eqn:E; [discriminate|].
    intros [= <-]. apply (search_head r "" rest l E).
  - destruct (ends r (String c s)) as [|rest l] eqn:E.
    + intros H. destruct (IH H) as [M [b [a ->]]].
      split; [exact M|]. exists (String c b), a. reflexivity.
    + intros [= <-]. apply (search_head r (String c s) rest l E).
Qed.

Lemma search_none (r : regex) (s : string) :
  search r s = None -> forall tok, occurs tok s -> ~ matches r tok.
Proof.
  induction s as [|c s IH]; cbn [search].
  - destruct (ends r "") as [|rest l] eqn:E; [|discriminate].
    intros _ tok [b [a Hs]] M.
    destruct b; [|discriminate Hs]. cbn in Hs.
    assert (Hin : In a (ends r "")) by (apply ends_iff; exists tok; split; assumption).
    rewrite E in Hin. destruct Hin.
  - destruct (ends r (String c s)) as [|rest l] eqn:E; [|discriminate].
    intros H tok [b [a Hs]] M. destruct b as [|x b].
    + cbn in Hs.
      assert (Hin : In a (ends r (String c s)))
        by (apply ends_iff; exists tok; split; assumption).
      rewrite E in Hin. destruct Hin.
    + cbn in Hs. injection Hs as _ ->.
      apply (IH H tok); [exists b, a; reflexivity | exact M].
Qed.

Lemma search_field (r : regex) (s : string) : field_of r s (search r s).
Proof.
  destruct (search r s) as [tok|] eqn:E; cbn [field_of].
  - apply search_some. exact E.
  - apply search_none. exact E.
Qed.

Lemma matches_literal (c : ascii) (s tok : string) :
  matches (literal c s) tok <-> tok = String c s.
Proof.
  revert c tok. induction s as [|c' s IH]; intros c tok; cbn [literal].
  - split.
    + intros M. inversion M as [p x Hx| | | | |]; subst.
      unfold just in Hx. apply Ascii.eqb_eq in Hx. subst. reflexivity.
    + intros ->. apply matches_class. unfold just. apply Ascii.eqb_refl.
  - split.
    + intros M. inversion M as [|? ? t1 t2 M1 M2| | | |]; subst.
      inversion M1 as [p x Hx| | | | |]; subst.
      unfold just in Hx. apply Ascii.eqb_eq in Hx. subst.
      apply IH in M2. subst. reflexivity.
    + intros ->. change (String c (String c' s))
        with (String.append (String c "") (String c' s)).
      apply matches_seq; [|apply IH; reflexivity].
      apply matches_class. unfold just. apply Ascii.eqb_refl.
Qed.

(** The tokens of the second and third pattern: the tag, then a signed
    decimal number. *)
Lemma matches_tagged (c : ascii) (tag tok : string) :
  matches (Seq (literal c tag) Calient.signed_float) tok <->
  exists number,
    tok = String.append (String c tag) number /\
    matches Calient.signed_float number.
Proof.
  split.
  - intros M. inversion M as [|? ? t1 t2 M1 M2| | | |]; subst.
    apply matches_literal in M1. subst. exists t2. split; [reflexivity | exact M2].
  - intros [number [-> M]]. apply matches_seq; [|exact M].
    apply matches_literal. reflexivity.
Qed.

(** C7: whatever text the switch returns, [get_crs_power] returns
    normally a list of at most three entries, in this order: a piece of
    the text that matches the cross-connect pattern, one that matches
    [INPWR=] and a signed decimal, one that matches [OUTPWR=] and a signed
    decimal; an entry is left out exactly when no piece of the text
    matches its pattern. *)
Theorem get_crs_power_fields (port port_data : string) :
  exists crs input_power output_power : option string,
    outcome (Calient.get_crs_power port port_data) =
    Ok (optional crs ++ optional input_power ++ optional output_power) /\
    (List.length (optional crs ++ optional input_power ++ optional output_power)
     <= 3)%nat /\
    field_of Calient.pattern1 port_data crs /\
    field_of Calient.pattern2 port_data input_power /\
    field_of Calient.pattern3 port_data output_power /\
    tagged_field "INPWR=" Calient.signed_float input_power /\
    tagged_field "OUTPWR=" Calient.signed_float output_power.
Proof.
  exists (search Calient.pattern1 port_data), (search Calient.pattern2 port_data),
    (search Calient.pattern3 port_data).
  split; [|split; [|split; [|split; [|split; [|split]]]]];
    try apply search_field.
  - cbn. unfold Calient.crs_power_fields.
    destruct (search Calient.pattern1 port_data),
      (search Calient.pattern2 port_data),
      (search Calient.pattern3 port_data); reflexivity.
  - destruct (search Calient.pattern1 port_data),
      (search Calient.pattern2 port_data),
      (search Calient.pattern3 port_data); cbn; lia.
  - intros tok E. apply search_some in E. destruct E as [M _].
    apply (matches_tagged "I" "NPWR="). exact M.
  - intros tok E. apply search_some in E. destruct E as [M _].
    apply (matches_tagged "O" "UTPWR="). exact M.
Qed.

Example get_crs_power_full :
  Calient.crs_power_fields "1.2.4>5.8.6 INPWR=-12.33 OUTPWR=+3.1" =
  ["1.2.4>5.8.6"; "INPWR=-12.33"; "OUTPWR=+3.1"].
Proof. reflexivity. Qed.

Example get_crs_power_short :
  Calient.crs_power_fields "1.2.4>5.8.6 no power" = ["1.2.4>5.8.6"].
Proof. reflexivity. Qed.

(** ** The retry loops of the power checks *)

Section PowerCheckFacts.

Variable responses : nat -> string.

Let reading (k : nat) : list string := Calient.crs_power_fields (responses k).

Lemma tx_power_loop_step (fuel k : nat) (power_reading : list string) (count : Z) :
  tx_power_loop responses (S fuel) k power_reading count =
  if len power_reading <=? 1 then
    if count + 1 =? 5 then
      (tx_cycle ++ operator_exit POWER_CHECK_PORT_TELEMETRY_TX,
       Ok (Some (S (S k), reading (S k))))
    else
      (tx_cycle ++ fst (tx_power_loop responses fuel (S k) (reading k) (count + 1)),
       snd (tx_power_loop responses fuel (S k) (reading k) (count + 1)))
  else ([], Ok (Some (k, power_reading))).
Proof.
  cbn [tx_power_loop].
  destruct (len power_reading <=? 1); [|reflexivity].
  unfold poll. cbn.
  destruct (count + 1 =? 5); [reflexivity|].
  destruct (tx_power_loop responses fuel (S k) _ (count + 1)). reflexivity.
Qed.

Lemma drop_power_loop_step (fuel k : nat) (power_reading : list string) (count : Z) :
  drop_power_loop responses (S fuel) k power_reading count =
  if len power_reading =? 1 then
    if count + 1 =? 10 then
      (drop_cycle ++ operator_exit POWER_CHECK_PORT,
       Ok (Some (S (S k), reading (S k))))
    else
      (drop_cycle ++ fst (drop_power_loop responses fuel (S k) (reading k) (count + 1)),
       snd (drop_power_loop responses fuel (S k) (reading k) (count + 1)))
  else ([], Ok (Some (k, power_reading))).
Proof.
  cbn [drop_power_loop].
  destruct (len power_reading =? 1); [|reflexivity].
  unfold poll. cbn.
  destruct (count + 1 =? 10); [reflexivity|].
  destruct (drop_power_loop responses fuel (S k) _ (count + 1)). reflexivity.
Qed.

(** The loop of step 1.4 entered [n] turns before its cap, with the
    reading of poll [b] in hand: it makes [j <= n] turns, one for each
    short reading, and leaves through the operator prompt when [j = n]. *)
Lemma tx_power_loop_from (n : nat) :
  forall fuel b : nat,
    (n <= fuel)%nat -> (1 <= n)%nat ->
    exists j : nat,
      (j <= n)%nat /\
      (forall i, (i < j)%nat -> len (reading (b + i)) <= 1) /\
      ((j < n)%nat -> 1 < len (reading (b + j))) /\
      tx_power_loop responses fuel (S b) (reading b) (5 - Z.of_nat n) =
      (List.concat (repeat tx_cycle j) ++
       (if (j =? n)%nat then operator_exit POWER_CHECK_PORT_TELEMETRY_TX else []),
       Ok (Some (if (j =? n)%nat
                 then (S (S (b + n)), reading (S (b + n)))
                 else (S (b + j), reading (b + j))))).
Proof.
  induction n as [|n IH]; intros fuel b Hfuel Hn; [lia|].
  destruct fuel as [|fuel]; [lia|].
  rewrite tx_power_loop_step.
  destruct (Z.leb_spec (len (reading b)) 1) as [Hshort|Hlong].
  - destruct (Z.eqb_spec (5 - Z.of_nat (S n) + 1) 5) as [Hcap|Hcap].
    + assert (n = 0%nat) by lia. subst n.
      exists 1%nat. split; [lia|]. split.
      * intros i Hi. replace i with 0%nat by lia. rewrite Nat.add_0_r. exact Hshort.
      * split; [lia|].
        cbn [Nat.eqb repeat List.concat]. rewrite app_nil_r, Nat.add_1_r. reflexivity.
    + replace (5 - Z.of_nat (S n) + 1) with (5 - Z.of_nat n) by lia.
      destruct (IH fuel (S b) ltac:(lia) ltac:(lia)) as [j [Hj [Hbefore [Hat E]]]].
      rewrite E. cbn [fst snd].
      exists (S j). split; [lia|]. split.
      * intros i Hi. destruct i as [|i].
        -- rewrite Nat.add_0_r. exact Hshort.
        -- replace (b + S i)%nat with (S b + i)%nat by lia. apply Hbefore. lia.
      * split.
        -- intros Hlt. replace (b + S j)%nat with (S b + j)%nat by lia.
           apply Hat. lia.
        -- cbn [Nat.eqb repeat List.concat]. rewrite <- app_assoc.
           replace (b + S n)%nat with (S b + n)%nat by lia.
           replace (b + S j)%nat with (S b + j)%nat by lia.
           reflexivity.
  - exists 0%nat. split; [lia|]. split; [intros i Hi; lia|]. split.
    + intros _. rewrite Nat.add_0_r. exact Hlong.
    + cbn [Nat.eqb repeat List.concat app]. rewrite Nat.add_0_r. reflexivity.
Qed.

(** The same for the loop of step 1.5, whose condition is a reading of
    exactly one field and whose cap is 10. *)
Lemma drop_power_loop_from (n : nat) :
  forall fuel b : nat,
    (n <= fuel)%nat -> (1 <= n)%nat ->
    exists j : nat,
      (j <= n)%nat /\
      (forall i, (i < j)%nat -> len (reading (b + i)) = 1) /\
      ((j < n)%nat -> len (reading (b + j)) <> 1) /\
      drop_power_loop responses fuel (S b) (reading b) (10 - Z.of_nat n) =
      (List.concat (repeat drop_cycle j) ++
       (if (j =? n)%nat then operator_exit POWER_CHECK_PORT else []),
       Ok (Some (if (j =? n)%nat
                 then (S (S (b + n)), reading (S (b + n)))
                 else (S (b + j), reading (b + j))))).
Proof.
  induction n as [|n IH]; intros fuel b Hfuel Hn; [lia|].
  destruct fuel as [|fuel]; [lia|].
  rewrite drop_power_loop_step.
  destruct (Z.eqb_spec (len (reading b)) 1) as [Hshort|Hlong].
  - destruct (Z.eqb_spec (10 - Z.of_nat (S n) + 1) 10) as [Hcap|Hcap].
    + assert (n = 0%nat) by lia. subst n.
      exists 1%nat. split; [lia|]. split.
      * intros i Hi. replace i with 0%nat by lia. rewrite Nat.add_0_r. exact Hshort.
      * split; [lia|].
        cbn [Nat.eqb repeat List.concat]. rewrite app_nil_r, Nat.add_1_r. reflexivity.
    + replace (10 - Z.of_nat (S n) + 1) with (10 - Z.of_nat n) by lia.
      destruct (IH fuel (S b) ltac:(lia) ltac:(lia)) as [j [Hj [Hbefore [Hat E]]]].
      rewrite E. cbn [fst snd].
      exists (S j). split; [lia|]. split.
      * intros i Hi. destruct i as [|i].
        -- rewrite Nat.add_0_r. exact Hshort.
        -- replace (b + S i)%nat with (S b + i)%nat by lia. apply Hbefore. lia.
      * split.
        -- intros Hlt. replace (b + S j)%nat with (S b + j)%nat by lia.
           apply Hat. lia.
        -- cbn [Nat.eqb repeat List.concat]. rewrite <- app_assoc.
           replace (b + S n)%nat with (S b + n)%nat by lia.
           replace (b + S j)%nat with (S b + j)%nat by lia.
           reflexivity.
  - exists 0%nat. split; [lia|]. split; [intros i Hi; lia|]. split.
    + intros _. rewrite Nat.add_0_r. exact Hlong.
    + cbn [Nat.eqb repeat List.concat app]. rewrite Nat.add_0_r. reflexivity.
Qed.

End PowerCheckFacts.

(** C2, as the code has it.  In the check of step 1.4 every reading of
    fewer than two fields is followed by exactly one turn of the loop
    (delete and add the telemetry Tx cross-connect, sleep 5 s, poll), for at
    most 4 turns: the turn that brings the count to 5 ends with a prompt
    to the operator and one more poll, and the loop is left.  In the check
    of step 1.5 every reading of exactly one field is followed by one turn
    (sleep 5 s, poll), for at most 9 turns, with the same exit when the
    count is 10.  Neither loop raises, and 4 (9) units of fuel or more let
    it return. *)
Theorem power_check_loops_bounded (responses : nat -> string) (extra : nat) :
  let reading := fun k : nat => Calient.crs_power_fields (responses k) in
  (exists j : nat,
      (j <= 4)%nat /\
      (forall i, (i < j)%nat -> len (reading i) <= 1) /\
      ((j < 4)%nat -> 1 < len (reading j)) /\
      tx_power_loop responses (4 + extra) 1 (reading 0%nat) 1 =
      (List.concat (repeat tx_cycle j) ++
       (if (j =? 4)%nat then operator_exit POWER_CHECK_PORT_TELEMETRY_TX else []),
       Ok (Some (if (j =? 4)%nat then (6%nat, reading 5%nat)
                 else (S j, reading j))))) /\
  (exists j : nat,
      (j <= 9)%nat /\
      (forall i, (i < j)%nat -> len (reading i) = 1) /\
      ((j < 9)%nat -> len (reading j) <> 1) /\
      drop_power_loop responses (9 + extra) 1 (reading 0%nat) 1 =
      (List.concat (repeat drop_cycle j) ++
       (if (j =? 9)%nat then operator_exit POWER_CHECK_PORT else []),
       Ok (Some (if (j =? 9)%nat then (11%nat, reading 10%nat)
                 else (S j, reading j))))).
Proof.
  intros reading. split.
  - destruct (tx_power_loop_from responses 4 (4 + extra) 0 ltac:(lia) ltac:(lia))
      as [j H].
    exists j. exact H.
  - destruct (drop_power_loop_from responses 9 (9 + extra) 0 ltac:(lia) ltac:(lia))
      as [j H].
    exists j. exact H.
Qed.

(** C2 as stated fails on the code.  When the switch never reports a
    power, the check of step 1.4 makes its 4 turns, prompts the operator,
    polls and goes on to [power_reading[1]], which raises [IndexError]:
    no timeout error is reported.  And a reading of no field at all starts
    no turn of the loop of step 1.5. *)
Lemma power_check_loops_counterexample :
  (let responses := fun _ : nat => "1.2.4>5.8.6" in
   len (Calient.crs_power_fields (responses 0%nat)) < 2 /\
   outcome (tx_power_check responses 4) = Raise IndexError /\
   In (RawInput LASER_PROMPT) (trace (tx_power_check responses 4)) /\
   Raise (A:=option string) IndexError <> Raise (PyExn "ConvergenceTimeoutError")) /\
  (let responses := fun _ : nat => "" in
   len (Calient.crs_power_fields (responses 0%nat)) < 2 /\
   drop_power_loop responses 9 1 (Calient.crs_power_fields (responses 0%nat)) 1 =
   ([], Ok (Some (1%nat, [])))).
Proof.
  split; cbv zeta.
  - split; [reflexivity|]. split; [vm_compute; reflexivity|].
    split; [|discriminate].
    vm_compute. repeat (first [left; reflexivity | right]).
  - split; reflexivity.
Qed.

(** ** Peak and idle voltage *)

Lemma len_zero_iff {A} (l : list A) : (len l =? 0) = true <-> l = [].
Proof.
  unfold len. destruct l as [|a l]; cbn [List.length].
  - split; reflexivity.
  - split; [|discriminate]. intros H. apply Z.eqb_eq in H. lia.
Qed.

Lemma mean_raises_iff (data : list float64) :
  mean data = Raise ZeroDivisionError <-> data = [].
Proof.
  unfold mean. destruct (len data =? 0) eqn:E.
  - apply len_zero_iff in E. split; [intros _; exact E | reflexivity].
  - split; [discriminate|]. intros ->. discriminate E.
Qed.

Lemma mean_of_nonempty (data : list float64) :
  data <> [] -> mean data = Ok (fdiv (py_sum data) (float_of_Z (len data))).
Proof.
  intros Hne. unfold mean. destruct (len data =? 0) eqn:E; [|reflexivity].
  apply len_zero_iff in E. contradiction.
Qed.

Lemma filter_nil_iff {A} (f : A -> bool) (l : list A) :
  filter f l = [] <-> forall x, In x l -> f x = false.
Proof.
  induction l as [|a l IH]; cbn [filter].
  - split; [intros _ x [] | reflexivity].
  - destruct (f a) eqn:Ea.
    + split; [discriminate|]. intros H. rewrite (H a) in Ea by (left; reflexivity).
      discriminate Ea.
    + rewrite IH. split.
      * intros H x [<-|Hx]; [exact Ea | apply H; exact Hx].
      * intros H x Hx. apply H. right. exact Hx.
Qed.

(** C10: [calculate_peak_voltage] divides by the number of samples
    strictly above the trigger level and [calculate_idle_voltage] by the
    number strictly below it, so each raises [ZeroDivisionError] exactly
    when no sample lies strictly on its side; the loop that guards the
    capture lets through every capture whose maximum is not below and
    whose minimum is not above the trigger level; so a capture that passes
    the guard and has no sample strictly below the trigger level makes the
    sampling step raise [ZeroDivisionError]. *)
Theorem capture_voltages_division
    (data : list float64) (trigger_level idle peak : float64) (fuel : nat) :
  let above := filter (fun x => flt trigger_level x) data in
  let below := filter (fun x => flt x trigger_level) data in
  (calculate_peak_voltage data trigger_level = Raise ZeroDivisionError <->
   forall x, In x data -> flt trigger_level x = false) /\
  (above <> [] ->
   calculate_peak_voltage data trigger_level =
   Ok (fdiv (py_sum above) (float_of_Z (len above)))) /\
  (calculate_idle_voltage data trigger_level = Raise ZeroDivisionError <->
   forall x, In x data -> flt x trigger_level = false) /\
  (below <> [] ->
   calculate_idle_voltage data trigger_level =
   Ok (fdiv (py_sum below) (float_of_Z (len below)))) /\
  (capture_rejected peak idle trigger_level = false <->
   flt peak trigger_level = false /\ flt trigger_level idle = false) /\
  (py_min data = Ok idle -> py_max data = Ok peak ->
   capture_rejected peak idle trigger_level = false ->
   (forall x, In x data -> flt x trigger_level = false) ->
   take_sample (fun _ => data) trigger_level fuel =
   ([Scope "getCH1NewData()"], Raise ZeroDivisionError)).
Proof.
  intros above below.
  split; [|split; [|split; [|split; [|split]]]].
  - unfold calculate_peak_voltage. rewrite mean_raises_iff. apply filter_nil_iff.
  - intros Hne. unfold calculate_peak_voltage. apply mean_of_nonempty. exact Hne.
  - unfold calculate_idle_voltage. rewrite mean_raises_iff. apply filter_nil_iff.
  - intros Hne. unfold calculate_idle_voltage. apply mean_of_nonempty. exact Hne.
  - unfold capture_rejected. apply orb_false_iff.
  - intros Hmin Hmax Hguard Hnone.
    unfold take_sample. rewrite bind_emit.
    rewrite Hmin, bind_lift_ok, Hmax, bind_lift_ok.
    destruct fuel as [|fuel]; cbn [capture_loop]; rewrite Hguard.
    + assert (E : calculate_idle_voltage data trigger_level = Raise ZeroDivisionError).
      { unfold calculate_idle_voltage. apply mean_raises_iff.
        apply filter_nil_iff. exact Hnone. }
      unfold ret, bind. rewrite E. reflexivity.
    + assert (E : calculate_idle_voltage data trigger_level = Raise ZeroDivisionError).
      { unfold calculate_idle_voltage. apply mean_raises_iff.
        apply filter_nil_iff. exact Hnone. }
      unfold ret, bind. rewrite E. reflexivity.
Qed.

(** A capture whose lowest sample is the trigger level: 1.0 and 2.0 at a
    trigger level of 1.0. *)
Lemma capture_voltages_division_witness :
  let data := [float_of_Z 1; float_of_Z 2] in
  let trigger_level := float_of_Z 1 in
  py_min data = Ok (float_of_Z 1) /\
  py_max data = Ok (float_of_Z 2) /\
  capture_rejected (float_of_Z 2) (float_of_Z 1) trigger_level = false /\
  take_sample (fun _ => data) trigger_level 0 =
  ([Scope "getCH1NewData()"], Raise ZeroDivisionError).
Proof.
  intros data trigger_level.
  assert (Hmin : py_min data = Ok (float_of_Z 1)) by reflexivity.
  assert (Hmax : py_max data = Ok (float_of_Z 2)) by reflexivity.
  assert (Hguard : capture_rejected (float_of_Z 2) (float_of_Z 1) trigger_level = false)
    by reflexivity.
  split; [exact Hmin|]. split; [exact Hmax|]. split; [exact Hguard|].
  apply (proj2 (proj2 (proj2 (proj2 (proj2
           (capture_voltages_division data trigger_level (float_of_Z 1)
              (float_of_Z 2) 0))))) Hmin Hmax Hguard).
  intros x [<-|[<-|[]]]; reflexivity.
Defined.

(** ** The calls the script makes *)

(** [itla.set_power(7)] *)
Example script_set_power :
  ITLA.set_power (float_of_Z 7) = ([SerialWrite [97; 49; 2; 188]], Ok tt).
Proof. vm_compute. reflexivity. Qed.

(** [itla.set_first_channel_frequency(channel_freq(MIDDLE_CHANNEL))]:
    193 THz and 7000 tenths of a GHz. *)
Example script_set_first_channel_frequency :
  ITLA.set_first_channel_frequency (channel_freq 48) =
  ([SerialWrite (write_frame 53 193); Sleep 10; SerialWrite (write_frame 54 7000)],
   Ok tt).
Proof. vm_compute. reflexivity. Qed.

(** Every channel the scan visits, 10 to 90 by tens, is set without an
    exception. *)
Example script_scan_channels :
  forallb (fun ch =>
             match ITLA.set_first_channel_frequency (channel_freq ch) with
             | ([SerialWrite _; Sleep 10; SerialWrite _], Ok tt) => true
             | _ => false
             end)
          [10; 20; 30; 40; 50; 60; 70; 80; 90] = true.
Proof. vm_compute. reflexivity. Qed.

(** A power check whose third poll is the first to report the power: two
    turns of the loop, no prompt, and the [INPWR] token is returned. *)
Example script_tx_power_check :
  let responses := fun k : nat =>
    if (k <? 2)%nat then "5.8.6>1.4.4" else "5.8.6>1.4.4 INPWR=-1.5 OUTPWR=-2.0" in
  tx_power_check responses 4 =
  (poll_events POWER_CHECK_PORT_TELEMETRY_TX ++ tx_cycle ++ tx_cycle,
   Ok (Some "INPWR=-1.5")).
Proof. vm_compute. reflexivity. Qed.

(* ================================================================= *)
(** * Further properties *)

(** ** The checksum and line faults *)

Lemma land_lxor_distr (a b c : Z) :
  Z.land (Z.lxor a b) c = Z.lxor (Z.land a c) (Z.land b c).
Proof.
  apply Z.bits_inj'. intros n Hn.
  rewrite Z.land_spec, !Z.lxor_spec, !Z.land_spec. btauto.
Qed.

Lemma conformant_syndrome (b0 b1 b2 b3 : Z) :
  checksum_conformant [b0; b1; b2; b3] = true <-> syndrome b0 b1 b2 b3 = 0.
Proof.
  unfold checksum_conformant, syndrome, ITLA.cal_checksum.
  rewrite Z.eqb_eq, Z.lxor_eq_0_iff. reflexivity.
Qed.

(** The syndrome is linear: that of two frames combined bit by bit is
    the combination of their syndromes. *)
Lemma syndrome_lxor (a0 a1 a2 a3 d0 d1 d2 d3 : Z) :
  syndrome (Z.lxor a0 d0) (Z.lxor a1 d1) (Z.lxor a2 d2) (Z.lxor a3 d3) =
  Z.lxor (syndrome a0 a1 a2 a3) (syndrome d0 d1 d2 d3).
Proof.
  unfold syndrome, high_nibble, ITLA.cal_checksum.
  apply Z.bits_inj'. intros n Hn.
  repeat first [ rewrite Z.lxor_spec | rewrite Z.land_spec
               | rewrite Z.shiftr_spec by exact Hn ].
  btauto.
Qed.

(** A frame with a single bit set, in any of its 32 places, has a
    syndrome that is not zero. *)
Lemma syndrome_of_bit (j : nat) (k : Z) :
  (j < 4)%nat -> 0 <= k < 8 ->
  match j with
  | 0%nat => syndrome (2 ^ k) 0 0 0
  | 1%nat => syndrome 0 (2 ^ k) 0 0
  | 2%nat => syndrome 0 0 (2 ^ k) 0
  | _ => syndrome 0 0 0 (2 ^ k)
  end <> 0.
Proof.
  intros Hj Hk.
  assert (E : k = 0 \/ k = 1 \/ k = 2 \/ k = 3 \/ k = 4 \/ k = 5 \/ k = 6 \/ k = 7)
    by lia.
  destruct j as [|[|[|[|j]]]]; [| | | |lia];
    repeat (destruct E as [E|E]; [subst k; vm_compute; discriminate|]);
    subst k; vm_compute; discriminate.
Qed.

(** A conformant frame with one bit inverted is not conformant. *)
Lemma flipped_frame_fails (b0 b1 b2 b3 : Z) (j : nat) (k : Z) :
  checksum_conformant [b0; b1; b2; b3] = true ->
  (j < 4)%nat -> 0 <= k < 8 ->
  checksum_conformant (flip_bit [b0; b1; b2; b3] j k) = false.
Proof.
  intros Hc Hj Hk. apply conformant_syndrome in Hc.
  pose proof (syndrome_of_bit j k Hj Hk) as Hs.
  apply not_true_is_false. intros Hf.
  destruct j as [|[|[|[|j]]]]; [| | | |lia]; cbn [flip_bit] in Hf;
    apply conformant_syndrome in Hf.
  - rewrite <- (Z.lxor_0_r b1), <- (Z.lxor_0_r b2), <- (Z.lxor_0_r b3) in Hf.
    rewrite syndrome_lxor, Hc, Z.lxor_0_l in Hf. contradiction.
  - rewrite <- (Z.lxor_0_r b0), <- (Z.lxor_0_r b2), <- (Z.lxor_0_r b3) in Hf.
    rewrite syndrome_lxor, Hc, Z.lxor_0_l in Hf. contradiction.
  - rewrite <- (Z.lxor_0_r b0), <- (Z.lxor_0_r b1), <- (Z.lxor_0_r b3) in Hf.
    rewrite syndrome_lxor, Hc, Z.lxor_0_l in Hf. contradiction.
  - rewrite <- (Z.lxor_0_r b0), <- (Z.lxor_0_r b1), <- (Z.lxor_0_r b2) in Hf.
    rewrite syndrome_lxor, Hc, Z.lxor_0_l in Hf. contradiction.
Qed.

Lemma double_fault_syndrome (register d2 d3 t : Z) (c : Z) :
  syndrome c register d2 d3 = 0 ->
  syndrome c (Z.lxor register t) (Z.lxor d2 t) d3 = 0 /\
  syndrome c (Z.lxor register t) d2 (Z.lxor d3 t) = 0 /\
  syndrome c register (Z.lxor d2 t) (Z.lxor d3 t) = 0.
Proof.
  intros Hc.
  assert (Hz : forall x, syndrome 0 x x 0 = 0 /\ syndrome 0 x 0 x = 0 /\
                         syndrome 0 0 x x = 0).
  { intros x. unfold syndrome, ITLA.cal_checksum, high_nibble. cbn [Z.land].
    rewrite !Z.lxor_0_l, ?Z.lxor_0_r, !Z.lxor_nilpotent. repeat split; reflexivity. }
  destruct (Hz t) as [H1 [H2 H3]].
  repeat split.
  - rewrite <- (Z.lxor_0_r c), <- (Z.lxor_0_r d3).
    rewrite syndrome_lxor, Hc, H1. reflexivity.
  - rewrite <- (Z.lxor_0_r c), <- (Z.lxor_0_r d2).
    rewrite syndrome_lxor, Hc, H2. reflexivity.
  - rewrite <- (Z.lxor_0_r c), <- (Z.lxor_0_r register).
    rewrite syndrome_lxor, Hc, H3. reflexivity.
Qed.

(** X1: a frame the driver builds, for any register and data, stops
    being conformant when any one of its 32 bits is inverted: the
    checksum detects every single-bit fault. *)
Theorem single_bit_fault_detected (register : Z) (B : Z * Z) (cmd : list Z)
    (j : nat) (k : Z) :
  ITLA.build_cmd register B = Ok cmd ->
  (j < 4)%nat -> 0 <= k < 8 ->
  checksum_conformant cmd = true /\
  checksum_conformant (flip_bit cmd j k) = false.
Proof.
  intros Hb Hj Hk.
  pose proof (build_cmd_conformant _ _ _ Hb) as Hc.
  split; [exact Hc|].
  apply build_cmd_frame in Hb. subst cmd.
  apply flipped_frame_fails; assumption.
Qed.

(** The frame of [set_power(7)] with bit 3 of its first data byte
    inverted. *)
Lemma single_bit_fault_detected_witness :
  ITLA.build_cmd 49 (2, 188) = Ok [97; 49; 2; 188] /\
  (2 < 4)%nat /\ 0 <= 3 < 8 /\
  checksum_conformant [97; 49; 2; 188] = true /\
  checksum_conformant (flip_bit [97; 49; 2; 188] 2 3) = false.
Proof.
  assert (H1 : ITLA.build_cmd 49 (2, 188) = Ok [97; 49; 2; 188]) by reflexivity.
  assert (H2 : (2 < 4)%nat) by lia.
  assert (H3 : 0 <= 3 < 8) by lia.
  split; [exact H1|]. split; [exact H2|]. split; [exact H3|].
  exact (single_bit_fault_detected 49 (2, 188) [97; 49; 2; 188] 2 3 H1 H2 H3).
Defined.




(** ** set_channel *)

Lemma unpack_pack (v : Z) :
  -32768 <= v <= 32767 -> unpack_h (data_hi v) (data_lo v) = v.
Proof.
  intros Hv. unfold unpack_h, data_hi, data_lo.
  change 255 with (Z.ones 8). rewrite !Z.land_ones by lia.
  rewrite Z.shiftr_div_pow2 by lia. change (2 ^ 8) with 256.
  cbv zeta.
  destruct (Z.ltb_spec ((v / 256) mod 256 * 256 + v mod 256) 32768) as [H|H];
    Z.div_mod_to_equations; lia.
Qed.

(** X3: [set_channel] writes one frame for every number of the signed
    16-bit range, for register 0x30 and with data bytes that stand for
    that number, and for every other number it raises [struct.error] and
    writes nothing. *)
Theorem set_channel_frame (num : Z) :
  (-32768 <= num <= 32767 ->
   ITLA.set_channel num = ([SerialWrite (write_frame 48 num)], Ok tt) /\
   unpack_h (data_hi num) (data_lo num) = num) /\
  (num < -32768 \/ 32767 < num ->
   ITLA.set_channel num = ([], Raise StructError)).
Proof.
  split.
  - intros Hn. split; [|apply unpack_pack; exact Hn].
    unfold ITLA.set_channel.
    rewrite pack_h_fits by exact Hn. rewrite bind_lift_ok.
    rewrite build_cmd_packed by lia. rewrite bind_lift_ok. reflexivity.
  - intros Hn. unfold ITLA.set_channel, pack_h.
    destruct Hn as [Hn|Hn].
    + apply Z.ltb_lt in Hn. rewrite Hn. reflexivity.
    + apply Z.ltb_lt in Hn. rewrite Hn, orb_true_r. reflexivity.
Qed.

Lemma set_channel_frame_witness :
  -32768 <= 48 <= 32767 /\
  ITLA.set_channel 48 = ([SerialWrite [17; 48; 0; 48]], Ok tt) /\
  (-40000 < -32768 \/ 32767 < -40000) /\
  ITLA.set_channel (-40000) = ([], Raise StructError).
Proof.
  assert (H1 : -32768 <= 48 <= 32767) by lia.
  assert (H2 : -40000 < -32768 \/ 32767 < -40000) by lia.
  split; [exact H1|].
  split; [exact (proj1 (proj1 (set_channel_frame 48) H1))|].
  split; [exact H2|].
  exact (proj2 (set_channel_frame (-40000)) H2).
Defined.

(** ** The value set_power writes *)

Lemma exact_Q_m50 (m : positive) :
  exact_Q (S754_finite false m (-50)) = (inject_Z (Z.pos m) * (1 # 2 ^ 50))%Q.
Proof. reflexivity. Qed.

Lemma exact_Q_m49 (m : positive) :
  exact_Q (S754_finite false m (-49)) = (inject_Z (Z.pos m) * (1 # 2 ^ 49))%Q.
Proof. reflexivity. Qed.

Lemma half_up_bounds (m D : Z) :
  0 < D ->
  let q := (2 * (m * 100) + D) / (2 * D) in
  2 * q * D <= 200 * m + D < 2 * q * D + 2 * D.
Proof.
  intros HD q. subst q.
  pose proof (Z.div_mod (2 * (m * 100) + D) (2 * D) ltac:(lia)) as E.
  pose proof (Z.mod_pos_bound (2 * (m * 100) + D) (2 * D) ltac:(lia)) as B.
  lia.
Qed.

Lemma Q_hundredths (m k q : Z) (D : positive) :
  2 * q * Z.pos D <= 200 * m + Z.pos D < 2 * q * Z.pos D + 2 * Z.pos D ->
  k = q \/ k = q - 1 ->
  (100 * (inject_Z m * (1 # D)) - (3 # 2) < inject_Z k)%Q /\
  (inject_Z k <= 100 * (inject_Z m * (1 # D)) + (1 # 2))%Q.
Proof.
  intros Hq Hk. unfold Qlt, Qle, Qminus, Qplus, Qmult, Qopp, inject_Z.
  cbn [Qnum Qden]. rewrite ?Pos2Z.inj_mul, ?Pos.mul_1_l, ?Pos.mul_1_r.
  rewrite ?Pos2Z.inj_mul.
  destruct Hk as [-> | ->]; split; nia.
Qed.

Lemma round2_hundredths (v : float64) :
  between_6_and_13_5 v ->
  exists n : positive,
    600 <= Z.pos n <= 1350 /\
    py_round v 2 = nearest_ratio false n 100 /\
    forall k : Z, k = Z.pos n \/ k = Z.pos n - 1 ->
      (100 * exact_Q v - (3 # 2) < inject_Z k)%Q /\
      (inject_Z k <= 100 * exact_Q v + (1 # 2))%Q.
Proof.
  intros [m [[-> Hm]|[-> Hm]]]; unfold py_round.
  - pose proof (centi_bound_low (Z.pos m) (2 ^ 48) eq_refl Hm) as Hq.
    pose proof (half_up_bounds (Z.pos m) (Z.pos (2 ^ 50)) eq_refl) as Hb.
    cbv zeta in Hb.
    change (2 * (Z.pos m * 100) + 4 * 2 ^ 48)
      with (2 * (Z.pos m * 10 ^ Z.pos 2) + 2 ^ Z.pos 50) in Hq.
    change (8 * 2 ^ 48) with (2 ^ (Z.pos 50 + 1)) in Hq.
    change (2 * (Z.pos m * 100) + Z.pos (2 ^ 50))
      with (2 * (Z.pos m * 10 ^ Z.pos 2) + 2 ^ Z.pos 50) in Hb.
    change (2 * Z.pos (2 ^ 50)) with (2 ^ (Z.pos 50 + 1)) in Hb at 1 2.
    destruct (_ / _) as [|n|n]; [lia | | lia].
    exists n. split; [lia|]. split; [reflexivity|].
    intros k Hk. rewrite exact_Q_m50. apply (Q_hundredths _ _ (Z.pos n)); assumption.
  - pose proof (centi_bound_high (Z.pos m) (2 ^ 48) eq_refl Hm) as Hq.
    pose proof (half_up_bounds (Z.pos m) (Z.pos (2 ^ 49)) eq_refl) as Hb.
    cbv zeta in Hb.
    change (2 * (Z.pos m * 100) + 2 * 2 ^ 48)
      with (2 * (Z.pos m * 10 ^ Z.pos 2) + 2 ^ Z.pos 49) in Hq.
    change (4 * 2 ^ 48) with (2 ^ (Z.pos 49 + 1)) in Hq.
    change (2 * (Z.pos m * 100) + Z.pos (2 ^ 49))
      with (2 * (Z.pos m * 10 ^ Z.pos 2) + 2 ^ Z.pos 49) in Hb.
    change (2 * Z.pos (2 ^ 49)) with (2 ^ (Z.pos 49 + 1)) in Hb at 1 2.
    destruct (_ / _) as [|n|n]; [lia | | lia].
    exists n. split; [lia|]. split; [reflexivity|].
    intros k Hk. rewrite exact_Q_m49. apply (Q_hundredths _ _ (Z.pos n)); assumption.
Qed.

Lemma set_value_of_600 :
  py_int (fmul (nearest_ratio false 600 100) (float_of_Z 100)) = Ok 600.
Proof. vm_compute. reflexivity. Qed.

(** X4: for every float from 6.0 to 13.5 the one frame [set_power]
    writes is for register 0x31 and carries an integer from 600 to 1350
    that is at most half a hundredth of a dBm above the value and less
    than one and a half below it: the value in hundredths rounded to the
    nearest, or one less. *)
Theorem set_power_written_value (value : float64) :
  valid_binary prec emax value = true ->
  fle (float_of_Z 6) value = true ->
  fle value (float_literal 135 1) = true ->
  exists set_value : Z,
    ITLA.set_power value = ([SerialWrite (write_frame 49 set_value)], Ok tt) /\
    600 <= set_value <= 1350 /\
    (100 * exact_Q value - (3 # 2) < inject_Z set_value)%Q /\
    (inject_Z set_value <= 100 * exact_Q value + (1 # 2))%Q.
Proof.
  intros Hv H6 H13.
  pose proof (accepted_shape value Hv H6 H13) as Hs.
  destruct (round2_hundredths value Hs) as [n [Hn [Hr Hq]]].
  destruct (set_value_of_centi n Hn) as [k [Hk Hkn]].
  exists k. split; [|split].
  - unfold ITLA.set_power.
    rewrite (shape_passes_check value Hs), Hr, Hk, bind_lift_ok.
    rewrite pack_h_fits by lia. rewrite bind_lift_ok.
    rewrite build_cmd_packed by lia. rewrite bind_lift_ok.
    reflexivity.
  - destruct (Z.eq_dec (Z.pos n) 600) as [E|E]; [|lia].
    injection E as E. subst n. rewrite set_value_of_600 in Hk.
    injection Hk as <-. lia.
  - apply Hq. exact Hkn.
Qed.

Lemma set_power_written_value_witness :
  valid_binary prec emax (float_literal 828 2) = true /\
  fle (float_of_Z 6) (float_literal 828 2) = true /\
  fle (float_literal 828 2) (float_literal 135 1) = true /\
  exists set_value : Z,
    ITLA.set_power (float_literal 828 2) =
    ([SerialWrite (write_frame 49 set_value)], Ok tt) /\
    600 <= set_value <= 1350.
Proof.
  assert (H1 : valid_binary prec emax (float_literal 828 2) = true)
    by (vm_compute; reflexivity).
  assert (H2 : fle (float_of_Z 6) (float_literal 828 2) = true)
    by (vm_compute; reflexivity).
  assert (H3 : fle (float_literal 828 2) (float_literal 135 1) = true)
    by (vm_compute; reflexivity).
  split; [exact H1|]. split; [exact H2|]. split; [exact H3|].
  destruct (set_power_written_value _ H1 H2 H3) as [k [E [B _]]].
  exists k. split; [exact E | exact B].
Defined.

(** ** The frequencies of the channels *)

Lemma channel_table :
  forallb (fun i =>
             let ch := Z.of_nat i in
             match py_floor (channel_freq ch) with
             | Ok FCF1 =>
                 (FCF1 =? (1913000 + 500 * ch) / 10000) &&
                 match py_int (fmul (py_round (fsub (channel_freq ch) (float_of_Z FCF1)) 3)
                                    (float_of_Z 10000)) with
                 | Ok FCF2 => FCF2 =? (1913000 + 500 * ch) mod 10000
                 | Raise _ => false
                 end
             | Raise _ => false
             end) (seq 1 96) = true.
Proof. vm_compute. reflexivity. Qed.

(** X5: for every channel from 1 to 96, [set_first_channel_frequency]
    at [channel_freq] of the channel writes its two frames, and the
    integers they carry are exact: [FCF1] THz and [FCF2] tenths of a GHz
    add up to 191.30 THz and 50 GHz for each channel. *)
Theorem channel_frequency_frames (ch : Z) :
  1 <= ch <= 96 ->
  exists FCF1 FCF2 : Z,
    ITLA.set_first_channel_frequency (channel_freq ch) =
    ([SerialWrite (write_frame 53 FCF1); Sleep 10;
      SerialWrite (write_frame 54 FCF2)], Ok tt) /\
    191 <= FCF1 <= 196 /\ 0 <= FCF2 < 10000 /\
    FCF1 * 10000 + FCF2 = 1913000 + 500 * ch.
Proof.
  intros Hch. pose proof channel_table as T.
  rewrite forallb_forall in T.
  specialize (T (Z.to_nat ch) ltac:(apply in_seq; lia)).
  cbv zeta in T. rewrite Z2Nat.id in T by lia.
  destruct (py_floor (channel_freq ch)) as [FCF1|] eqn:E1; [|discriminate T].
  apply andb_prop in T. destruct T as [T1 T2].
  destruct (py_int _) as [FCF2|] eqn:E2; [|discriminate T2].
  apply Z.eqb_eq in T1, T2.
  pose proof (Z.div_mod (1913000 + 500 * ch) 10000 ltac:(lia)) as Ed.
  pose proof (Z.mod_pos_bound (1913000 + 500 * ch) 10000 ltac:(lia)) as Eb.
  assert (H1 : 191 <= FCF1 <= 196).
  { subst FCF1. split.
    - apply Z.div_le_lower_bound; lia.
    - apply Z.lt_succ_r. apply Z.div_lt_upper_bound; lia. }
  exists FCF1, FCF2. split; [|split; [exact H1 | split; [lia | lia]]].
  unfold ITLA.set_first_channel_frequency.
  rewrite E1, bind_lift_ok.
  rewrite pack_h_fits by lia. rewrite bind_lift_ok.
  rewrite build_cmd_packed by lia. rewrite bind_lift_ok.
  rewrite E2, bind_lift_ok.
  rewrite pack_h_fits by lia. rewrite bind_lift_ok.
  rewrite build_cmd_packed by lia. rewrite bind_lift_ok.
  reflexivity.
Qed.


Lemma channel_frequency_frames_witness :
  1 <= 48 <= 96 /\
  exists FCF1 FCF2 : Z,
    ITLA.set_first_channel_frequency (channel_freq 48) =
    ([SerialWrite (write_frame 53 FCF1); Sleep 10;
      SerialWrite (write_frame 54 FCF2)], Ok tt) /\
    FCF1 * 10000 + FCF2 = 1913000 + 500 * 48.
Proof.
  assert (H : 1 <= 48 <= 96) by lia.
  split; [exact H|].
  destruct (channel_frequency_frames 48 H) as [FCF1 [FCF2 [E [_ [_ S]]]]].
  exists FCF1, FCF2. split; [exact E | exact S].
Defined.

(** ** The default grid and the connection of one channel *)

Lemma default_grid_table :
  forallb (fun i =>
             String.eqb (py_str_float (passband_start (float_of_Z 50) (float_of_Z 50) i))
                        (String.append (str_int (191325 + 50 * Z.of_nat i)) ".0") &&
             String.eqb (py_str_float (passband_end (float_of_Z 50) (float_of_Z 50) i))
                        (String.append (str_int (191375 + 50 * Z.of_nat i)) ".0"))
          (seq 0 96) = true.
Proof. vm_compute. reflexivity. Qed.

(** X6: with the default spacing and width of 50.0 GHz, the connection
    at index [i] runs from [191325 + 50 * i] to [191375 + 50 * i] GHz,
    printed as whole numbers with [.0]. *)
Theorem default_grid_passbands (module_id in_port out_port loss : pyval)
    (i : nat) (c : WSSConnection) :
  nth_error (Lumentum.gen_dwdm_connections py_str_float module_id in_port out_port
               (float_of_Z 50) (float_of_Z 50) loss) i = Some c ->
  start_freq c = PStr (String.append (str_int (191325 + 50 * Z.of_nat i)) ".0") /\
  end_freq c = PStr (String.append (str_int (191375 + 50 * Z.of_nat i)) ".0").
Proof.
  intros Hc. apply gen_dwdm_connections_nth in Hc. destruct Hc as [Hi ->].
  pose proof default_grid_table as T. rewrite forallb_forall in T.
  specialize (T i ltac:(apply in_seq; lia)).
  apply andb_prop in T. destruct T as [Ts Te].
  apply String.eqb_eq in Ts, Te. cbn [start_freq end_freq].
  rewrite Ts, Te. split; reflexivity.
Qed.

Lemma channel_passband_table :
  forallb (fun i =>
             let ch := Z.of_nat (S i) in
             String.eqb
               (py_str_float (fsub (fmul (channel_freq ch) (float_of_Z 1000))
                                   (float_of_Z CHANNEL_HALF_WIDTH)))
               (py_str_float (passband_start (float_of_Z 50) (float_of_Z 50) i)) &&
             String.eqb
               (py_str_float (fadd (fmul (channel_freq ch) (float_of_Z 1000))
                                   (float_of_Z CHANNEL_HALF_WIDTH)))
               (py_str_float (passband_end (float_of_Z 50) (float_of_Z 50) i)))
          (seq 0 96) = true.
Proof. vm_compute. reflexivity. Qed.

Lemma gen_dwdm_connections_at {T : Type} `{PyNumber T} (str_num : T -> string)
    (module_id in_port out_port loss : pyval) (channel_spacing channel_width : T)
    (i : nat) :
  (i < 96)%nat ->
  nth_error (Lumentum.gen_dwdm_connections str_num module_id in_port out_port
               channel_spacing channel_width loss) i =
  Some {| module := module_id;
          connection_id := PStr (str_int (Z.of_nat i + 1));
          operation := PStr Lumentum.INSERVICE;
          blocked := PStr "false";
          input_port := in_port;
          output_port := out_port;
          start_freq := PStr (str_num (passband_start channel_spacing channel_width i));
          end_freq := PStr (str_num (passband_end channel_spacing channel_width i));
          attenuation := loss;
          name := PStr (String.append "CH" (str_int (Z.of_nat i + 1))) |}.
Proof.
  intros Hi. unfold Lumentum.gen_dwdm_connections. rewrite nth_error_map.
  rewrite nth_error_seq_lt by exact Hi. reflexivity.
Qed.

(** The connection of channel 48 in the grid the script sets on the drop
    side. *)
Lemma default_grid_passbands_witness :
  exists c : WSSConnection,
    nth_error (Lumentum.gen_dwdm_connections py_str_float (PStr Lumentum.DEMUX)
                 (PStr "5101") (PStr "5203") (float_of_Z 50) (float_of_Z 50)
                 (PStr Lumentum.DEFAULT_WSS_LOSS)) 47 = Some c /\
    start_freq c = PStr "193675.0" /\ end_freq c = PStr "193725.0".
Proof.
  eexists. split; [reflexivity|].
  exact (default_grid_passbands (PStr Lumentum.DEMUX) (PStr "5101") (PStr "5203")
           (PStr Lumentum.DEFAULT_WSS_LOSS) 47 _ eq_refl).
Defined.

(** X7: for every channel from 1 to 96, the connection the script builds
    from [channel_freq] of the channel is, field for field, the connection
    of that channel in the default grid of [gen_dwdm_connections] for the
    same module, ports and loss: same id, same name, same passband. *)
Theorem channel_connection_on_grid (module_id in_port out_port loss : string)
    (channel : Z) :
  1 <= channel <= 96 ->
  nth_error (Lumentum.gen_dwdm_connections py_str_float (PStr module_id)
               (PStr in_port) (PStr out_port) (float_of_Z 50) (float_of_Z 50)
               (PStr loss))
            (Z.to_nat (channel - 1)) =
  Some (channel_connection module_id channel in_port out_port loss).
Proof.
  intros Hch. rewrite gen_dwdm_connections_at by lia.
  pose proof channel_passband_table as T.
  rewrite forallb_forall in T.
  specialize (T (Z.to_nat (channel - 1)) ltac:(apply in_seq; lia)).
  cbv zeta in T.
  replace (Z.of_nat (S (Z.to_nat (channel - 1)))) with channel in T by lia.
  apply andb_prop in T. destruct T as [Ts Te].
  apply String.eqb_eq in Ts, Te.
  unfold channel_connection. rewrite Ts, Te.
  replace (Z.of_nat (Z.to_nat (channel - 1)) + 1) with channel by lia.
  reflexivity.
Qed.

(** The connection of channel 48 of the drop side. *)
Lemma channel_connection_on_grid_witness :
  1 <= 48 <= 96 /\
  nth_error (Lumentum.gen_dwdm_connections py_str_float (PStr Lumentum.DEMUX)
               (PStr "5101") (PStr "5204") (float_of_Z 50) (float_of_Z 50)
               (PStr Lumentum.DEFAULT_WSS_LOSS)) 47 =
  Some (channel_connection Lumentum.DEMUX 48 "5101" "5204" Lumentum.DEFAULT_WSS_LOSS).
Proof.
  assert (H : 1 <= 48 <= 96) by lia.
  split; [exact H|].
  exact (channel_connection_on_grid Lumentum.DEMUX "5101" "5204"
           Lumentum.DEFAULT_WSS_LOSS 48 H).
Defined.

(** ** Reading back what was written *)

Lemma split_no_separator (sep s cur : string) :
  contains sep s = false -> split_from sep s 0 cur = [String.append cur s].
Proof.
  revert cur. induction s as [|c s IH]; intros cur Hc.
  - cbn [split_from]. rewrite append_nil_r. reflexivity.
  - cbn [contains] in Hc. apply orb_false_elim in Hc. destruct Hc as [Hp Hc].
    cbn [split_from]. rewrite Hp. rewrite IH by exact Hc.
    rewrite append_assoc. reflexivity.
Qed.

Lemma split_at_char (c : ascii) (a b cur : string) :
  contains (String c "") a = false ->
  split_from (String c "") (String.append a (String c b)) 0 cur =
  String.append cur a :: split_from (String c "") b 0 "".
Proof.
  revert cur. induction a as [|x a IH]; intros cur Hc.
  - cbn [String.append split_from]. rewrite append_nil_r.
    assert (Hp : String.prefix (String c "") (String c b) = true).
    { cbn [String.prefix]. destruct (ascii_dec c c) as [_|N]; [|contradiction].
      destruct b; reflexivity. }
    rewrite Hp. reflexivity.
  - cbn [contains] in Hc. apply orb_false_elim in Hc. destruct Hc as [Hp Hc].
    cbn [String.append split_from].
    assert (Hp' : String.prefix (String c "")
                    (String x (String.append a (String c b))) = false).
    { cbn [String.prefix] in Hp |- *. destruct (ascii_dec c x) as [E|N].
      - destruct a; discriminate Hp.
      - reflexivity. }
    rewrite Hp'. rewrite IH by exact Hc. rewrite append_assoc. reflexivity.
Qed.

Lemma split_skip (sep s cur : string) (x : ascii) (k : nat) :
  split_from sep (String x s) (S k) cur = split_from sep s k cur.
Proof. reflexivity. Qed.

Lemma split_step_no (sep s cur : string) (x : ascii) :
  String.prefix sep (String x s) = false ->
  split_from sep (String x s) 0 cur =
  split_from sep s 0 (String.append cur (String x "")).
Proof. intros Hp. cbn [split_from]. rewrite Hp. reflexivity. Qed.

Lemma split_step_yes (sep s cur : string) (x : ascii) :
  String.prefix sep (String x s) = true ->
  split_from sep (String x s) 0 cur =
  cur :: split_from sep s (String.length sep - 1) "".
Proof. intros Hp. cbn [split_from]. rewrite Hp. reflexivity. Qed.

Ltac split_steps :=
  repeat first
    [ rewrite split_skip
    | rewrite split_step_no by (vm_compute; reflexivity)
    | rewrite split_step_yes by (vm_compute; reflexivity);
      cbn [String.length Nat.sub] ].

Lemma dn_pieces (module_id connection_id : string) :
  contains ";" module_id = false -> contains ";" connection_id = false ->
  py_split ";" (connection_dn module_id connection_id) =
  ["ne=1"; "chassis=1"; "card=1"; String.append "module=" module_id;
   String.append "connection=" connection_id].
Proof.
  intros Hm Hc. unfold py_split, connection_dn.
  cbn [String.append]. split_steps. cbn [String.append].
  rewrite split_at_char by exact Hm.
  split_steps. cbn [String.append].
  rewrite split_no_separator by exact Hc. reflexivity.
Qed.

Lemma tagged_value (tag value : string) :
  contains "=" tag = false -> contains "=" value = false ->
  nth_error (py_split "=" (String.append tag (String "=" value))) 1 = Some value.
Proof.
  intros Ht Hv. unfold py_split.
  rewrite split_at_char by exact Ht.
  rewrite split_no_separator by exact Hv. reflexivity.
Qed.

Lemma prefix_append (s rest : string) : String.prefix s (String.append s rest) = true.
Proof.
  induction s as [|c s IH]; cbn [String.append String.prefix].
  - destruct rest; reflexivity.
  - destruct (ascii_dec c c) as [_|N]; [exact IH | contradiction].
Qed.

Lemma port_reference_port (port : string) :
  contains "port=" port = false ->
  nth_error (py_split "port=" (port_reference port)) 1 = Some port.
Proof.
  intros Hp. unfold py_split, port_reference.
  cbn [String.append]. split_steps. cbn [String.append].
  rewrite split_step_yes by (apply (prefix_append "port=" port)).
  cbn [String.length Nat.sub]. rewrite !split_skip.
  rewrite split_no_separator by exact Hp. reflexivity.
Qed.

Lemma split_index_dn (module_id connection_id : string) (i : nat) :
  contains ";" module_id = false -> contains ";" connection_id = false ->
  split_index (PStr (connection_dn module_id connection_id)) ";" i =
  index ["ne=1"; "chassis=1"; "card=1"; String.append "module=" module_id;
         String.append "connection=" connection_id] i.
Proof. intros Hm Hc. unfold split_index, index. rewrite dn_pieces by assumption. reflexivity. Qed.

Lemma split_index_tag (tag value : string) :
  contains "=" tag = false -> contains "=" value = false ->
  split_index (PStr (String.append tag (String "=" value))) "=" 1 = Ok value.
Proof. intros Ht Hv. unfold split_index. rewrite tagged_value by assumption. reflexivity. Qed.

Lemma split_index_port (port : string) :
  contains "port=" port = false ->
  split_index (PStr (port_reference port)) "port=" 1 = Ok port.
Proof. intros Hp. unfold split_index. rewrite port_reference_port by assumption. reflexivity. Qed.

(** X8: a connection record that carries the texts [gen_connection_xml]
    writes is read back by [from_connection_details] field for field,
    provided the module and the connection id hold neither [;] nor [=] and
    the two ports do not hold [port=]: the [dn] gives back the module and
    the id, the port references the ports. *)
Theorem status_of_detail_reads_back
    (module_id connection_id operation blocked start_freq end_freq attenuation
     input_port output_port name input_power output_power : string) :
  contains ";" module_id = false -> contains "=" module_id = false ->
  contains ";" connection_id = false -> contains "=" connection_id = false ->
  contains "port=" input_port = false -> contains "port=" output_port = false ->
  Lumentum.status_of_detail
    (connection_record module_id connection_id operation blocked start_freq
       end_freq attenuation input_port output_port name input_power output_power) =
  Ok {| connection := {| module := PStr module_id;
                         connection_id := PStr connection_id;
                         operation := PStr operation;
                         blocked := PStr blocked;
                         input_port := PStr input_port;
                         output_port := PStr output_port;
                         start_freq := PStr start_freq;
                         end_freq := PStr end_freq;
                         attenuation := PStr attenuation;
                         name := PStr name |};
        input_power := PStr input_power;
        output_power := PStr output_power;
        ne := PStr "1";
        chassis := PStr "1";
        card := PStr "1" |}.
Proof.
  intros Hm1 Hm2 Hc1 Hc2 Hi Ho.
  unfold Lumentum.status_of_detail, connection_record.
  cbn [getitem assoc String.eqb Ascii.eqb Bool.eqb rbind].
  rewrite !split_index_dn by assumption.
  unfold index. cbn [nth_error rbind].
  rewrite (split_index_tag "module" module_id eq_refl Hm2
            : split_index (PStr (String.append "module=" module_id)) "=" 1 = _).
  rewrite (split_index_tag "connection" connection_id eq_refl Hc2
            : split_index (PStr (String.append "connection=" connection_id)) "=" 1 = _).
  rewrite (split_index_tag "ne" "1" eq_refl eq_refl
            : split_index (PStr "ne=1") "=" 1 = _).
  rewrite (split_index_tag "chassis" "1" eq_refl eq_refl
            : split_index (PStr "chassis=1") "=" 1 = _).
  rewrite (split_index_tag "card" "1" eq_refl eq_refl
            : split_index (PStr "card=1") "=" 1 = _).
  rewrite !split_index_port by assumption.
  reflexivity.
Qed.

(** Channel 48 of the drop side, as the script writes it. *)
Lemma status_of_detail_reads_back_witness :
  contains ";" "2" = false /\ contains "=" "2" = false /\
  contains ";" "48" = false /\ contains "=" "48" = false /\
  contains "port=" "5101" = false /\ contains "port=" "5204" = false /\
  exists st : WSSConnectionStatus,
    Lumentum.status_of_detail
      (connection_record "2" "48" "in-service" "false" "193675.0" "193725.0"
         "4.0" "5101" "5204" "CH48" "-12.5" "-17.0") = Ok st /\
    connection st = channel_connection "2" 48 "5101" "5204" "4.0".
Proof.
  repeat (split; [reflexivity|]).
  eexists. split.
  - exact (status_of_detail_reads_back "2" "48" "in-service" "false" "193675.0"
             "193725.0" "4.0" "5101" "5204" "CH48" "-12.5" "-17.0"
             eq_refl eq_refl eq_refl eq_refl eq_refl eq_refl).
  - vm_compute. reflexivity.
Defined.

Lemma status_of_string (s : string) :
  Lumentum.status_of_detail (PStr s) = Raise TypeError.
Proof. reflexivity. Qed.

Lemma map_result_strings (items : list pyval) :
  (forall v, In v items -> exists s, v = PStr s) ->
  items <> [] ->
  map_result Lumentum.status_of_detail items = Raise TypeError.
Proof.
  destruct items as [|v items]; [contradiction|]. intros H _.
  destruct (H v ltac:(left; reflexivity)) as [s ->].
  cbn [map_result]. rewrite status_of_string. reflexivity.
Qed.

Lemma map_result_nil_ok {A B} (f : A -> result B) (l : list A) :
  map_result f l = Ok [] -> l = [].
Proof.
  destruct l as [|a l]; [reflexivity|]. cbn [map_result].
  destruct (f a); [|discriminate]. cbn [rbind].
  destruct (map_result f l); discriminate.
Qed.




(** ** The predicted power *)

Section PredictionBounds.

Import Prediction.
Local Open Scope R_scope.

Lemma ln_10_pos : 0 < ln 10.
Proof. rewrite <- ln_1. apply ln_increasing; lra. Qed.

Lemma log10_Rpower (x : R) : 10 * log10 (Rpower 10 (x / 10)) = x.
Proof.
  unfold log10, Rpower. rewrite ln_exp. pose proof ln_10_pos. field. lra.
Qed.

Lemma log10_le (x y : R) : 0 < x -> x <= y -> 10 * log10 x <= 10 * log10 y.
Proof.
  intros Hx Hxy. unfold log10. pose proof ln_10_pos as H10.
  assert (Hl : ln x <= ln y).
  { destruct Hxy as [Hlt| ->]; [left; apply ln_increasing; assumption | right; reflexivity]. }
  apply Rmult_le_compat_l; [lra|].
  unfold Rdiv. apply Rmult_le_compat_r; [|exact Hl].
  left. apply Rinv_0_lt_compat. exact H10.
Qed.

Lemma mean_lower (lo a b N : R) :
  0 <= N -> lo <= a -> lo <= b -> lo <= (a + N * b) / (N + 1).
Proof.
  intros HN Ha Hb.
  replace lo with (lo * (N + 1) / (N + 1)) by (field; lra).
  unfold Rdiv. apply Rmult_le_compat_r.
  - left. apply Rinv_0_lt_compat. lra.
  - nra.
Qed.

Lemma mean_upper (hi a b N : R) :
  0 <= N -> a <= hi -> b <= hi -> (a + N * b) / (N + 1) <= hi.
Proof.
  intros HN Ha Hb.
  replace hi with (hi * (N + 1) / (N + 1)) by (field; lra).
  unfold Rdiv. apply Rmult_le_compat_r.
  - left. apply Rinv_0_lt_compat. lra.
  - nra.
Qed.

Lemma Rpower_10_le (x y : R) : x <= y -> Rpower 10 (x / 10) <= Rpower 10 (y / 10).
Proof. intros H. apply Rle_Rpower; lra. Qed.


End PredictionBounds.


(** ** The tokens get_crs_power finds *)

Lemma many1_ends_none (p : ascii -> bool) (s : string) :
  starts_with p s = false -> many1_ends p s = [].
Proof. destruct s as [|c s]; cbn; [reflexivity|]. intros ->. reflexivity. Qed.

Lemma many1_ends_some (p : ascii -> bool) (s : string) :
  starts_with p s = true -> many1_ends p s <> [].
Proof.
  destruct s as [|c s]; cbn; [discriminate|]. intros ->.
  destruct (many1_ends p s); discriminate.
Qed.

(** The ways to take characters of a class off the front of a text, as
    [many1_ends] lists them: the first leaves the least, and nothing of
    the class at its front; the others leave a character of the class at
    their front. *)
Lemma many1_ends_order (p : ascii -> bool) (s : string) :
  forall rest l,
    many1_ends p s = rest :: l ->
    starts_with p rest = false /\
    (String.length rest < String.length s)%nat /\
    forall r, In r l ->
      starts_with p r = true /\
      (String.length rest <= String.length r)%nat /\
      (String.length r < String.length s)%nat.
Proof.
  induction s as [|c s IH]; intros rest l; cbn [many1_ends]; [discriminate|].
  destruct (p c) eqn:Hc; [|discriminate].
  destruct (many1_ends p s) as [|rest0 l0] eqn:E.
  - cbn [app]. intros [= <- <-]. split; [|split; [cbn; lia | intros r []]].
    destruct (starts_with p s) eqn:Hs; [|reflexivity].
    exfalso. apply (many1_ends_some p s Hs). exact E.
  - cbn [app]. intros [= <- <-].
    destruct (IH rest0 l0 eq_refl) as [H1 [H2 H3]].
    split; [exact H1|]. split; [cbn; lia|].
    intros r Hr. apply in_app_or in Hr. destruct Hr as [Hr|[<-|[]]].
    + destruct (H3 r Hr) as [Ha [Hb Hd]]. split; [exact Ha|]. split; [exact Hb|].
      cbn; lia.
    + split; [|split; [lia | cbn; lia]].
      destruct (starts_with p s) eqn:Hs; [reflexivity|].
      rewrite (many1_ends_none p s Hs) in E. discriminate E.
Qed.

Lemma ends_fraction (y : string) :
  ends fraction y =
  match y with
  | String c z => if just "." c then many1_ends digit z else []
  | EmptyString => []
  end.
Proof.
  unfold fraction. cbn [ends]. destruct y as [|c z]; [reflexivity|].
  destruct (just "." c); cbn [flat_map]; [apply app_nil_r | reflexivity].
Qed.

Lemma ends_maybe_fraction (y : string) :
  exists rest l,
    ends (Maybe fraction) y = rest :: l /\
    (String.length rest <= String.length y)%nat /\
    forall r, In r l -> (String.length rest <= String.length r)%nat.
Proof.
  cbn [ends]. rewrite ends_fraction.
  destruct y as [|c z].
  - exists "", []. cbn. split; [reflexivity|]. split; [lia | intros r []].
  - destruct (just "." c).
    + destruct (many1_ends digit z) as [|rest0 l0] eqn:E.
      * exists (String c z), []. split; [reflexivity|]. split; [lia | intros r []].
      * destruct (many1_ends_order digit z rest0 l0 E) as [_ [H2 H3]].
        exists rest0, (l0 ++ [String c z]). split; [reflexivity|].
        split; [cbn; lia|].
        intros r Hr. apply in_app_or in Hr. destruct Hr as [Hr|[<-|[]]].
        -- apply (H3 r Hr).
        -- cbn; lia.
    + exists (String c z), []. split; [reflexivity|]. split; [lia | intros r []].
Qed.

Lemma digit_not_point (c : ascii) : digit c = true -> just "." c = false.
Proof.
  intros Hc. unfold just. destruct (Ascii.eqb_spec "." c) as [<-|]; [|reflexivity].
  discriminate Hc.
Qed.

Lemma ends_maybe_fraction_digit (r : string) :
  starts_with digit r = true -> ends (Maybe fraction) r = [r].
Proof.
  intros H. cbn [ends]. rewrite ends_fraction.
  destruct r as [|c z]; [discriminate H|]. cbn in H.
  rewrite (digit_not_point c H). reflexivity.
Qed.

Lemma flat_map_digits (l : list string) :
  (forall r, In r l -> starts_with digit r = true) ->
  flat_map (ends (Maybe fraction)) l = l.
Proof.
  induction l as [|r l IH]; intros H; [reflexivity|].
  cbn [flat_map]. rewrite ends_maybe_fraction_digit by (apply H; left; reflexivity).
  rewrite IH by (intros x Hx; apply H; right; exact Hx). reflexivity.
Qed.

Lemma ends_seq (r1 r2 : regex) (s : string) :
  ends (Seq r1 r2) s = flat_map (ends r2) (ends r1 s).
Proof. reflexivity. Qed.

Lemma ends_unsigned_order (x : string) :
  forall rest l,
    ends unsigned x = rest :: l ->
    forall r, In r l -> (String.length rest <= String.length r)%nat.
Proof.
  intros rest l. unfold unsigned. rewrite ends_seq.
  change (ends (Many1 digit) x) with (many1_ends digit x).
  destruct (many1_ends digit x) as [|x0 l0] eqn:E; [discriminate|].
  destruct (many1_ends_order digit x x0 l0 E) as [_ [_ H3]].
  cbn [flat_map].
  rewrite flat_map_digits by (intros r Hr; apply (H3 r Hr)).
  destruct (ends_maybe_fraction x0) as [rest0 [l1 [E1 [Hle Hl1]]]].
  rewrite E1. cbn [app]. intros [= <- <-] r Hr.
  apply in_app_or in Hr. destruct Hr as [Hr|Hr].
  - apply Hl1. exact Hr.
  - destruct (H3 r Hr) as [_ [Hb _]]. lia.
Qed.

Lemma ends_unsigned_none (x : string) :
  starts_with digit x = false -> ends unsigned x = [].
Proof.
  intros H. unfold unsigned. rewrite ends_seq.
  change (ends (Many1 digit) x) with (many1_ends digit x).
  rewrite many1_ends_none by exact H. reflexivity.
Qed.

Lemma sign_not_digit (c : ascii) : either "+" "-" c = true -> digit c = false.
Proof.
  unfold either. intros H. apply orb_prop in H.
  destruct H as [H|H]; apply Ascii.eqb_eq in H; subst c; reflexivity.
Qed.

Lemma ends_signed_float (body : string) :
  exists x, ends Calient.signed_float body = ends unsigned x.
Proof.
  unfold Calient.signed_float.
  change (Seq (Many1 digit) (Maybe (Seq (Class (just ".")) (Many1 digit))))
    with unsigned.
  rewrite ends_seq.
  change (ends (Maybe (Class (either "+" "-"))) body)
    with (ends (Class (either "+" "-")) body ++ [body]).
  destruct body as [|c b].
  - exists "". cbn [ends app flat_map]. apply app_nil_r.
  - cbn [ends]. destruct (either "+" "-" c) eqn:Hc.
    + exists b. cbn [app flat_map].
      rewrite (ends_unsigned_none (String c b)) by (cbn; apply sign_not_digit; exact Hc).
      rewrite !app_nil_r. reflexivity.
    + exists (String c b). cbn [app flat_map]. apply app_nil_r.
Qed.

Lemma ends_literal (c : ascii) (tag s : string) :
  ends (literal c tag) s = [] \/ exists r0, ends (literal c tag) s = [r0].
Proof.
  revert c s. induction tag as [|c' tag IH]; intros c s; cbn [literal ends].
  - destruct s as [|x s]; [left; reflexivity|].
    destruct (just c x); [right; eexists; reflexivity | left; reflexivity].
  - destruct s as [|x s]; [left; reflexivity|].
    destruct (just c x); [|left; reflexivity].
    cbn [flat_map]. rewrite app_nil_r. apply IH.
Qed.

(** Among the ways to match a tagged number at the front of a text, the
    first leaves the least of the text: it is the longest match. *)
Lemma ends_tagged_order (c : ascii) (tag s : string) :
  forall rest l,
    ends (Seq (literal c tag) Calient.signed_float) s = rest :: l ->
    forall r, In r l -> (String.length rest <= String.length r)%nat.
Proof.
  intros rest l. rewrite ends_seq.
  destruct (ends_literal c tag s) as [E|[r0 E]]; rewrite E; cbn [flat_map];
    [discriminate|].
  rewrite app_nil_r. destruct (ends_signed_float r0) as [x ->].
  apply ends_unsigned_order.
Qed.

Lemma suffix_of_ends (r : regex) (s rest : string) :
  In rest (ends r s) -> (String.length rest <= String.length s)%nat.
Proof.
  intros H. apply ends_iff in H. destruct H as [tok [-> _]].
  rewrite length_append. lia.
Qed.

(** Where [search] finds its token: at the first place of the text where
    the pattern matches at all, and as the first way to match there. *)
Lemma search_at (r : regex) (s tok : string) :
  search r s = Some tok ->
  exists before rest l,
    s = String.append before (String.append tok rest) /\
    ends r (String.append tok rest) = rest :: l /\
    forall b1 b2, before = String.append b1 b2 -> b2 <> "" ->
      ends r (String.append b2 (String.append tok rest)) = [].
Proof.
  induction s as [|c s IH]; cbn [search].
  - destruct (ends r "") as [|rest l] eqn:E; [discriminate|].
    intros [= <-]. destruct (search_head r "" rest l E) as [_ _].
    assert (Hr : rest = "").
    { pose proof (suffix_of_ends r "" rest ltac:(rewrite E; left; reflexivity)) as H.
      destruct rest; [reflexivity | cbn in H; lia]. }
    subst rest. exists "", "", l. cbn. split; [reflexivity|]. split; [exact E|].
    intros b1 b2 H. destruct b1; [|discriminate H]. cbn in H. subst b2. contradiction.
  - destruct (ends r (String c s)) as [|rest l] eqn:E.
    + intros H. destruct (IH H) as [before [rest [l [-> [E' Hfirst]]]]].
      exists (String c before), rest, l. split; [reflexivity|]. split; [exact E'|].
      intros b1 b2 Hb Hne. destruct b1 as [|x b1].
      * cbn in Hb. subst b2. exact E.
      * cbn in Hb. injection Hb as _ Hb. apply (Hfirst b1 b2 Hb Hne).
    + intros [= Htok].
      change (take (String.length (String c s) - String.length rest) (String c s) = tok)
        in Htok.
      assert (Hin : In rest (ends r (String c s))) by (rewrite E; left; reflexivity).
      apply ends_iff in Hin. destruct Hin as [t [Es M]].
      assert (Et : tok = t) by (rewrite <- Htok, Es; apply take_append).
      subst t. exists "", rest, l. cbn [String.append].
      split; [exact Es|]. split; [rewrite <- Es; exact E|].
      intros b1 b2 H. destruct b1; [|discriminate H]. cbn in H. subst b2. contradiction.
Qed.

Lemma shorter_prefix (a b x y : string) :
  String.append a x = String.append b y ->
  (String.length a < String.length b)%nat ->
  exists b2, b = String.append a b2 /\ b2 <> "" /\ x = String.append b2 y.
Proof.
  revert b. induction a as [|c a IH]; intros b E L.
  - cbn in E. exists b. split; [reflexivity|]. split; [|exact E].
    destruct b; [cbn in L; lia | discriminate].
  - destruct b as [|d b]; [cbn in L; lia|]. cbn in E. injection E as <- E.
    destruct (IH b E ltac:(cbn in L; lia)) as [b2 [-> [Hne Hx]]].
    exists b2. split; [reflexivity|]. split; assumption.
Qed.

(** X11: the [INPWR] and [OUTPWR] tokens [get_crs_power] takes from a
    text are the leftmost and the longest: no piece of the text that
    matches the pattern starts before the token, and none that starts
    where the token starts is longer, so a number is never cut short. *)
Theorem power_token_leftmost_longest (r : regex) (text tok : string) :
  r = Calient.pattern2 \/ r = Calient.pattern3 ->
  search r text = Some tok ->
  exists before after,
    text = String.append before (String.append tok after) /\
    (forall tok' after',
        String.append tok after = String.append tok' after' ->
        matches r tok' ->
        (String.length tok' <= String.length tok)%nat) /\
    (forall before' tok' after',
        text = String.append before' (String.append tok' after') ->
        matches r tok' ->
        (String.length before <= String.length before')%nat).
Proof.
  intros Hr H.
  assert (Hshape : exists c tag, r = Seq (literal c tag) Calient.signed_float).
  { destruct Hr as [->| ->]; eexists; eexists; reflexivity. }
  destruct Hshape as [c [tag ->]].
  destruct (search_at _ _ _ H) as [before [rest [l [-> [E Hfirst]]]]].
  exists before, rest. split; [reflexivity|]. split.
  - intros tok' after' Eq M.
    assert (Hin : In after' (ends (Seq (literal c tag) Calient.signed_float)
                               (String.append tok rest)))
      by (apply ends_iff; exists tok'; split; assumption).
    rewrite E in Hin.
    assert (Hlen : (String.length rest <= String.length after')%nat).
    { destruct Hin as [<-|Hin]; [lia|]. apply (ends_tagged_order c tag _ rest l E _ Hin). }
    apply (f_equal String.length) in Eq. rewrite !length_append in Eq. lia.
  - intros before' tok' after' Eq M.
    destruct (Nat.le_gt_cases (String.length before) (String.length before'))
      as [Hle|Hlt]; [exact Hle|]. exfalso.
    symmetry in Eq.
    destruct (shorter_prefix _ _ _ _ Eq Hlt) as [b2 [Hb [Hne Hx]]].
    pose proof (Hfirst before' b2 Hb Hne) as Hnone.
    assert (Hin : In after' (ends (Seq (literal c tag) Calient.signed_float)
                               (String.append b2 (String.append tok rest))))
      by (apply ends_iff; exists tok'; split; [symmetry; exact Hx | exact M]).
    rewrite Hnone in Hin. destruct Hin.
Qed.

Lemma power_token_leftmost_longest_witness :
  let text := "1.2.4>5.8.6 INPWR=-12.55dBm OUTPWR=-3.1" in
  (Calient.pattern2 = Calient.pattern2 \/ Calient.pattern2 = Calient.pattern3) /\
  search Calient.pattern2 text = Some "INPWR=-12.55" /\
  exists before after,
    text = String.append before (String.append "INPWR=-12.55" after).
Proof.
  intros text.
  assert (H1 : Calient.pattern2 = Calient.pattern2 \/
               Calient.pattern2 = Calient.pattern3) by (left; reflexivity).
  assert (H2 : search Calient.pattern2 text = Some "INPWR=-12.55") by reflexivity.
  split; [exact H1|]. split; [exact H2|].
  destruct (power_token_leftmost_longest Calient.pattern2 text "INPWR=-12.55" H1 H2)
    as [before [after [E _]]].
  exists before, after. exact E.
Defined.

(** ** The power read from a reading *)

Lemma digit_not (c x : ascii) :
  digit c = true -> digit x = false -> Ascii.eqb c x = false.
Proof.
  intros Hc Hx. destruct (Ascii.eqb_spec c x) as [->|]; [|reflexivity].
  rewrite Hx in Hc. discriminate Hc.
Qed.

Lemma read_digits_run (ds : string) :
  matches (Many1 digit) ds ->
  forall (rest : string) (acc count : Z),
    starts_with digit rest = false ->
    exists m : Z,
      read_digits (String.append ds rest) acc count =
      (m, count + Z.of_nat (String.length ds), rest) /\
      (0 < String.length ds)%nat.
Proof.
  induction ds as [|c ds IH]; intros M rest acc count Hr.
  - inversion M.
  - inversion M as [| | | |p x Hx|p x s Hx Ms]; subst.
    + cbn [String.append read_digits]. rewrite Hx.
      exists (10 * acc + digit_value c). split; [|cbn; lia].
      replace (count + Z.of_nat (String.length (String c ""))) with (count + 1)
        by (cbn; lia).
      destruct rest as [|y rest]; cbn [read_digits]; [reflexivity|].
      cbn [starts_with digit] in Hr. rewrite Hr. reflexivity.
    + cbn [String.append read_digits]. rewrite Hx.
      destruct (IH Ms rest (10 * acc + digit_value c) (count + 1) Hr) as [m [E L]].
      exists m. split; [|cbn; lia]. rewrite E.
      replace (count + Z.of_nat (String.length (String c ds)))
        with (count + 1 + Z.of_nat (String.length ds))
        by (cbn [String.length]; lia).
      reflexivity.
Qed.

Lemma run_head (ds : string) :
  matches (Many1 digit) ds -> exists c ds', ds = String c ds' /\ digit c = true.
Proof.
  intros M. inversion M; subst; eexists; eexists; split; try reflexivity; assumption.
Qed.

Lemma skip_spaces_none (c : ascii) (s : string) :
  is_space c = false -> skip_spaces (String c s) = String c s.
Proof. intros H. cbn [skip_spaces]. rewrite H. reflexivity. Qed.

(** A signed decimal, as the patterns of [get_crs_power] match it, reads
    as a float to its end. *)
Lemma signed_float_reads (number : string) :
  matches Calient.signed_float number ->
  exists x : float64, py_float number = Ok x.
Proof.
  unfold Calient.signed_float. intros M.
  inversion M as [|? ? sg body Msg Mbody| | | |]; subst.
  inversion Mbody as [|? ? ds fr Mds Mfr| | | |]; subst.
  destruct (run_head ds Mds) as [c [ds' [Eds Hc]]].
  assert (Hfr : (fr = "" \/ exists ds2, fr = String "." ds2 /\ matches (Many1 digit) ds2)).
  { inversion Mfr as [| |? ? Mf| | |]; subst; [|left; reflexivity].
    right. inversion Mf as [|? ? t1 t2 M1 M2| | | |]; subst.
    inversion M1 as [p x Hx| | | | |]; subst.
    unfold just in Hx. apply Ascii.eqb_eq in Hx. subst x.
    exists t2. split; [reflexivity | exact M2]. }
  assert (Hnd : starts_with digit fr = false).
  { destruct Hfr as [->|[ds2 [-> _]]]; reflexivity. }
  assert (Hbody : forall negative, exists x,
             read_unsigned negative (String.append ds fr) = Some (x, "")).
  { intros negative. unfold read_unsigned.
    destruct (read_digits_run ds Mds fr 0 0 Hnd) as [m1 [E1 L1]]. rewrite E1.
    destruct Hfr as [->|[ds2 [-> M2]]].
    - destruct (Z.eqb_spec (0 + Z.of_nat (String.length ds) + 0) 0) as [Z0|_]; [lia|].
      cbn [read_exponent]. eexists. reflexivity.
    - cbn [Ascii.eqb Bool.eqb]. 
      destruct (read_digits_run ds2 M2 "" m1 0 eq_refl) as [m [E2 L2]].
      rewrite append_nil_r in E2. rewrite E2.
      destruct (Z.eqb_spec (0 + Z.of_nat (String.length ds) +
                            (0 + Z.of_nat (String.length ds2))) 0) as [Z0|_]; [lia|].
      cbn [read_exponent]. eexists. reflexivity. }
  assert (Hsp : is_space c = false).
  { unfold digit, in_range in Hc. unfold is_space.
    apply andb_prop in Hc. destruct Hc as [H1 H2].
    apply Nat.leb_le in H1, H2. cbn in H1, H2.
    destruct (Nat.eqb_spec (nat_of_ascii c) 32) as [E|_]; [lia|].
    destruct (Nat.leb_spec (nat_of_ascii c) 13) as [E|_]; [lia|].
    rewrite andb_false_r. reflexivity. }
  inversion Msg as [| |? ? Ms| | |]; subst.
  - (* a sign *)
    inversion Ms as [p x Hx| | | | |]; subst.
    unfold either in Hx. apply orb_prop in Hx.
    destruct (Hbody true) as [xt Ht], (Hbody false) as [xf Hf].
    cbn [String.append] in Ht, Hf.
    destruct Hx as [Hx|Hx]; apply Ascii.eqb_eq in Hx; subst x.
    + exists xf. unfold py_float. cbn [String.append].
      rewrite skip_spaces_none by reflexivity.
      change (read_decimal (String "+" (String c (String.append ds' fr))))
        with (read_unsigned false (String c (String.append ds' fr))).
      rewrite Hf. reflexivity.
    + exists xt. unfold py_float. cbn [String.append].
      rewrite skip_spaces_none by reflexivity.
      change (read_decimal (String "-" (String c (String.append ds' fr))))
        with (read_unsigned true (String c (String.append ds' fr))).
      rewrite Ht. reflexivity.
  - (* no sign *)
    destruct (Hbody false) as [xf Hf]. exists xf.
    unfold py_float. cbn [String.append].
    rewrite skip_spaces_none by exact Hsp.
    unfold read_decimal, read_sign.
    rewrite (digit_not c "-" Hc eq_refl), (digit_not c "+" Hc eq_refl).
    cbn [String.append] in Hf. rewrite Hf. reflexivity.
Qed.

Lemma signed_float_head (number : string) :
  matches Calient.signed_float number ->
  exists c rest, number = String c rest /\ char_in c "INPWR=" = false.
Proof.
  unfold Calient.signed_float. intros M.
  inversion M as [|? ? sg body Msg Mbody| | | |]; subst.
  inversion Mbody as [|? ? ds fr Mds Mfr| | | |]; subst.
  destruct (run_head ds Mds) as [c [ds' [-> Hc]]].
  inversion Msg as [| |? ? Ms| | |]; subst.
  - inversion Ms as [p x Hx| | | | |]; subst.
    exists x. eexists. split; [reflexivity|].
    unfold either in Hx. apply orb_prop in Hx.
    destruct Hx as [Hx|Hx]; apply Ascii.eqb_eq in Hx; subst x; reflexivity.
  - exists c. eexists. split; [reflexivity|].
    unfold char_in. cbn [list_ascii_of_string existsb].
    rewrite (digit_not c "I" Hc eq_refl), (digit_not c "N" Hc eq_refl),
      (digit_not c "P" Hc eq_refl), (digit_not c "W" Hc eq_refl),
      (digit_not c "R" Hc eq_refl), (digit_not c "=" Hc eq_refl).
    reflexivity.
Qed.

Lemma lstrip_stops (chars : string) (c : ascii) (s : string) :
  char_in c chars = false -> py_lstrip chars (String c s) = String c s.
Proof. intros H. cbn [py_lstrip]. rewrite H. reflexivity. Qed.

Lemma lstrip_goes (chars : string) (c : ascii) (s : string) :
  char_in c chars = true -> py_lstrip chars (String c s) = py_lstrip chars s.
Proof. intros H. cbn [py_lstrip]. rewrite H. reflexivity. Qed.

(** An [INPWR] token converts; an [OUTPWR] token is not stripped, and
    does not. *)
Lemma input_token_converts (tok : string) :
  matches Calient.pattern2 tok ->
  exists x : float64, py_float (py_lstrip "INPWR=" tok) = Ok x.
Proof.
  intros M. apply (matches_tagged "I" "NPWR=") in M.
  destruct M as [number [-> M]].
  destruct (signed_float_head number M) as [c [rest [E Hc]]].
  destruct (signed_float_reads number M) as [x Hx]. exists x.
  cbn [String.append]. rewrite !lstrip_goes by reflexivity.
  rewrite E, lstrip_stops by exact Hc. rewrite <- E. exact Hx.
Qed.

Lemma output_token_fails (tok : string) :
  matches Calient.pattern3 tok ->
  py_float (py_lstrip "INPWR=" tok) = Raise ValueError.
Proof.
  intros M. apply (matches_tagged "O" "UTPWR=") in M.
  destruct M as [number [-> _]].
  cbn [String.append]. rewrite lstrip_stops by reflexivity.
  unfold py_float. rewrite skip_spaces_none by reflexivity.
  reflexivity.
Qed.

(** X12: what [float(power_reading[1].lstrip('INPWR='))] comes to, by
    the fields found in the text.  With a cross-connect and an [INPWR]
    field it is a float.  With an [OUTPWR] field and only one of the other
    two, the reading has two fields, its second is the [OUTPWR] token, from
    which nothing is stripped, and the conversion raises [ValueError].
    Otherwise the reading has fewer than two fields and the index raises
    [IndexError]. *)
Theorem reading_power_outcome (port_data : string) :
  let power_reading := Calient.crs_power_fields port_data in
  match search Calient.pattern1 port_data,
        search Calient.pattern2 port_data,
        search Calient.pattern3 port_data with
  | Some _, Some _, _ =>
      2 <= len power_reading /\
      exists x : float64, reading_power power_reading = Ok x
  | Some _, None, Some _ | None, Some _, Some _ =>
      2 <= len power_reading /\
      reading_power power_reading = Raise ValueError
  | _, _, _ =>
      len power_reading <= 1 /\
      reading_power power_reading = Raise IndexError
  end.
Proof.
  unfold Calient.crs_power_fields, reading_power.
  destruct (search Calient.pattern1 port_data) as [crs|] eqn:E1;
    destruct (search Calient.pattern2 port_data) as [inp|] eqn:E2;
    destruct (search Calient.pattern3 port_data) as [out|] eqn:E3;
    unfold len; cbn [app index nth_error rbind List.length];
    try (split; [lia | reflexivity]).
  - split; [lia|]. apply input_token_converts. apply (search_some _ _ _ E2).
  - split; [lia|]. apply input_token_converts. apply (search_some _ _ _ E2).
  - split; [lia|]. apply output_token_fails. apply (search_some _ _ _ E3).
  - split; [lia|]. apply output_token_fails. apply (search_some _ _ _ E3).
Qed.

(** A reading of the three fields, and one without [INPWR]. *)
Example reading_power_full :
  reading_power (Calient.crs_power_fields "1.2.4>5.8.6 INPWR=-12.5 OUTPWR=+3.1") =
  Ok (float_literal (-125) 1).
Proof. vm_compute. reflexivity. Qed.

Example reading_power_without_input :
  reading_power (Calient.crs_power_fields "1.2.4>5.8.6 OUTPWR=+3.1") =
  Raise ValueError.
Proof. vm_compute. reflexivity. Qed.

(** ** The poll after the loop of step 1.5 *)

Lemma bind_ok {A B} (t : list event) (a : A) (k : A -> io B) :
  bind (t, Ok a) k = (t ++ fst (k a), snd (k a)).
Proof. unfold bind. destruct (k a). reflexivity. Qed.

Lemma poll_result (responses : nat -> string) (port : string) (k : nat) :
  poll responses port k =
  (poll_events port, Ok (Calient.crs_power_fields (responses k))).
Proof. reflexivity. Qed.

(** X13: the check of step 1.5 does not use a reading its loop has
    looked at: after the loop it polls the port once more, and its result
    is the second field of that last reading, or [IndexError] when that
    reading has fewer than two fields.  The last poll is the one numbered
    [k], after [k] earlier ones. *)
Theorem drop_power_check_polls_again (responses : nat -> string) (extra : nat) :
  let reading := fun k : nat => Calient.crs_power_fields (responses k) in
  exists k : nat,
    (1 <= k <= 11)%nat /\
    drop_power_check responses (9 + extra) =
    (Sleep 5000 :: poll_events POWER_CHECK_PORT ++
     List.concat (repeat drop_cycle (if (k =? 11)%nat then 9 else k - 1)) ++
     (if (k =? 11)%nat then operator_exit POWER_CHECK_PORT else []) ++
     poll_events POWER_CHECK_PORT,
     rbind (index (reading k) 1) (fun token => Ok (Some token))).
Proof.
  intros reading.
  destruct (drop_power_loop_from responses 9 (9 + extra) 0 ltac:(lia) ltac:(lia))
    as [j [Hj [_ [_ E]]]].
  rewrite !Nat.add_0_l in E. change (10 - Z.of_nat 9) with 1 in E.
  exists (if (j =? 9)%nat then 11%nat else S j).
  split.
  - destruct (Nat.eqb_spec j 9); lia.
  - unfold drop_power_check. rewrite bind_emit, poll_result, bind_ok, E, bind_ok.
    destruct (Nat.eqb_spec j 9) as [->|Hne].
    + cbn [Nat.eqb]. rewrite poll_result, bind_ok.
      unfold reading, lift, ret, bind. cbn [fst snd].
      destruct (index _ 1) as [token|e]; cbn [rbind fst snd];
        rewrite ?app_nil_r, <- ?app_assoc; reflexivity.
    + assert (Hk : (S j =? 11)%nat = false) by (apply Nat.eqb_neq; lia).
      rewrite Hk. replace (S j - 1)%nat with j by lia.
      rewrite poll_result, bind_ok.
      unfold reading, lift, ret, bind. cbn [fst snd].
      destruct (index _ 1) as [token|e]; cbn [rbind fst snd];
        rewrite ?app_nil_r, <- ?app_assoc; reflexivity.
Qed.

(** A full reading lets the loop pass, and the poll that follows comes
    back short. *)
Example drop_power_check_short_repoll :
  let responses := fun k : nat =>
    if (k =? 0)%nat then "1.2.4>5.8.6 INPWR=-12.5 OUTPWR=+3.1" else "1.2.4>5.8.6" in
  outcome (drop_power_check responses 9) = Raise IndexError.
Proof. vm_compute. reflexivity. Qed.

(** ** The outcome of the check of step 1.4 *)

Lemma index_second {A} (l : list A) : 1 < len l -> exists x, index l 1 = Ok x.
Proof.
  unfold len, index. destruct l as [|a [|b l]]; cbn [List.length nth_error]; intros H;
    [lia | lia | eexists; reflexivity].
Qed.

(** X18: the check of step 1.4 either finds, within three turns of its
    loop, a reading of two fields or more and returns its second field, or
    makes its four turns, prompts the operator, polls once more and takes
    the second field of that last reading: it raises nothing but
    [IndexError], and only after the prompt.  The reading polled in the
    fourth turn is replaced without being looked at. *)
Theorem tx_power_check_outcome (responses : nat -> string) (extra : nat) :
  let reading := fun k : nat => Calient.crs_power_fields (responses k) in
  (exists (j : nat) (token : string),
      (j <= 3)%nat /\
      (forall i, (i < j)%nat -> len (reading i) <= 1) /\
      index (reading j) 1 = Ok token /\
      tx_power_check responses (4 + extra) =
      (poll_events POWER_CHECK_PORT_TELEMETRY_TX ++ List.concat (repeat tx_cycle j),
       Ok (Some token))) \/
  ((forall i, (i < 4)%nat -> len (reading i) <= 1) /\
   tx_power_check responses (4 + extra) =
   (poll_events POWER_CHECK_PORT_TELEMETRY_TX ++ List.concat (repeat tx_cycle 4) ++
    operator_exit POWER_CHECK_PORT_TELEMETRY_TX,
    rbind (index (reading 5%nat) 1) (fun token => Ok (Some token)))).
Proof.
  intros reading.
  destruct (tx_power_loop_from responses 4 (4 + extra) 0 ltac:(lia) ltac:(lia))
    as [j [Hj [Hbefore [Hat E]]]].
  rewrite !Nat.add_0_l in E. change (5 - Z.of_nat 4) with 1 in E.
  assert (Hb : forall i, (i < j)%nat -> len (reading i) <= 1).
  { intros i Hi. apply (Hbefore i Hi). }
  destruct (Nat.eqb_spec j 4) as [->|Hne].
  - right. split; [exact Hb|].
    unfold tx_power_check. rewrite poll_result, bind_ok, E, bind_ok.
    unfold reading, lift, ret, bind. cbn [fst snd].
    destruct (index _ 1) as [token|e]; cbn [rbind fst snd];
      rewrite ?app_nil_r; reflexivity.
  - left. destruct (index_second (reading j) (Hat ltac:(lia))) as [token Htok].
    exists j, token. split; [lia|]. split; [exact Hb|]. split; [exact Htok|].
    unfold tx_power_check. rewrite poll_result, bind_ok, E, bind_ok.
    unfold reading in Htok. unfold lift, ret, bind. cbn [fst snd].
    rewrite Htok. cbn [fst snd]. rewrite !app_nil_r. reflexivity.
Qed.

(** ** Telnet sessions *)

Lemma telnet_sessions_app (t1 t2 : list event) (open : bool) :
  telnet_sessions open t1 = true ->
  telnet_sessions open (t1 ++ t2) = telnet_sessions false t2.
Proof.
  revert open. induction t1 as [|e t1 IH]; intros open H.
  - cbn in H. destruct open; [discriminate H | reflexivity].
  - destruct e, open; cbn [telnet_sessions app negb andb] in H |- *;
      try discriminate H; apply IH; exact H.
Qed.

Lemma trace_bind {A B} (m : io A) (k : A -> io B) :
  trace (bind m k) =
  match outcome m with
  | Ok a => trace m ++ trace (k a)
  | Raise _ => trace m
  end.
Proof.
  destruct m as [t [a|e]]; cbn [bind trace outcome fst snd]; [|reflexivity].
  destruct (k a). reflexivity.
Qed.

Lemma sessions_bind {A B} (m : io A) (k : A -> io B) :
  telnet_sessions false (trace m) = true ->
  (forall a, telnet_sessions false (trace (k a)) = true) ->
  telnet_sessions false (trace (bind m k)) = true.
Proof.
  intros Hm Hk. rewrite trace_bind. destruct (outcome m) as [a|e]; [|exact Hm].
  rewrite telnet_sessions_app by exact Hm. apply Hk.
Qed.

Lemma sessions_lift {A} (r : result A) : telnet_sessions false (trace (lift r)) = true.
Proof. reflexivity. Qed.

Lemma sessions_ret {A} (a : A) : telnet_sessions false (trace (ret a)) = true.
Proof. reflexivity. Qed.

Lemma sessions_poll (port port_data : string) :
  telnet_sessions false (trace (Calient.calient_get_power port port_data)) = true.
Proof. reflexivity. Qed.

Lemma sessions_add (crs : string) :
  telnet_sessions false (trace (Calient.Add_CRS_Calient crs)) = true.
Proof. reflexivity. Qed.

Lemma sessions_del (crs : string) :
  telnet_sessions false (trace (Calient.Del_CRS_Calient crs)) = true.
Proof. reflexivity. Qed.

Lemma sessions_tx_loop (responses : nat -> string) (fuel : nat) :
  forall k power_reading count,
    telnet_sessions false
      (trace (tx_power_loop responses fuel k power_reading count)) = true.
Proof.
  induction fuel as [|fuel IH]; intros k power_reading count; cbn [tx_power_loop];
    destruct (len power_reading <=? 1); try reflexivity.
  unfold poll.
  apply sessions_bind; [apply sessions_del | intros _].
  apply sessions_bind; [apply sessions_add | intros _].
  apply sessions_bind; [reflexivity | intros _].
  apply sessions_bind; [apply sessions_poll | intros reading].
  destruct (count + 1 =? 5); [|apply IH].
  apply sessions_bind; [reflexivity | intros _].
  apply sessions_bind; [apply sessions_poll | intros reading'].
  reflexivity.
Qed.

Lemma sessions_drop_loop (responses : nat -> string) (fuel : nat) :
  forall k power_reading count,
    telnet_sessions false
      (trace (drop_power_loop responses fuel k power_reading count)) = true.
Proof.
  induction fuel as [|fuel IH]; intros k power_reading count; cbn [drop_power_loop];
    destruct (len power_reading =? 1); try reflexivity.
  unfold poll.
  apply sessions_bind; [reflexivity | intros _].
  apply sessions_bind; [apply sessions_poll | intros reading].
  destruct (count + 1 =? 10); [|apply IH].
  apply sessions_bind; [reflexivity | intros _].
  apply sessions_bind; [apply sessions_poll | intros reading'].
  reflexivity.
Qed.

Lemma sessions_capture_loop (captures : nat -> list float64) (trigger_level : float64)
    (fuel : nat) :
  forall k data idle_voltage peak_voltage,
    telnet_sessions false
      (trace (capture_loop captures trigger_level fuel k data idle_voltage
                peak_voltage)) = true.
Proof.
  induction fuel as [|fuel IH]; intros k data idle_voltage peak_voltage;
    cbn [capture_loop];
    destruct (capture_rejected peak_voltage idle_voltage trigger_level);
    try reflexivity.
  apply sessions_bind; [apply sessions_del | intros _].
  apply sessions_bind; [reflexivity | intros _].
  apply sessions_bind; [apply sessions_add | intros _].
  do 7 (apply sessions_bind; [reflexivity | intros _]).
  apply sessions_bind; [apply sessions_lift | intros idle].
  apply sessions_bind; [apply sessions_lift | intros peak].
  apply IH.
Qed.

(** X14: whatever the switch answers and whatever the scope captures,
    and also when the step ends in an exception, the telnet calls of the
    two power checks and of the sampling step come in whole sessions:
    every session that is opened is closed before the next is opened, and
    nothing is written or read outside one. *)
Theorem telnet_sessions_closed (responses : nat -> string)
    (captures : nat -> list float64) (trigger_level : float64) (fuel : nat) :
  telnet_sessions false (trace (tx_power_check responses fuel)) = true /\
  telnet_sessions false (trace (drop_power_check responses fuel)) = true /\
  telnet_sessions false (trace (take_sample captures trigger_level fuel)) = true.
Proof.
  split; [|split].
  - unfold tx_power_check, poll.
    apply sessions_bind; [apply sessions_poll | intros reading].
    apply sessions_bind; [apply sessions_tx_loop | intros [[k reading']|]];
      [|reflexivity].
    apply sessions_bind; [apply sessions_lift | intros token]. reflexivity.
  - unfold drop_power_check, poll.
    apply sessions_bind; [reflexivity | intros _].
    apply sessions_bind; [apply sessions_poll | intros reading].
    apply sessions_bind; [apply sessions_drop_loop | intros [[k reading']|]];
      [|reflexivity].
    apply sessions_bind; [apply sessions_poll | intros again].
    apply sessions_bind; [apply sessions_lift | intros token]. reflexivity.
  - unfold take_sample.
    apply sessions_bind; [reflexivity | intros _].
    apply sessions_bind; [apply sessions_lift | intros idle].
    apply sessions_bind; [apply sessions_lift | intros peak].
    apply sessions_bind; [apply sessions_capture_loop | intros [data|]];
      [|reflexivity].
    apply sessions_bind; [apply sessions_lift | intros idle'].
    apply sessions_bind; [apply sessions_lift | intros peak']. reflexivity.
Qed.

(** ** The loop that guards a capture *)

Section CaptureFacts.

Variable captures : nat -> list float64.
Variable trigger_level : float64.

Lemma retried_extremes (data : list float64) :
  capture_retried trigger_level data = true ->
  exists idle peak,
    py_min data = Ok idle /\ py_max data = Ok peak /\
    capture_rejected peak idle trigger_level = true.
Proof.
  unfold capture_retried.
  destruct (py_min data) as [idle|]; [|discriminate].
  destruct (py_max data) as [peak|]; [|discriminate].
  intros H. exists idle, peak. repeat split. exact H.
Qed.

Lemma extremes_of_empty : py_min [] = Raise ValueError /\ py_max [] = Raise ValueError.
Proof. split; reflexivity. Qed.

Lemma extremes_of_nonempty (data : list float64) :
  data <> [] -> exists idle peak, py_min data = Ok idle /\ py_max data = Ok peak.
Proof.
  destruct data as [|x rest]; [contradiction|]. intros _.
  eexists. eexists. split; reflexivity.
Qed.

Lemma capture_loop_turn (fuel k : nat) (data : list float64)
    (idle_voltage peak_voltage : float64) :
  capture_rejected peak_voltage idle_voltage trigger_level = true ->
  capture_loop captures trigger_level (S fuel) k data idle_voltage peak_voltage =
  match py_min (captures k), py_max (captures k) with
  | Ok idle, Ok peak =>
      (capture_cycle ++
         fst (capture_loop captures trigger_level fuel (S k) (captures k) idle peak),
       snd (capture_loop captures trigger_level fuel (S k) (captures k) idle peak))
  | Raise e, _ => (capture_cycle, Raise e)
  | Ok _, Raise e => (capture_cycle, Raise e)
  end.
Proof.
  intros Hr. cbn [capture_loop]. rewrite Hr.
  destruct (py_min (captures k)) as [idle|e]; [|reflexivity].
  destruct (py_max (captures k)) as [peak|e]; [|reflexivity].
  cbn -[capture_loop].
  destruct (capture_loop captures trigger_level fuel (S k) (captures k) idle peak).
  reflexivity.
Qed.

Lemma capture_loop_from (n : nat) :
  forall (fuel j : nat) (idle peak : float64),
    (n <= fuel)%nat ->
    py_min (captures j) = Ok idle -> py_max (captures j) = Ok peak ->
    (forall i, (i < n)%nat -> capture_retried trigger_level (captures (j + i)) = true) ->
    capture_retried trigger_level (captures (j + n)) = false ->
    capture_loop captures trigger_level fuel (S j) (captures j) idle peak =
    (List.concat (repeat capture_cycle n),
     match captures (j + n) with
     | [] => Raise ValueError
     | _ => Ok (Some (captures (j + n)))
     end).
Proof.
  induction n as [|n IH]; intros fuel j idle peak Hfuel Hmin Hmax Hbefore Hat.
  - rewrite Nat.add_0_r in Hat |- *.
    unfold capture_retried in Hat. rewrite Hmin, Hmax in Hat.
    destruct (captures j) as [|x rest] eqn:Ej; [discriminate Hmin|].
    destruct fuel; cbn [capture_loop]; rewrite Hat; reflexivity.
  - destruct fuel as [|fuel]; [lia|].
    pose proof (Hbefore 0%nat ltac:(lia)) as H0. rewrite Nat.add_0_r in H0.
    unfold capture_retried in H0. rewrite Hmin, Hmax in H0.
    rewrite capture_loop_turn by exact H0.
    destruct (captures (S j)) as [|x rest] eqn:Ej.
    + (* the next capture is empty: it is the one that ends the loop *)
      destruct n as [|n].
      * replace (j + 1)%nat with (S j) by lia. rewrite Ej. reflexivity.
      * pose proof (Hbefore 1%nat ltac:(lia)) as H1.
        replace (j + 1)%nat with (S j) in H1 by lia. rewrite Ej in H1.
        discriminate H1.
    + destruct (extremes_of_nonempty (x :: rest) ltac:(discriminate))
        as [idle' [peak' [Hmin' Hmax']]].
      rewrite Hmin', Hmax'. rewrite <- Ej in Hmin', Hmax' |- *.
      rewrite (IH fuel (S j) idle' peak' ltac:(lia) Hmin' Hmax').
      * cbn [fst snd repeat List.concat].
        replace (S j + n)%nat with (j + S n)%nat by lia. reflexivity.
      * intros i Hi. replace (S j + i)%nat with (j + S i)%nat by lia.
        apply Hbefore. lia.
      * replace (S j + n)%nat with (j + S n)%nat by lia. exact Hat.
Qed.

Lemma capture_loop_unbounded (fuel : nat) :
  forall (j : nat) (idle peak : float64),
    py_min (captures j) = Ok idle -> py_max (captures j) = Ok peak ->
    (forall i, capture_retried trigger_level (captures i) = true) ->
    capture_loop captures trigger_level fuel (S j) (captures j) idle peak =
    (List.concat (repeat capture_cycle fuel), Ok None).
Proof.
  induction fuel as [|fuel IH]; intros j idle peak Hmin Hmax Hall.
  - pose proof (Hall j) as Hj. unfold capture_retried in Hj.
    rewrite Hmin, Hmax in Hj. cbn [capture_loop]. rewrite Hj. reflexivity.
  - pose proof (Hall j) as Hj. unfold capture_retried in Hj.
    rewrite Hmin, Hmax in Hj. rewrite capture_loop_turn by exact Hj.
    destruct (retried_extremes _ (Hall (S j))) as [idle' [peak' [Hmin' [Hmax' _]]]].
    rewrite Hmin', Hmax'. rewrite (IH (S j) idle' peak' Hmin' Hmax' Hall).
    reflexivity.
Qed.

End CaptureFacts.

(** X15: the sampling step turns its loop once for each capture the
    guard sends back and leaves it at the first capture it does not: the
    voltages come from that capture, and a capture with no sample at all
    ends the step with [ValueError]. *)
Theorem take_sample_first_accepted (captures : nat -> list float64)
    (trigger_level : float64) (n extra : nat) :
  (forall i, (i < n)%nat -> capture_retried trigger_level (captures i) = true) ->
  capture_retried trigger_level (captures n) = false ->
  take_sample captures trigger_level (n + extra) =
  (Scope "getCH1NewData()" :: List.concat (repeat capture_cycle n),
   match captures n with
   | [] => Raise ValueError
   | data =>
       rbind (calculate_idle_voltage data trigger_level) (fun idle_voltage =>
       rbind (calculate_peak_voltage data trigger_level) (fun peak_voltage =>
       Ok (Some (peak_voltage, idle_voltage))))
   end).
Proof.
  intros Hbefore Hat. unfold take_sample. rewrite bind_emit.
  destruct (captures 0%nat) as [|x rest] eqn:E0.
  - (* no sample at all in the first capture *)
    destruct n as [|n].
    + rewrite E0. reflexivity.
    + pose proof (Hbefore 0%nat ltac:(lia)) as H0. rewrite E0 in H0. discriminate H0.
  - destruct (extremes_of_nonempty (x :: rest) ltac:(discriminate))
      as [idle [peak [Hmin Hmax]]].
    rewrite Hmin, bind_lift_ok, Hmax, bind_lift_ok.
    rewrite <- E0 in Hmin, Hmax |- *.
    rewrite (capture_loop_from captures trigger_level n (n + extra) 0 idle peak
               ltac:(lia) Hmin Hmax Hbefore Hat).
    cbn [Nat.add].
    destruct (captures n) as [|y more] eqn:En.
    + unfold bind. cbn [fst snd]. reflexivity.
    + unfold bind, ret, lift. cbn [fst snd].
      destruct (calculate_idle_voltage (y :: more) trigger_level) as [i|e];
        cbn [rbind]; [|rewrite app_nil_r; reflexivity].
      destruct (calculate_peak_voltage (y :: more) trigger_level) as [p|e];
        cbn [rbind]; rewrite !app_nil_r; reflexivity.
Qed.


(** A capture below the trigger level, then one across it. *)
Lemma take_sample_first_accepted_witness :
  let captures := fun k : nat =>
    if (k =? 0)%nat then [float_of_Z 1; float_of_Z 2]
    else [float_of_Z 1; float_of_Z 9] in
  let trigger_level := float_of_Z 5 in
  (forall i, (i < 1)%nat -> capture_retried trigger_level (captures i) = true) /\
  capture_retried trigger_level (captures 1%nat) = false /\
  take_sample captures trigger_level 1 =
  (Scope "getCH1NewData()" :: capture_cycle, Ok (Some (float_of_Z 9, float_of_Z 1))).
Proof.
  intros captures trigger_level.
  assert (H1 : forall i, (i < 1)%nat ->
                 capture_retried trigger_level (captures i) = true).
  { intros i Hi. replace i with 0%nat by lia. reflexivity. }
  assert (H2 : capture_retried trigger_level (captures 1%nat) = false) by reflexivity.
  split; [exact H1|]. split; [exact H2|].
  refine (eq_trans (take_sample_first_accepted captures trigger_level 1 0 H1 H2) _).
  vm_compute. reflexivity.
Defined.

(** X16: the loop that guards the capture has no cap: as long as every
    capture is sent back it goes on, one turn for each unit of fuel, and
    the step does not return. *)
Theorem capture_loop_has_no_cap (captures : nat -> list float64)
    (trigger_level : float64) (fuel : nat) :
  (forall i, capture_retried trigger_level (captures i) = true) ->
  take_sample captures trigger_level fuel =
  (Scope "getCH1NewData()" :: List.concat (repeat capture_cycle fuel), Ok None).
Proof.
  intros Hall. unfold take_sample. rewrite bind_emit.
  destruct (retried_extremes trigger_level _ (Hall 0%nat)) as [idle [peak [Hmin [Hmax _]]]].
  rewrite Hmin, bind_lift_ok, Hmax, bind_lift_ok.
  rewrite (capture_loop_unbounded captures trigger_level fuel 0 idle peak Hmin Hmax Hall).
  cbn. rewrite app_nil_r. reflexivity.
Qed.

(** A signal that stays below the trigger level. *)
Lemma capture_loop_has_no_cap_witness :
  let captures := fun _ : nat => [float_of_Z 1; float_of_Z 2] in
  (forall i, capture_retried (float_of_Z 5) (captures i) = true) /\
  take_sample captures (float_of_Z 5) 3 =
  (Scope "getCH1NewData()" :: List.concat (repeat capture_cycle 3), Ok None).
Proof.
  intros captures.
  assert (H : forall i, capture_retried (float_of_Z 5) (captures i) = true)
    by (intros i; reflexivity).
  split; [exact H|].
  exact (capture_loop_has_no_cap captures (float_of_Z 5) 3 H).
Defined.

(** ** ALS *)

(** X17: [ALS] dispatches nothing for module 1, and what it dispatches
    for any other module is the request for EDFA 2; when the connection
    fails it prints the exception and then raises [UnboundLocalError] from
    its [finally] clause; when the connection succeeds the session is
    closed last, and what [close_session] raises is passed on. *)
Theorem ALS_dispatch (IP : string) (module : Z)
    (connected dispatched closed : result unit) :
  let events := fst (ALS IP module connected dispatched closed) in
  let outcome := snd (ALS IP module connected dispatched closed) in
  (module = 1 -> forall edfa, ~ In (Dispatch_disable_als edfa) events) /\
  (forall edfa, In (Dispatch_disable_als edfa) events -> edfa = 2) /\
  (forall e, connected = Raise e ->
     events = [Connect IP; Print_error e] /\ outcome = Raise UnboundLocalError) /\
  (forall m, connected = Ok m ->
     (exists before, events = before ++ [Close_session]) /\ outcome = closed).
Proof.
  cbv zeta. unfold ALS. split; [|split; [|split]].
  - intros -> edfa. cbn [Z.eqb Pos.eqb].
    destruct connected as [m|e]; cbn [fst app In]; intros H;
      repeat (destruct H as [H|H]; try discriminate H); exact H.
  - intros edfa.
    destruct connected as [m|e]; [destruct (module =? 1); [|destruct dispatched]|];
      cbn [fst app In]; intros H;
      repeat (destruct H as [H|H]; try discriminate H);
      try contradiction; injection H as <-; reflexivity.
  - intros e ->. split; reflexivity.
  - intros m ->.
    destruct (module =? 1); [|destruct dispatched]; cbn [fst snd];
      (split; [eexists; reflexivity | reflexivity]).
Qed.

Lemma ALS_dispatch_witness :
  (1 = 1 ->
   forall edfa,
     ~ In (Dispatch_disable_als edfa) (fst (ALS "roadm" 1 (Ok tt) (Ok tt) (Ok tt)))) /\
  fst (ALS "roadm" 1 (Ok tt) (Ok tt) (Ok tt)) = [Connect "roadm"; Close_session] /\
  snd (ALS "roadm" 2 (Raise (PyExn "SSHError")) (Ok tt) (Ok tt)) =
  Raise UnboundLocalError.
Proof.
  split; [exact (proj1 (ALS_dispatch "roadm" 1 (Ok tt) (Ok tt) (Ok tt)))|].
  split; [reflexivity|].
  exact (proj2 (proj1 (proj2 (proj2 (ALS_dispatch "roadm" 2 (Raise (PyExn "SSHError"))
                                       (Ok tt) (Ok tt))))
                      (PyExn "SSHError") eq_refl)).
Defined.
